(** * Whitebox ad-exchange engine: the decision core of [engine.py]

    A shallow embedding of the admission filter chain, the quality scorer,
    the SKAN conversion estimator, the auction clearing of [ADX.run_auction],
    the value router and the full pipeline of [AdExchangeEngine.run_auction],
    and of what feeds the pipeline: the tags of [traffic_source.py], the
    content funnel of [search_recommendation.py] and the value side of
    [distribution_hub.py].  The definitions are followed by the properties
    the specification states about them and by further properties of the
    code.

    Numbers.  Python floats are embedded as exact rationals [Q]; numeric
    equality ([==] in Python) is [Qeq].  Rounding, infinities and NaN are not
    represented.  A float division whose divisor is zero raises
    [ZeroDivisionError] in Python and does so here; what is proved about
    such a division is stated on the divisor as the code computes it.

    Effects.  The engine writes an append-only log, draws random numbers,
    reads the clock and keeps the scorer's and the estimator's histories.
    All of that lives in one [World]; random draws and clock readings are
    answered by oracles indexed by the number of readings made so far. *)

From Stdlib Require Import QArith Qround Lqa Ascii.
From stdpp Require Import gmap strings list pretty sorting.

Open Scope Q_scope.

(** ** Python's [min] and [max] on two arguments

    [min(a, b)] answers [b] only when [b < a]; [max(a, b)] answers [b] only
    when [b > a].  The first argument wins ties. *)

Definition py_min (a b : Q) : Q := if Qle_bool a b then a else b.
Definition py_max (a b : Q) : Q := if Qle_bool b a then a else b.

Definition Qlt_bool (a b : Q) : bool := negb (Qle_bool b a).

(** Python's [sum] over a list of numbers. *)
Definition sumQ (l : list Q) : Q := foldl Qplus 0 l.

(** Float division: a zero divisor raises. *)
Inductive PyError := ZeroDivisionError.

(** ** The decision log *)

Record WhiteboxTrace := mkTrace {
  node : string;
  action : string;
  decision : string;
  reason_code : string;
  internal_variables : list (string * Q);  (* the numeric entries of the snapshot *)
  eCPM : option Q
}.

(** ** The world the engine runs in *)

Record Touch := mkTouch {
  channel : string;
  touch_type : string;
  touch_value : Q;
  timestamp : Q
}.

Record World := mkWorld {
  rand_int : nat → Z;          (* answers of random.randint *)
  rand_float : nat → Q;        (* answers of random.random / random.uniform *)
  clock : nat → Q;             (* answers of datetime.now(), in seconds *)
  tick : nat;                  (* oracle readings made so far *)
  log_file : list WhiteboxTrace;                   (* whitebox.log, oldest first *)
  ip_pool : gmap (Z * Z) (list Q);                 (* QualityScorer.ip_pool *)
  click_coordinates : gmap string (list (Z * Z));  (* QualityScorer.click_coordinates *)
  historical_conversion_distribution : gmap Z Q;   (* SKANOptimizer state *)
  user_touch_history : gmap string (list Touch)    (* InternalOpportunityManager state *)
}.

Inductive Outcome (A : Type) : Type :=
| Returns (a : A) (w : World)
| Raises (e : PyError) (w : World).
Arguments Returns {A} a w.
Arguments Raises {A} e w.

Definition Eff (A : Type) : Type := World → Outcome A.

Definition ret {A} (a : A) : Eff A := fun w => Returns a w.

Definition bind {A B} (c : Eff A) (k : A → Eff B) : Eff B :=
  fun w => match c w with
           | Returns a w' => k a w'
           | Raises e w' => Raises e w'
           end.

Definition raise {A} (e : PyError) : Eff A := fun w => Raises e w.

Definition py_div (a b : Q) : Eff Q :=
  if Qeq_bool b 0 then raise ZeroDivisionError else ret (a / b).

Declare Scope eff_scope.
Delimit Scope eff_scope with eff.
Notation "x <- c1 ;; c2" := (bind c1 (fun x => c2))
  (at level 100, c1 at next level, right associativity) : eff_scope.
Notation "c1 ;;; c2" := (bind c1 (fun _ => c2))
  (at level 100, right associativity) : eff_scope.
Open Scope eff_scope.

Definition set_tick (n : nat) (w : World) : World :=
  mkWorld (rand_int w) (rand_float w) (clock w) n (log_file w)
          (ip_pool w) (click_coordinates w) (historical_conversion_distribution w)
          (user_touch_history w).

Definition set_log (l : list WhiteboxTrace) (w : World) : World :=
  mkWorld (rand_int w) (rand_float w) (clock w) (tick w) l
          (ip_pool w) (click_coordinates w) (historical_conversion_distribution w)
          (user_touch_history w).

Definition set_ip_pool (p : gmap (Z * Z) (list Q)) (w : World) : World :=
  mkWorld (rand_int w) (rand_float w) (clock w) (tick w) (log_file w)
          p (click_coordinates w) (historical_conversion_distribution w)
          (user_touch_history w).

Definition set_click_coordinates (c : gmap string (list (Z * Z))) (w : World) : World :=
  mkWorld (rand_int w) (rand_float w) (clock w) (tick w) (log_file w)
          (ip_pool w) c (historical_conversion_distribution w)
          (user_touch_history w).

Definition set_distribution (d : gmap Z Q) (w : World) : World :=
  mkWorld (rand_int w) (rand_float w) (clock w) (tick w) (log_file w)
          (ip_pool w) (click_coordinates w) d (user_touch_history w).

Definition set_touch_history (h : gmap string (list Touch)) (w : World) : World :=
  mkWorld (rand_int w) (rand_float w) (clock w) (tick w) (log_file w)
          (ip_pool w) (click_coordinates w) (historical_conversion_distribution w) h.

Definition get_world : Eff World := fun w => Returns w w.
Definition modify (f : World → World) : Eff unit := fun w => Returns tt (f w).

(** [random.randint], [random.random]/[random.uniform] and [datetime.now]. *)
Definition randint : Eff Z :=
  fun w => Returns (rand_int w (tick w)) (set_tick (S (tick w)) w).
Definition random : Eff Q :=
  fun w => Returns (rand_float w (tick w)) (set_tick (S (tick w)) w).
Definition now : Eff Q :=
  fun w => Returns (clock w (tick w)) (set_tick (S (tick w)) w).

(** [WhiteboxLogger.log_decision]: one record appended to the log. *)
Definition log_decision (nd act dec rc : string) (vars : list (string * Q))
    (ecpm : option Q) : Eff unit :=
  fun w => Returns tt (set_log (log_file w ++ [mkTrace nd act dec rc vars ecpm]) w).

(** ** Requests

    An ad request is a Python dict.  Its text entries, its numeric entries
    and its [ad_size] pair are kept in separate maps, read with the
    defaults the code passes to [dict.get]. *)

Record AdRequest := mkRequest {
  req_text : gmap string string;
  req_num : gmap string Q;
  req_ad_size : option (Z * Z)
}.

Definition get_text (r : AdRequest) (k : string) : string := default "" (req_text r !! k).

(** ** Admission filters ([FilterRule] and its subclasses) *)

Inductive FilterRule :=
| FloorPriceFilter (floor_price : Q)
| BlacklistFilter (blacklist : gset string)
| SizeMatchFilter (required_size : Z * Z)
| LatencyTimeoutFilter (max_latency_ms : Z)
| CreativeMismatchFilter (rejection_rate : Q)
| FloorPriceHighFilter (floor_price : Q).

Definition filter_name (f : FilterRule) : string :=
  match f with
  | FloorPriceFilter _ => "FloorPriceFilter"
  | BlacklistFilter _ => "BlacklistFilter"
  | SizeMatchFilter _ => "SizeMatchFilter"
  | LatencyTimeoutFilter _ => "LatencyTimeoutFilter"
  | CreativeMismatchFilter _ => "CreativeMismatchFilter"
  | FloorPriceHighFilter _ => "FloorPriceHighFilter"
  end.

(** The loss estimate shared by the latency and the creative filter. *)
Definition estimate_potential (r : AdRequest) : Q * Q :=
  let '(potential_loss, potential_ecpm) :=
    match req_num r !! "estimated_ecpm" with
    | Some e => (e, e)
    | None =>
        let p := 0.5 * 0.02 * 0.05 * 1.0 * 1000 in
        let p := if Qeq_bool p 0 then 0.5 else p in
        (p, p)
    end in
  (if Qeq_bool potential_loss 0 then 0.5 else potential_loss,
   if Qeq_bool potential_ecpm 0 then 0.5 else potential_ecpm).

(** [FilterRule.apply]: whether the request passes, and the reason code. *)
Definition apply (f : FilterRule) (r : AdRequest) : Eff (bool * string * list (string * Q)) :=
  match f with
  | FloorPriceFilter floor_price =>
      let bid_price := default 0 (req_num r !! "bid_price") in
      let vars := [("bid_price", bid_price); ("floor_price", floor_price)] in
      if Qle_bool floor_price bid_price then
        log_decision "ADX" "FLOOR_PRICE_CHECK" "PASS" "BID_ABOVE_FLOOR" vars None ;;;
        ret (true, "BID_ABOVE_FLOOR", vars)
      else
        log_decision "ADX" "FLOOR_PRICE_CHECK" "REJECT" "BID_BELOW_FLOOR" vars None ;;;
        ret (false, "BID_BELOW_FLOOR", vars)
  | BlacklistFilter blacklist =>
      let device_id := get_text r "device_id" in
      let app_id := get_text r "app_id" in
      if bool_decide (device_id ∈ blacklist) || bool_decide (app_id ∈ blacklist) then
        log_decision "ADX" "BLACKLIST_CHECK" "REJECT" "IN_BLACKLIST" [] None ;;;
        ret (false, "IN_BLACKLIST", [])
      else
        log_decision "ADX" "BLACKLIST_CHECK" "PASS" "NOT_IN_BLACKLIST" [] None ;;;
        ret (true, "NOT_IN_BLACKLIST", [])
  | SizeMatchFilter required_size =>
      let ad_size := default (0, 0)%Z (req_ad_size r) in
      if bool_decide (ad_size = required_size) then
        log_decision "ADX" "SIZE_MATCH_CHECK" "PASS" "SIZE_MATCHED" [] None ;;;
        ret (true, "SIZE_MATCHED", [])
      else
        log_decision "ADX" "SIZE_MATCH_CHECK" "REJECT" "SIZE_MISMATCH" [] None ;;;
        ret (false, "SIZE_MISMATCH", [])
  | LatencyTimeoutFilter max_latency_ms =>
      latency_ms <- randint ;;
      let vars := [("latency_ms", inject_Z latency_ms);
                   ("max_latency_ms", inject_Z max_latency_ms)] in
      if (latency_ms <=? max_latency_ms)%Z then
        log_decision "ADX" "LATENCY_CHECK" "PASS" "LATENCY_OK" vars None ;;;
        ret (true, "LATENCY_OK", vars)
      else
        let '(potential_loss, potential_ecpm) := estimate_potential r in
        let vars := vars ++ [("potential_loss", potential_loss);
                             ("highest_potential_ecpm_loss", potential_ecpm);
                             ("max_potential_ecpm", potential_ecpm)] in
        log_decision "ADX" "LATENCY_CHECK" "REJECT" "LATENCY_TIMEOUT" vars None ;;;
        ret (false, "LATENCY_TIMEOUT", vars)
  | CreativeMismatchFilter rejection_rate =>
      x <- random ;;
      let is_compliant := negb (Qle_bool x rejection_rate) in
      let vars := [("rejection_rate", rejection_rate)] in
      if is_compliant then
        log_decision "ADX" "CREATIVE_COMPLIANCE_CHECK" "PASS" "CREATIVE_COMPLIANT" vars None ;;;
        ret (true, "CREATIVE_COMPLIANT", vars)
      else
        let '(potential_loss, potential_ecpm) := estimate_potential r in
        let vars := vars ++ [("potential_loss", potential_loss);
                             ("highest_potential_ecpm_loss", potential_ecpm);
                             ("max_potential_ecpm", potential_ecpm)] in
        log_decision "ADX" "CREATIVE_COMPLIANCE_CHECK" "REJECT" "CREATIVE_MISMATCH" vars None ;;;
        ret (false, "CREATIVE_MISMATCH", vars)
  | FloorPriceHighFilter floor_price =>
      let bid_price := default 0 (req_num r !! "bid_price") in
      let price_gap := if Qle_bool floor_price bid_price then 0 else floor_price - bid_price in
      let vars := [("bid_price", bid_price); ("floor_price", floor_price);
                   ("price_gap", price_gap)] in
      if Qle_bool floor_price bid_price then
        ret (true, "BID_ABOVE_FLOOR", vars)
      else
        log_decision "ADX" "FLOOR_PRICE_HIGH_CHECK" "REJECT" "FLOOR_PRICE_HIGH" vars None ;;;
        ret (false, "FLOOR_PRICE_HIGH", vars)
  end.

(** ** Strings *)

Definition upper_char (c : ascii) : ascii :=
  let n := N_of_ascii c in
  if (97 <=? n)%N && (n <=? 122)%N then ascii_of_N (n - 32) else c.
Definition lower_char (c : ascii) : ascii :=
  let n := N_of_ascii c in
  if (65 <=? n)%N && (n <=? 90)%N then ascii_of_N (n + 32) else c.

(** [str.upper] and [str.lower] on ASCII letters; other bytes are kept.
    Python also maps the letters outside ASCII, so the two agree with Python
    on ASCII strings, and on any string that [upper] sends to an ASCII
    constant such as ["IOS"]. *)
Fixpoint upper (s : string) : string :=
  match s with
  | EmptyString => EmptyString
  | String c s' => String (upper_char c) (upper s')
  end.
Fixpoint lower (s : string) : string :=
  match s with
  | EmptyString => EmptyString
  | String c s' => String (lower_char c) (lower s')
  end.

(** ** QualityScorer *)

Module QualityScorer.

Inductive FraudFeature :=
| IpConcentration          (* "IP异常集中" *)
| FixedClickCoordinates    (* "点击坐标固定" *)
| DeviceFingerprint | BehaviourPattern | TimeDistribution.

Definition variance (xs : list Z) : Q :=
  let n := inject_Z (Z.of_nat (length xs)) in
  let mean := sumQ (inject_Z <$> xs) / n in
  sumQ ((λ x, (inject_Z x - mean) ^ 2) <$> xs) / n.

(** [QualityScorer.score]: the quality factor and the detected features. *)
Definition score (fraud_rate : Q) (r : AdRequest) : Eff (Q * list FraudFeature) :=
  let device_id := get_text r "device_id" in
  let app_id := get_text r "app_id" in
  ip_a <- randint ;;
  ip_b <- randint ;;
  let ip_address := (ip_a, ip_b) in
  click_x <- randint ;;
  click_y <- randint ;;
  (* feature 1: the same IP seen more than 10 times in 5 minutes *)
  t <- now ;;
  w <- get_world ;;
  let stamps := default [] (ip_pool w !! ip_address) ++ [t] in
  t' <- now ;;
  let five_min_ago := t' - 300 in
  let stamps := filter (λ ts, Qlt_bool five_min_ago ts = true) stamps in
  modify (set_ip_pool (<[ip_address := stamps]> (ip_pool w))) ;;;
  let '(fraud_features, q_factor) :=
    if (10 <? length stamps)%nat then ([IpConcentration], 1.0 * 0.5) else ([], 1.0) in
  (* feature 2: click coordinates that hardly move *)
  let coordinate_key := device_id +:+ "_" +:+ app_id in
  w <- get_world ;;
  let coords := default [] (click_coordinates w !! coordinate_key) ++ [(click_x, click_y)] in
  let coords := if (20 <? length coords)%nat then drop (length coords - 20) coords else coords in
  modify (set_click_coordinates (<[coordinate_key := coords]> (click_coordinates w))) ;;;
  let '(fraud_features, q_factor) :=
    if (5 <=? length coords)%nat then
      let x_variance := variance (fst <$> coords) in
      let y_variance := variance (snd <$> coords) in
      if Qlt_bool x_variance 100 || Qlt_bool y_variance 100
      then (fraud_features ++ [FixedClickCoordinates], q_factor * 0.6)
      else (fraud_features, q_factor)
    else (fraud_features, q_factor) in
  (* an injected share of otherwise clean traffic *)
  x <- random ;;
  res <- (if Qlt_bool x fraud_rate && bool_decide (fraud_features = []) then
            i <- randint ;;
            let fraud_type := default DeviceFingerprint
                  ([DeviceFingerprint; BehaviourPattern; TimeDistribution] !! Z.to_nat i) in
            u <- random ;;
            ret (fraud_features ++ [fraud_type], q_factor * u)
          else ret (fraud_features, q_factor)) ;;
  let '(fraud_features, q_factor) := res in
  let q_factor := py_max 0.0 (py_min 1.0 q_factor) in
  log_decision "ADX" "QUALITY_SCORE"
               (if Qle_bool 0.5 q_factor then "PASS" else "WARNING") "QUALITY_SCORED"
               [("q_factor", q_factor); ("quality_score", q_factor)] None ;;;
  ret (q_factor, fraud_features).

End QualityScorer.

(** ** SKANOptimizer *)

Module SKANOptimizer.

Definition initialize_conversion_distribution : gmap Z Q :=
  let low := (λ i, (i, 0.6 / 21 * (1 - inject_Z i / 21 * 0.5))) <$> seqZ 0 21 in
  let mid := (λ i, (i, 0.3 / 20 * (1 - (inject_Z i - 21) / 20 * 0.3))) <$> seqZ 21 20 in
  let high := (λ i, (i, 0.1 / 23 * (1 - (inject_Z i - 41) / 23 * 0.2))) <$> seqZ 41 23 in
  let entries := low ++ mid ++ high in
  let total_prob := sumQ (snd <$> entries) in
  (λ p, p / total_prob) <$> (list_to_map entries : gmap Z Q).

Definition conversion_value_mapping : gmap Z Q :=
  list_to_map ((λ i, (i, inject_Z i / 63.0 * 10.0)) <$> seqZ 0 64).

(** [sorted(d.items())] of a dict with integer keys: ascending keys. *)
Fixpoint insert_by_key (x : Z * Q) (l : list (Z * Q)) : list (Z * Q) :=
  match l with
  | [] => [x]
  | y :: l' => if (x.1 <=? y.1)%Z then x :: l else y :: insert_by_key x l'
  end.
Definition sorted_items (d : gmap Z Q) : list (Z * Q) :=
  foldr insert_by_key [] (map_to_list d).

Fixpoint sample_scan (rand cumulative : Q) (items : list (Z * Q)) : Z :=
  match items with
  | [] => 31
  | (value, prob) :: rest =>
      let cumulative := cumulative + prob in
      if Qle_bool rand cumulative then value else sample_scan rand cumulative rest
  end.

(** [SKANOptimizer._sample_conversion_value] *)
Definition sample_conversion_value : Eff Z :=
  rand <- random ;;
  w <- get_world ;;
  ret (sample_scan rand 0.0 (sorted_items (historical_conversion_distribution w))).

Record SkanDetails := mkSkan {
  conversion_value : Z;
  business_value : Q;
  base_pcvr : Q;
  adjusted_pcvr : Q;
  confidence : Q;
  postback_delay_hours : Q;
  historical_prob : Q
}.

(** [SKANOptimizer.estimate_pcvr_from_skan]: [None] with no details for a
    platform other than iOS. *)
Definition estimate_pcvr_from_skan (r : AdRequest) : Eff (option Q * option SkanDetails) :=
  let platform := upper (get_text r "platform") in
  if negb (bool_decide (platform = "IOS")) then ret (None, None)
  else
    conversion_value <- sample_conversion_value ;;
    let business_value := default 0 (conversion_value_mapping !! conversion_value) in
    let base_pcvr := 0.01 + (inject_Z conversion_value / 63.0) * 0.09 in
    w <- get_world ;;
    let historical_prob :=
      default 0.01 (historical_conversion_distribution w !! conversion_value) in
    let confidence := py_min 1.0 (py_max 0.6 (historical_prob * 15)) in
    let adjusted_pcvr := base_pcvr * (0.7 + confidence * 0.3) in
    postback_delay_hours <- random ;;
    let optimization_details :=
      mkSkan conversion_value business_value base_pcvr adjusted_pcvr confidence
             postback_delay_hours historical_prob in
    log_decision "ADX" "SKAN_OPTIMIZATION" "PASS" "SKAN_4.0_PCVR_ESTIMATED"
                 [("conversion_value", inject_Z conversion_value);
                  ("business_value", business_value);
                  ("base_pcvr", base_pcvr);
                  ("adjusted_pcvr", adjusted_pcvr);
                  ("confidence", confidence);
                  ("postback_delay_hours", postback_delay_hours);
                  ("postback_delay_seconds", postback_delay_hours * 3600);
                  ("historical_prob", historical_prob)] None ;;;
    ret (Some adjusted_pcvr, Some optimization_details).


End SKANOptimizer.

(** ** InternalOpportunityManager *)

(** [datetime.now().hour], the clock counting seconds. *)
Definition hour_of (t : Q) : Z := ((Qfloor t / 3600) mod 24)%Z.

(** [needle in haystack] on strings. *)
Definition contains (needle haystack : string) : bool :=
  bool_decide (is_Some (String.index 0 needle haystack)).

Module InternalOpportunityManager.

Definition get_user_touch_history (device_id : string) : Eff (list Touch) :=
  w <- get_world ;;
  ret (default [] (user_touch_history w !! device_id)).

Definition add_touch (device_id chan typ : string) (value : Q) : Eff unit :=
  t <- now ;;
  w <- get_world ;;
  let touches := default [] (user_touch_history w !! device_id) ++ [mkTouch chan typ value t] in
  let touches := if (10 <? length touches)%nat
                 then drop (length touches - 10) touches else touches in
  modify (set_touch_history (<[device_id := touches]> (user_touch_history w))).

Definition estimate_search_value (device_id : string) (r : AdRequest) : Eff Q :=
  touch_history <- get_user_touch_history device_id ;;
  let search_touches := filter (λ t, channel t = "search") touch_history in
  let search_intent :=
    match search_touches with
    | [] => 0.5
    | _ => py_min 1.0 (0.5 + inject_Z (Z.of_nat (length search_touches)) * 0.1)
    end in
  base_value <- random ;;
  let ev_search := base_value * search_intent in
  let app_id := lower (get_text r "app_id") in
  ret (if contains "bilibili" app_id || contains "b站" app_id
       then ev_search * 1.3 else ev_search).

(** The touches of the last hour; the clock is read once per touch. *)
Fixpoint recent (touches : list Touch) : Eff (list Touch) :=
  match touches with
  | [] => ret []
  | t :: rest =>
      n <- now ;;
      rest' <- recent rest ;;
      ret (if Qlt_bool (n - timestamp t) 3600 then t :: rest' else rest')
  end.

Definition estimate_push_value (device_id : string) (r : AdRequest) : Eff Q :=
  touch_history <- get_user_touch_history device_id ;;
  recent_touches <- recent touch_history ;;
  let activity_level := py_min 1.0 (inject_Z (Z.of_nat (length recent_touches)) * 0.2) in
  let ad_touches := filter (λ t, touch_type t = "ad_view") touch_history in
  let fatigue_level := py_min 1.0 (inject_Z (Z.of_nat (length ad_touches)) * 0.15) in
  base_value <- random ;;
  let ev_push := base_value * (0.5 + activity_level * 0.5) * (1 - fatigue_level * 0.5) in
  ret (if Qlt_bool 0.7 fatigue_level then ev_push * 1.5 else ev_push).

(** [max(values.items(), key=lambda x: x[1])]: the first entry that no later
    entry strictly exceeds. *)
Fixpoint max_by_value (best : string * Q) (rest : list (string * Q)) : string * Q :=
  match rest with
  | [] => best
  | x :: rest' => max_by_value (if Qlt_bool best.2 x.2 then x else best) rest'
  end.

(** [calculate_total_value]: the total value and the selected path, over
    the entries in the order the dict lists them. *)
Definition calculate_total_value (ecpm_ads ev_search ev_push : Q) : Q * string :=
  let selected := max_by_value ("ads", ecpm_ads) [("search", ev_search); ("push", ev_push)] in
  (selected.2, selected.1).

End InternalOpportunityManager.

(** ** Bids

    A bid is a Python dict: the bidder's id and the numeric entries
    ([bid_price], [pctr], [pcvr], [floor_price], and after clearing
    [q_factor], [ecpm], [original_ecpm]).  The bids of one auction are
    distinct dicts, as the pipeline builds them; the updates the auction
    makes in place are returned as new values. *)

Record Bid := mkBid {
  dsp_id : string;
  num : gmap string Q
}.

Definition get_num (b : Bid) (k : string) (dflt : Q) : Q := default dflt (num b !! k).

(** [sorted(bids, key=lambda x: x.get('ecpm', 0), reverse=True)]: descending
    keys, bids of equal key in their original order. *)
Fixpoint insert_desc (x : Bid) (l : list Bid) : list Bid :=
  match l with
  | [] => [x]
  | y :: l' =>
      if Qlt_bool (get_num x "ecpm" 0) (get_num y "ecpm" 0)
      then y :: insert_desc x l' else x :: l
  end.
Definition sorted_by_ecpm (bids : list Bid) : list Bid := foldr insert_desc [] bids.

Record AuctionResult := mkAuction {
  winner : Bid;
  winner_bid : Q;
  winner_ecpm : Q;
  winner_pctr : Q;
  winner_pcvr : Q;
  second_best_bid : Q;
  second_highest_ecpm : Q;
  actual_paid_price : Q;
  saved_amount : Q;
  all_bids : list Bid;
  original_ecpm : Q;
  has_competition : bool
}.

(** ** ADX *)

Module ADX.

Record t := mk {
  filters : list FilterRule;
  quality_scorer : option Q;     (* the scorer's fraud rate, when scoring is on *)
  skan_optimizer : bool
}.

Definition add_filter (adx : t) (filter_rule : FilterRule) : t :=
  mk (filters adx ++ [filter_rule]) (quality_scorer adx) (skan_optimizer adx).

(** The loop of [ADX.process_request] over [self.filters]. *)
Fixpoint apply_filters (filters : list FilterRule) (n : nat) (r : AdRequest)
    : Eff (bool * string) :=
  match filters with
  | [] =>
      log_decision "ADX" "FINAL_DECISION" "PASS" "ALL_FILTERS_PASSED"
                   [("filters_count", inject_Z (Z.of_nat n))] None ;;;
      ret (true, "ALL_FILTERS_PASSED")
  | filter_rule :: rest =>
      res <- apply filter_rule r ;;
      let '(passed, reason_code, internal_vars) := res in
      if passed then apply_filters rest n r
      else
        log_decision "ADX" "FINAL_DECISION" "REJECT" reason_code internal_vars None ;;;
        ret (false, reason_code)
  end.

Definition process_request (adx : t) (r : AdRequest) : Eff (bool * string) :=
  log_decision "ADX" "REQUEST_RECEIVED" "PASS" "REQUEST_ACCEPTED" (map_to_list (req_num r)) None ;;;
  apply_filters (filters adx) (length (filters adx)) r.

(** Truth value of an optional request dict: present and not empty. *)
Definition truthy (ad_request : option AdRequest) : option AdRequest :=
  match ad_request with
  | Some r =>
      if (size (req_text r) + size (req_num r) =? 0)%nat && negb (bool_decide (is_Some (req_ad_size r)))
      then None else Some r
  | None => None
  end.

(** One turn of the first loop of [run_auction]: the bid with its quality
    factor, its adjusted and original eCPM and its rates written back. *)
Definition rate_bid (adx : t) (ad_request : option AdRequest) (bid : Bid) : Eff Bid :=
  let bid_price := get_num bid "bid_price" 0 in
  let pctr := get_num bid "pctr" 0.001 in
  let pcvr := get_num bid "pcvr" 0.01 in
  q_factor <-
    match quality_scorer adx, truthy ad_request with
    | Some fraud_rate, Some r =>
        match num bid !! "q_factor" with
        | None => res <- QualityScorer.score fraud_rate r ;; ret res.1
        | Some q => ret q
        end
    | _, _ => ret (get_num bid "q_factor" 1.0)
    end ;;
  let adjusted_ecpm := bid_price * pctr * pcvr * q_factor * 1000 in
  let original_ecpm := bid_price * pctr * pcvr * 1000 in
  ret (mkBid (dsp_id bid)
         (<["pcvr" := pcvr]> (<["pctr" := pctr]> (<["q_factor" := q_factor]>
            (<["original_ecpm" := original_ecpm]> (<["ecpm" := adjusted_ecpm]> (num bid))))))).

Fixpoint rate_bids (adx : t) (ad_request : option AdRequest) (bids : list Bid)
    : Eff (list Bid) :=
  match bids with
  | [] => ret []
  | bid :: rest =>
      bid' <- rate_bid adx ad_request bid ;;
      rest' <- rate_bids adx ad_request rest ;;
      ret (bid' :: rest')
  end.

(** The second half of [run_auction]: the ranked bids are cleared at the
    second price, or at the floor price when nobody competes. *)
Definition settle (sorted_bids : list Bid) : Eff (option AuctionResult) :=
  match sorted_bids with
  | [] => ret None
  | winner :: others =>
      let winner_bid := get_num winner "bid_price" 0 in
      let winner_pctr := get_num winner "pctr" 0.001 in
      let winner_pcvr := get_num winner "pcvr" 0.01 in
      let winner_ecpm := get_num winner "ecpm" 0 in
      res <- match others with
             | second :: _ =>
                 let second_highest_ecpm := get_num second "ecpm" 0 in
                 actual_paid_price <-
                   py_div (second_highest_ecpm + 0.01) (1000 * winner_pctr * winner_pcvr) ;;
                 ret (actual_paid_price, get_num second "bid_price" 0, second_highest_ecpm)
             | [] =>
                 let floor_price := get_num winner "floor_price" 0.1 in
                 ret (floor_price, floor_price, 0)
             end ;;
      let '(actual_paid_price, second_best_bid, second_highest_ecpm) := res in
      let actual_paid_price := py_min actual_paid_price winner_bid in
      let saved_amount := py_max 0.0 (winner_bid - actual_paid_price) in
      ret (Some (mkAuction winner winner_bid winner_ecpm winner_pctr winner_pcvr
                   second_best_bid
                   (if (1 <? length sorted_bids)%nat then second_highest_ecpm else 0)
                   actual_paid_price saved_amount sorted_bids
                   (get_num winner "original_ecpm" winner_ecpm)
                   (1 <? length sorted_bids)%nat))
  end.

(** [ADX.run_auction]: eCPM ranking and second-price clearing. *)
Definition run_auction (adx : t) (bids : list Bid) (ad_request : option AdRequest)
    : Eff (option AuctionResult) :=
  match bids with
  | [] => ret None
  | _ =>
      bids <- rate_bids adx ad_request bids ;;
      settle (sorted_by_ecpm bids)
  end.

End ADX.

(** ** SSP *)

Definition set_num (k : string) (v : Q) (r : AdRequest) : AdRequest :=
  mkRequest (req_text r) (<[k := v]> (req_num r)) (req_ad_size r).
Definition set_text (k v : string) (r : AdRequest) : AdRequest :=
  mkRequest (<[k := v]> (req_text r)) (req_num r) (req_ad_size r).

Module SSP.

(** [SSP.generate_request]: the latency is drawn here; iOS requests also
    carry a postback delay. *)
Definition generate_request (request_id device_id app_id app_name platform : string)
    (ad_size : Z * Z) : Eff AdRequest :=
  latency_ms <- random ;;
  postback <- (if bool_decide (upper platform = "IOS")
               then h <- random ;; ret (Some h) else ret None) ;;
  stamp <- now ;;
  let ad_request :=
    mkRequest (list_to_map [("request_id", request_id); ("device_id", device_id);
                            ("app_id", app_id); ("app_name", app_name);
                            ("platform", platform)])
              (list_to_map ([("latency_ms", latency_ms); ("timestamp", stamp)] ++
                 match postback with
                 | Some h => [("postback_delay_hours", h); ("postback_delay_seconds", h * 3600)]
                 | None => []
                 end))
              (Some ad_size) in
  log_decision "SSP" "REQUEST_GENERATED" "PASS" "REQUEST_CREATED"
               (map_to_list (req_num ad_request)) None ;;;
  ret ad_request.

End SSP.

(** ** DSP and its bidding strategy *)

Module CTRBasedBiddingStrategy.

Definition get_multiplier (r : AdRequest) : Eff Q :=
  let platform := upper (get_text r "platform") in
  t <- now ;;
  let hour := hour_of t in
  let multiplier := if bool_decide (platform = "IOS") then 1.0 * 1.2 else 1.0 in
  ret (if ((9 <=? hour) && (hour <=? 11) || (19 <=? hour) && (hour <=? 22))%Z
       then multiplier * 1.15 else multiplier).

(** [calculate_bid]: base price × CTR score × multiplier. *)
Definition calculate_bid (base_price : Q) (r : AdRequest) : Eff Q :=
  let ctr_score := default 0.5 (req_num r !! "ctr_score") in
  multiplier <- get_multiplier r ;;
  let final_bid := base_price * ctr_score * multiplier in
  t <- now ;;
  log_decision "DSP" "BID_CALCULATION" "PASS" "BID_CALCULATED"
               [("base_price", base_price); ("ctr_score", ctr_score);
                ("multiplier", multiplier); ("final_bid", final_bid);
                ("hour", inject_Z (hour_of t))] None ;;;
  ret final_bid.

End CTRBasedBiddingStrategy.

Module DSP.

(** [DSP.bid]: the request copy with [pctr], [pcvr], [ctr_score] and
    [bid_price] written on it. *)
Definition bid (base_price : Q) (r : AdRequest) (skan_optimizer : bool) : Eff AdRequest :=
  let platform := upper (get_text r "platform") in
  pctr <- random ;;
  pcvr <- (if bool_decide (platform = "IOS") && skan_optimizer then
             res <- SKANOptimizer.estimate_pcvr_from_skan r ;;
             match res.1 with
             | Some pcvr => ret pcvr
             | None => random
             end
           else random) ;;
  let r := set_num "pcvr" pcvr (set_num "pctr" pctr r) in
  let ctr_score := py_min (pctr / 0.05) 1.0 in
  t <- now ;;
  let hour := hour_of t in
  let ctr_score :=
    if bool_decide (platform = "IOS") then ctr_score * 1.1
    else if bool_decide (platform = "ANDROID") then ctr_score * 1.0
    else ctr_score * 0.9 in
  let ctr_score :=
    if ((9 <=? hour) && (hour <=? 11) || (19 <=? hour) && (hour <=? 22))%Z
    then ctr_score * 1.05 else ctr_score in
  let r := set_num "ctr_score" ctr_score r in
  log_decision "DSP" "CTR_ESTIMATION" "PASS" "CTR_CALCULATED"
               [("ctr_score", ctr_score); ("pctr", pctr); ("pcvr", pcvr);
                ("hour", inject_Z hour)] None ;;;
  bid_price <- CTRBasedBiddingStrategy.calculate_bid base_price r ;;
  let r := set_num "bid_price" bid_price r in
  log_decision "DSP" "BID_SUBMITTED" "PASS" "BID_SUBMITTED" [("final_bid", bid_price)] None ;;;
  ret r.

End DSP.

(** ** The traffic source ([traffic_source.py]) *)

(** The tags of a user, a Python dict; an entry the dict lacks is [None],
    and a missing list of interests is the empty list. *)
Record UserTags := mkUserTags {
  tag_lifecycle_stage : option string;
  tag_registration_days : option Z;
  tag_ltv : option Q;
  tag_interest_tags : list string;
  tag_channel : option string
}.

Module TrafficSource.

Inductive TrafficChannel := ZHI_DE_MAI | BILIBILI | DOUYIN | XIAOHONGSHU | NATURAL.

Inductive UserLifecycleStage := NEW | GROWING | MATURE | CHURN_RISK.

Definition channel_value (c : TrafficChannel) : string :=
  match c with
  | ZHI_DE_MAI => "值得买"
  | BILIBILI => "B站"
  | DOUYIN => "抖音"
  | XIAOHONGSHU => "小红书"
  | NATURAL => "自然流量"
  end.

Definition channel_name (c : TrafficChannel) : string :=
  match c with
  | ZHI_DE_MAI => "ZHI_DE_MAI"
  | BILIBILI => "BILIBILI"
  | DOUYIN => "DOUYIN"
  | XIAOHONGSHU => "XIAOHONGSHU"
  | NATURAL => "NATURAL"
  end.

Definition stage_value (s : UserLifecycleStage) : string :=
  match s with
  | NEW => "新用户"
  | GROWING => "成长期"
  | MATURE => "成熟期"
  | CHURN_RISK => "流失风险"
  end.

Definition channel_cpc (c : TrafficChannel) : Q :=
  match c with
  | ZHI_DE_MAI => 0.8
  | BILIBILI => 1.2
  | DOUYIN => 1.5
  | XIAOHONGSHU => 1.0
  | NATURAL => 0.0
  end.

Definition channel_quality (c : TrafficChannel) : Q :=
  match c with
  | ZHI_DE_MAI => 0.75
  | BILIBILI => 0.85
  | DOUYIN => 0.70
  | XIAOHONGSHU => 0.80
  | NATURAL => 0.60
  end.

Definition get_channel_interests (c : TrafficChannel) : list string :=
  match c with
  | ZHI_DE_MAI => ["购物"; "优惠"; "比价"]
  | BILIBILI => ["二次元"; "游戏"; "科技"]
  | DOUYIN => ["娱乐"; "短视频"; "时尚"]
  | XIAOHONGSHU => ["美妆"; "穿搭"; "生活方式"]
  | NATURAL => ["通用"; "搜索"]
  end.

(** [_generate_user_tags].  [hash_int] is the number the code reads from the
    first eight hexadecimal digits of the MD5 digest of the device id. *)
Definition generate_user_tags (hash_int : Z) (channel : TrafficChannel) : UserTags :=
  let registration_days := (hash_int mod 365)%Z in
  let lifecycle_stage :=
    if (registration_days <=? 7)%Z then NEW
    else if (registration_days <=? 30)%Z then GROWING
    else if (registration_days <=? 90)%Z then MATURE
    else CHURN_RISK in
  let base_ltv :=
    match lifecycle_stage with
    | NEW => 5.0
    | GROWING => 25.0
    | MATURE => 50.0
    | CHURN_RISK => 10.0
    end in
  let channel_quality_factor := channel_quality channel in
  let user_ltv := base_ltv * channel_quality_factor in
  let interest_tags := get_channel_interests channel in
  mkUserTags (Some (stage_value lifecycle_stage)) (Some registration_days) (Some user_ltv)
             interest_tags (Some (channel_value channel)).

Record TrafficInfo := mkTrafficInfo {
  traffic_channel : string;
  channel_enum : string;
  attribution_cost : Q;
  attribution_confidence : Q;
  user_tags : UserTags;
  traffic_lifecycle_stage : option string;
  traffic_user_ltv : Q;
  traffic_registration_days : Z
}.

(** One request of [generate_traffic], for the channel that [random.choice]
    picked. *)
Definition traffic_request (hash_int : Z) (channel : TrafficChannel) : TrafficInfo :=
  let user_tags := generate_user_tags hash_int channel in
  mkTrafficInfo (channel_value channel) (channel_name channel)
                (channel_cpc channel) (channel_quality channel) user_tags
                (tag_lifecycle_stage user_tags)
                (default 0.0 (tag_ltv user_tags))
                (default 0%Z (tag_registration_days user_tags)).

End TrafficSource.

(** ** The content funnel ([search_recommendation.py])

    A content item is a Python dict: its text entries ([content_id],
    [author_id], [type], [publish_time]), its numeric entries (the base
    rates, [ltv_contribution], and after ranking the estimates and
    [ranking_score]) and the [is_ad] flag that re-ranking sets on an
    inserted ad.  A subscript on a missing key raises [KeyError]: the
    functions that subscript answer [None] then. *)

Record Content := mkContent {
  content_text : gmap string string;
  content_num : gmap string Q;
  is_ad : bool
}.

Module SearchRecommendationEngine.

(** [sorted(l, key=lambda x: x[key], reverse=True)] and
    [l.sort(key=..., reverse=True)]: descending keys, items of equal key in
    their original order. *)
Definition key_of (key : string) (c : Content) : Q := default 0 (content_num c !! key).

Fixpoint insert_by (key : string) (x : Content) (l : list Content) : list Content :=
  match l with
  | [] => [x]
  | y :: l' =>
      if Qlt_bool (key_of key x) (key_of key y) then y :: insert_by key x l' else x :: l
  end.

Definition sorted_desc (key : string) (l : list Content) : option (list Content) :=
  if forallb (λ c, bool_decide (is_Some (content_num c !! key))) l
  then Some (foldr (insert_by key) [] l) else None.

(** [_popular_recall] *)
Definition popular_recall (content_pool : list Content) (size : nat)
    : option (list Content) :=
  sorted_pool ← sorted_desc "base_ctr" content_pool;
  Some (take size sorted_pool).

(** [_cold_start_recall].  The slice [pool[-size:]] is the whole pool when
    [size] is 0. *)
Definition cold_start_recall (content_pool : list Content) (user_tags : UserTags)
    (size : nat) : option (list Content) :=
  let lifecycle_stage := default "" (tag_lifecycle_stage user_tags) in
  if bool_decide (lifecycle_stage = "新用户") then
    sorted_pool ← sorted_desc "ltv_contribution" content_pool;
    Some (take size sorted_pool)
  else
    Some (if (size <=? length content_pool)%nat
          then (if (size =? 0)%nat then content_pool
                else drop (length content_pool - size) content_pool)
          else content_pool).

(** The loop of [recall] that drops the items whose id was already seen. *)
Fixpoint unique_content (seen_ids : gset string) (recalled : list Content)
    : option (list Content) :=
  match recalled with
  | [] => Some []
  | content :: rest =>
      content_id ← content_text content !! "content_id";
      if bool_decide (content_id ∈ seen_ids) then unique_content seen_ids rest
      else
        rest' ← unique_content ({[content_id]} ∪ seen_ids) rest;
        Some (content :: rest')
  end.

(** [recall].  The interest and the collaborative recall draw their items
    with [random.sample]; what they answered is given. *)
Definition recall (content_pool interest_content collaborative_content : list Content)
    (user_tags : UserTags) (recall_size : nat) : option (list Content) :=
  popular_content ← popular_recall content_pool (recall_size / 4);
  cold_start_content ← cold_start_recall content_pool user_tags (recall_size / 4);
  unique ← unique_content ∅ (interest_content ++ collaborative_content ++
                              popular_content ++ cold_start_content);
  Some (take recall_size unique).

Definition estimate_ctr (content : Content) (user_tags : UserTags) : Q :=
  let base_ctr := default 0.05 (content_num content !! "base_ctr") in
  let interest_match :=
    match tag_interest_tags user_tags with
    | [] => 1.0
    | _ => 1.2
    end in
  base_ctr * interest_match.

Definition estimate_like_rate (content : Content) : Q :=
  default 0.10 (content_num content !! "base_like_rate").

Definition estimate_finish_rate (content : Content) : Q :=
  default 0.50 (content_num content !! "base_finish_rate").

Definition estimate_comment_rate (content : Content) : Q :=
  default 0.05 (content_num content !! "base_comment_rate").

(** One turn of the loop of [fine_rank]: the copy of the item with its four
    estimates and its score. *)
Definition rank_one (user_tags : UserTags) (content : Content) : Content :=
  let ctr := estimate_ctr content user_tags in
  let like_rate := estimate_like_rate content in
  let finish_rate := estimate_finish_rate content in
  let comment_rate := estimate_comment_rate content in
  let score := 0.4 * ctr + 0.25 * like_rate + 0.25 * finish_rate + 0.1 * comment_rate in
  mkContent (content_text content)
    (<["ranking_score" := score]> (<["estimated_comment_rate" := comment_rate]>
       (<["estimated_finish_rate" := finish_rate]> (<["estimated_like_rate" := like_rate]>
          (<["estimated_ctr" := ctr]> (content_num content))))))
    (is_ad content).

(** [fine_rank] *)
Definition fine_rank (recalled_content : list Content) (user_tags : UserTags)
    : list Content :=
  foldr (insert_by "ranking_score") [] (rank_one user_tags <$> recalled_content).

(** The state of the loop of [re_rank]. *)
Record ReRank := mkReRank {
  re_ranked : list Content;
  seen_authors : gset string;
  ads_inserted : nat
}.

(** [content['ranking_score'] *= 1.1] *)
Definition boost (content : Content) : option Content :=
  score ← content_num content !! "ranking_score";
  Some (mkContent (content_text content)
                  (<["ranking_score" := score * 1.1]> (content_num content))
                  (is_ad content)).

(** The copy of an ad that is inserted. *)
Definition as_ad (ad : Content) : Content :=
  mkContent (<["type" := "广告"]> (content_text ad)) (content_num ad) true.

(** The items of [re_ranked[-3:]] whose author is [author_id]. *)
Definition recent_by (author_id : string) (re_ranked : list Content) : list Content :=
  filter (λ c, content_text c !! "author_id" = Some author_id)
         (drop (length re_ranked - 3) re_ranked).

(** One turn of the loop of [re_rank], for the item at index [i]. *)
Definition re_rank_step (ads_content : list Content) (i : nat) (content : Content)
    (st : ReRank) : option ReRank :=
  let author_id := default "" (content_text content !! "author_id") in
  if bool_decide (author_id ∈ seen_authors st) &&
     (2 <=? length (recent_by author_id (re_ranked st)))%nat
  then Some st
  else
    content ← (if bool_decide (author_id ∈ seen_authors st) then Some content
               else boost content);
    let seen := {[author_id]} ∪ seen_authors st in
    let out := re_ranked st ++ [content] in
    let has_ads := match ads_content with [] => false | _ => true end in
    if has_ads && ((i + 1) mod 5 =? 0)%nat &&
       (ads_inserted st <? length ads_content)%nat
    then
      match ads_content !! ads_inserted st with
      | Some ad => Some (mkReRank (out ++ [as_ad ad]) seen (S (ads_inserted st)))
      | None => Some (mkReRank out seen (ads_inserted st))
      end
    else Some (mkReRank out seen (ads_inserted st)).

Fixpoint re_rank_loop (ads_content : list Content) (i : nat) (ranked_content : list Content)
    (st : ReRank) : option ReRank :=
  match ranked_content with
  | [] => Some st
  | content :: rest =>
      st' ← re_rank_step ads_content i content st;
      re_rank_loop ads_content (S i) rest st'
  end.

(** [re_rank].  The items of [ranked_content] are distinct dicts, as
    [fine_rank] builds them; the score that is raised in place is returned
    on the new value. *)
Definition re_rank (ranked_content : list Content) (ads_content : option (list Content))
    : option (list Content) :=
  re_ranked <$> re_rank_loop (default [] ads_content) 0 ranked_content (mkReRank [] ∅ 0).

(** [calculate_content_ltv] *)
Definition calculate_content_ltv (content : Content) : Q :=
  default 0.0 (content_num content !! "ltv_contribution").

End SearchRecommendationEngine.

(** ** DistributionHub *)

Inductive Outlet := SearchFeed | PushBenefit | HomepageSlot.

Record DistributionResult := mkDistribution {
  dist_selected_path : string;
  distribution_outlet : option Outlet
}.

Module DistributionHub.

(** [distribute]: the outlet that serves the selected path.  The content
    served on the search path comes from the content funnel and is left out. *)
Definition distribute (selected_path : string) : DistributionResult :=
  mkDistribution selected_path
    (if bool_decide (selected_path = "search") then Some SearchFeed
     else if bool_decide (selected_path = "push") then Some PushBenefit
     else if bool_decide (selected_path = "ads") then Some HomepageSlot
     else None).

(** The multiplier of a lifecycle stage, looked up by the stage's name; an
    unknown name gets 1.0. *)
Definition lifecycle_multiplier_of (lifecycle_stage : string) : Q :=
  if bool_decide (lifecycle_stage = "新用户") then 0.5
  else if bool_decide (lifecycle_stage = "成长期") then 1.0
  else if bool_decide (lifecycle_stage = "成熟期") then 1.5
  else if bool_decide (lifecycle_stage = "流失风险") then 0.8
  else 1.0.

(** [_calculate_search_ltv], from what [recall] answered. *)
Definition calculate_search_ltv (recalled : list Content) (user_tags : UserTags) : Q :=
  match recalled with
  | [] => 0.0
  | _ =>
      let ranked := SearchRecommendationEngine.fine_rank recalled user_tags in
      let top_content := take 5 ranked in
      let total_ltv :=
        sumQ (SearchRecommendationEngine.calculate_content_ltv <$> top_content) in
      let lifecycle_stage := default "新用户" (tag_lifecycle_stage user_tags) in
      total_ltv * lifecycle_multiplier_of lifecycle_stage
  end.

(** [_calculate_push_value] *)
Definition calculate_push_value (user_tags : UserTags) : Q :=
  let lifecycle_stage := default "新用户" (tag_lifecycle_stage user_tags) in
  let registration_days := default 0%Z (tag_registration_days user_tags) in
  let base_value :=
    if bool_decide (lifecycle_stage = "新用户") then 2.0
    else if bool_decide (lifecycle_stage = "成长期") then 1.5
    else if bool_decide (lifecycle_stage = "成熟期") then 1.0
    else if bool_decide (lifecycle_stage = "流失风险") then 2.5
    else 1.5 in
  let activity_factor := py_max 0.5 (1.0 - inject_Z registration_days / 365.0) in
  base_value * activity_factor.

(** [DistributionHub.calculate_total_value]: the total value and the
    selected path, over the entries in the order the dict lists them:
    search, ads, push. *)
Definition calculate_total_value (recalled : list Content) (user_tags : UserTags)
    (ad_ecpm : Q) : Q * string :=
  let search_ltv := calculate_search_ltv recalled user_tags in
  let ad_value := ad_ecpm / 1000.0 in
  let push_value := calculate_push_value user_tags in
  let selected :=
    InternalOpportunityManager.max_by_value
      ("search", search_ltv) [("ads", ad_value); ("push", push_value)] in
  (selected.2, selected.1).

End DistributionHub.

(** ** AdExchangeEngine: the full pipeline *)

Inductive LifecycleStage := NewUser | Growing | Mature | ChurnRisk | OtherStage.

(** What the traffic source and the content funnel hand to the pipeline:
    the user's lifecycle stage and value, and the summed lifetime value of
    the five best re-ranked content items. *)
Record Upstream := mkUpstream {
  lifecycle_stage : LifecycleStage;
  user_ltv : Q;
  organic_ltv : Q
}.

Record Result := mkResult {
  status : string;
  reason : string;
  bid_price : Q;
  selected_path : option string;
  res_winner : option string;
  res_ecpm : option Q;
  res_actual_paid_price : option Q;
  res_saved_amount : option Q;
  res_organic_ltv : option Q;
  res_max_ad_value : option Q;
  opportunity_cost : option Q;
  potential_loss : option Q;
  distribution_result : option DistributionResult
}.

(** What the pipeline knows once bids and values are collected. *)
Record Collected := mkCollected {
  ad_request : AdRequest;
  latency_ms : Q;
  collected_bids : list Bid;
  organic_ltv_adjusted : Q;
  ev_search : Q;
  ev_push : Q
}.

Module AdExchangeEngine.

Record t := mk {
  adx : ADX.t;
  dsp : option Q      (* the base price of the CTR strategy, once set up *)
}.

Definition TIMEOUT_THRESHOLD : Q := 100.

(** [setup_adx_filters]: the filters appended to the chain.  The floor price
    argument is accepted and not used: the floor is applied to each bid as
    it is collected. *)
Definition setup_adx_filters (e : t) (floor_price : Q) (blacklist : list string)
    (required_size : Z * Z) (max_latency_ms : Z) : t :=
  let a := ADX.add_filter (adx e) (BlacklistFilter (list_to_set blacklist)) in
  let a := ADX.add_filter a (SizeMatchFilter required_size) in
  let a := ADX.add_filter a (LatencyTimeoutFilter max_latency_ms) in
  let a := ADX.add_filter a (CreativeMismatchFilter 0.1) in
  mk a (dsp e).

Definition setup_dsp (e : t) (base_price : Q) : t := mk (adx e) (Some base_price).

Definition lifecycle_multiplier (s : LifecycleStage) : Q :=
  match s with
  | NewUser => 0.5
  | Growing => 1.0
  | Mature => 1.5
  | ChurnRisk => 0.8
  | OtherStage => 1.0
  end.

(** Step 2: one bid per DSP, kept when it reaches the floor price. *)
Fixpoint collect_bids (e : t) (ad_request : AdRequest) (request_id : string)
    (floor_price : Q) (i num_dsps : nat) : Eff (list Bid) :=
  match num_dsps with
  | O => ret []
  | S rest =>
      let name := "DSP_" +:+ pretty (i + 1)%nat in
      let dsp_request := set_text "dsp_id" name ad_request in
      mine <- match dsp e with
              | Some base_price =>
                  dsp_request <- DSP.bid base_price dsp_request (ADX.skan_optimizer (adx e)) ;;
                  let bid_price := default 0 (req_num dsp_request !! "bid_price") in
                  let pctr := default 0.001 (req_num dsp_request !! "pctr") in
                  let pcvr := default 0.01 (req_num dsp_request !! "pcvr") in
                  ret (if Qle_bool floor_price bid_price
                       then [mkBid name (list_to_map [("bid_price", bid_price); ("pctr", pctr);
                                                      ("pcvr", pcvr); ("floor_price", floor_price)])]
                       else [])
              | None => ret []
              end ;;
      others <- collect_bids e ad_request request_id floor_price (S i) rest ;;
      ret (mine ++ others)
  end.

(** Steps 0 to 2 and the value estimates. *)
Definition collect (e : t) (up : Upstream) (request_id device_id app_id app_name platform : string)
    (ad_size : Z * Z) (num_dsps : nat) : Eff Collected :=
  ad_request <- SSP.generate_request request_id device_id app_id app_name platform ad_size ;;
  let ad_request := set_num "user_ltv" (user_ltv up) ad_request in
  let latency_ms := default 0 (req_num ad_request !! "latency_ms") in
  let floor_price := 0.1 in
  all_bids <- collect_bids e ad_request request_id floor_price 0 num_dsps ;;
  let organic_ltv_adjusted := organic_ltv up * lifecycle_multiplier (lifecycle_stage up) in
  ev_search <- InternalOpportunityManager.estimate_search_value device_id ad_request ;;
  ev_push <- InternalOpportunityManager.estimate_push_value device_id ad_request ;;
  let ad_request :=
    set_num "organic_ltv" organic_ltv_adjusted
      (set_num "ev_push" ev_push (set_num "ev_search" ev_search ad_request)) in
  log_decision "SEARCH_RECOMMENDATION" "FUNNEL_PROCESSING" "PASS" "FUNNEL_COMPLETED"
               [("organic_ltv", organic_ltv up); ("organic_ltv_adjusted", organic_ltv_adjusted);
                ("lifecycle_multiplier", lifecycle_multiplier (lifecycle_stage up))] None ;;;
  ret (mkCollected ad_request latency_ms all_bids organic_ltv_adjusted ev_search ev_push).

(** The eCPM the pipeline estimates for a collected bid, before clearing. *)
Definition estimated_ecpm (b : Bid) : Q :=
  get_num b "bid_price" 0 * get_num b "pctr" 0 * get_num b "pcvr" 0 * get_num b "q_factor" 1.0 * 1000.

Definition max_estimated_ecpm (bids : list Bid) : Q :=
  foldl (λ m b, py_max m (estimated_ecpm b)) 0.0 bids.

Definition rejected (rsn : string) (price : Q) : Result :=
  mkResult "REJECTED" rsn price None None None None None None None None None None.

(** Step 3: the request took longer than the threshold. *)
Definition latency_reject (c : Collected) : Eff Result :=
  let max_potential_ecpm := max_estimated_ecpm (collected_bids c) in
  let max_potential_ecpm :=
    if Qeq_bool max_potential_ecpm 0.0 then
      let estimate := 0.5 * 0.02 * 0.05 * 1.0 * 1000 in
      if Qeq_bool estimate 0.0 then 0.5 else estimate
    else max_potential_ecpm in
  let potential_loss := if Qeq_bool max_potential_ecpm 0.0 then 0.5 else max_potential_ecpm in
  log_decision "ADX" "LATENCY_CHECK" "REJECT" "LATENCY_TIMEOUT"
               [("latency_ms", latency_ms c); ("timeout_threshold", TIMEOUT_THRESHOLD);
                ("max_potential_ecpm", max_potential_ecpm); ("potential_loss", potential_loss);
                ("total_bids", inject_Z (Z.of_nat (length (collected_bids c))))]
               (Some max_potential_ecpm) ;;;
  ret (mkResult "REJECTED" "LATENCY_TIMEOUT" 0 None None None None None None None None
                (Some potential_loss) None).

(** [max(all_bids, key=lambda x: x['bid_price'])]: the first highest bid. *)
Definition highest_bid (first : Bid) (rest : list Bid) : Bid :=
  foldl (λ best b, if Qlt_bool (get_num best "bid_price" 0) (get_num b "bid_price" 0)
                   then b else best) first rest.

(** Step 6, first branch: the organic value is at least the ad value. *)
Definition serve_search (c : Collected) (max_ad_ecpm max_ad_value : Q) : Eff Result :=
  let cost := organic_ltv_adjusted c - max_ad_value in
  log_decision "DISTRIBUTION_HUB" "OPPORTUNITY_COST_CHECK" "REJECT" "ORGANIC_LTV_HIGHER"
               [("organic_ltv", organic_ltv_adjusted c); ("max_ad_ecpm", max_ad_ecpm);
                ("max_ad_value", max_ad_value); ("opportunity_cost", cost)] None ;;;
  let distribution_result := DistributionHub.distribute "search" in
  ret (mkResult "REJECTED" "ORGANIC_LTV_HIGHER" 0 (Some "search") None None None None
                (Some (organic_ltv_adjusted c)) (Some max_ad_value) (Some cost) None
                (Some distribution_result)).

(** Step 7: clear the auction and serve the winning ad. *)
Definition clear_and_serve (e : t) (c : Collected) : Eff Result :=
  auction_result <- ADX.run_auction (adx e) (collected_bids c) (Some (ad_request c)) ;;
  match auction_result with
  | Some a =>
      let ad_value := winner_ecpm a / 1000.0 in
      let cost := ad_value - organic_ltv_adjusted c in
      log_decision "DISTRIBUTION_HUB" "OPPORTUNITY_COST_CHECK" "PASS" "AD_ECPM_HIGHER"
                   [("organic_ltv", organic_ltv_adjusted c); ("ad_ecpm", winner_ecpm a);
                    ("ad_value", ad_value); ("opportunity_cost", cost)] None ;;;
      log_decision "ADX" "AUCTION_RESULT" "PASS" "AUCTION_WON"
                   [("winner_bid", winner_bid a); ("winner_ecpm", winner_ecpm a);
                    ("winner_pctr", winner_pctr a); ("winner_pcvr", winner_pcvr a);
                    ("second_best_bid", second_best_bid a);
                    ("second_highest_ecpm", second_highest_ecpm a);
                    ("actual_paid_price", actual_paid_price a);
                    ("saved_amount", saved_amount a);
                    ("original_ecpm", original_ecpm a);
                    ("winner_q_factor", get_num (winner a) "q_factor" 1.0);
                    ("organic_ltv", organic_ltv_adjusted c); ("opportunity_cost", cost)]
                   (Some (winner_ecpm a)) ;;;
      let distribution_result := DistributionHub.distribute "ads" in
      ret (mkResult "ACCEPTED" "AUCTION_WON" (winner_bid a) (Some "ads")
                    (Some (dsp_id (winner a))) (Some (winner_ecpm a))
                    (Some (actual_paid_price a)) (Some (saved_amount a))
                    (Some (organic_ltv_adjusted c)) None (Some cost) None
                    (Some distribution_result))
  | None => ret (rejected "AUCTION_FAILED" 0)
  end.

(** Steps 3 to 7. *)
Definition decide (e : t) (c : Collected) : Eff Result :=
  if Qlt_bool TIMEOUT_THRESHOLD (latency_ms c) then latency_reject c
  else
    match collected_bids c with
    | [] => ret (rejected "NO_VALID_BIDS" 0)
    | first :: rest =>
        let highest := highest_bid first rest in
        let test_request := set_num "bid_price" (get_num highest "bid_price" 0) (ad_request c) in
        res <- ADX.process_request (adx e) test_request ;;
        let '(passed, reason_code) := res in
        if negb passed then ret (rejected reason_code (get_num highest "bid_price" 0))
        else
          let max_ad_ecpm := max_estimated_ecpm (collected_bids c) in
          let max_ad_value := max_ad_ecpm / 1000.0 in
          if Qle_bool max_ad_value (organic_ltv_adjusted c) && Qlt_bool 0 max_ad_value
          then serve_search c max_ad_ecpm max_ad_value
          else clear_and_serve e c
    end.

(** [AdExchangeEngine.run_auction] *)
Definition run_auction (e : t) (up : Upstream)
    (request_id device_id app_id app_name platform : string) (ad_size : Z * Z)
    (num_dsps : nat) : Eff Result :=
  c <- collect e up request_id device_id app_id app_name platform ad_size num_dsps ;;
  decide e c.

End AdExchangeEngine.

(** ** From the tags and the funnel to the pipeline *)

(** The lifecycle stage the pipeline reads off the tags; a user without the
    entry counts as new, an unknown name as no stage of the table. *)
Definition stage_of_tags (user_tags : UserTags) : LifecycleStage :=
  let lifecycle_stage := default "新用户" (tag_lifecycle_stage user_tags) in
  if bool_decide (lifecycle_stage = "新用户") then NewUser
  else if bool_decide (lifecycle_stage = "成长期") then Growing
  else if bool_decide (lifecycle_stage = "成熟期") then Mature
  else if bool_decide (lifecycle_stage = "流失风险") then ChurnRisk
  else OtherStage.

(** Steps 0 and 1.5 of [AdExchangeEngine.run_auction]: the recalled content
    is ranked and re-ranked without ads, and the organic value is the summed
    lifetime value of the first five items. *)
Definition upstream_of (user_tags : UserTags) (recalled_content : list Content)
    : option Upstream :=
  let ranked_content := SearchRecommendationEngine.fine_rank recalled_content user_tags in
  re_ranked_content ← SearchRecommendationEngine.re_rank ranked_content None;
  let top_content := take 5 re_ranked_content in
  let organic_ltv :=
    sumQ (SearchRecommendationEngine.calculate_content_ltv <$> top_content) in
  Some (mkUpstream (stage_of_tags user_tags) (default 0 (tag_ltv user_tags)) organic_ltv).

(** * Vocabulary of the properties *)

(** ** Computations that always return

    [always c P]: from every world, [c] returns (it does not raise) and its
    answer satisfies [P]. *)

Definition always {A} (c : Eff A) (P : A → Prop) : Prop :=
  ∀ w, ∃ a w', c w = Returns a w' ∧ P a.

(** ** Rated bids *)

(** The bid as one turn of the rating loop leaves it, for quality factor [q]. *)
Definition rated (bid : Bid) (q : Q) : Bid :=
  let bid_price := get_num bid "bid_price" 0 in
  let pctr := get_num bid "pctr" 0.001 in
  let pcvr := get_num bid "pcvr" 0.01 in
  mkBid (dsp_id bid)
    (<["pcvr" := pcvr]> (<["pctr" := pctr]> (<["q_factor" := q]>
       (<["original_ecpm" := bid_price * pctr * pcvr * 1000]>
          (<["ecpm" := bid_price * pctr * pcvr * q * 1000]> (num bid)))))).

(** The quality factor a rated bid may carry: its own when it had one,
    otherwise a factor in [0, 1] (the scorer's, or the default 1). *)
Definition factor_of (bid : Bid) (q : Q) : Prop :=
  num bid !! "q_factor" = Some q ∨ (num bid !! "q_factor" = None ∧ 0 <= q ∧ q <= 1).

Definition rating_of (bid bid' : Bid) : Prop := ∃ q, bid' = rated bid q ∧ factor_of bid q.

(** The eCPM stored on a bid is the product of the price, the two rates and
    the quality factor stored on that bid, times 1000. *)
Definition ecpm_exact (b : Bid) : Prop :=
  ∃ pctr pcvr q,
    num b !! "pctr" = Some pctr ∧ num b !! "pcvr" = Some pcvr ∧
    num b !! "q_factor" = Some q ∧
    num b !! "ecpm" = Some (get_num b "bid_price" 0 * pctr * pcvr * q * 1000).

(** A bid within the data model: a non-negative price, non-negative click
    and conversion rates, and a non-negative quality factor when it has one. *)
Definition well_formed (b : Bid) : Prop :=
  0 <= get_num b "bid_price" 0 ∧ 0 <= get_num b "pctr" 0.001 ∧
  0 <= get_num b "pcvr" 0.01 ∧ 0 <= get_num b "q_factor" 1.0.

(** The divisor of the second-price formula for a bid that wins,
    [1000 * winner_pctr * winner_pcvr]. *)
Definition price_divisor (b : Bid) : Q :=
  1000 * get_num b "pctr" 0.001 * get_num b "pcvr" 0.01.

(** ** Admission and routing *)

(** An admitted request: within the latency threshold, with at least one
    collected bid, and passed by the filter chain, which leaves world [w1]. *)
Definition admitted (e : AdExchangeEngine.t) (c : Collected) (w w1 : World) : Prop :=
  Qlt_bool AdExchangeEngine.TIMEOUT_THRESHOLD (latency_ms c) = false ∧
  ∃ first rest rc,
    collected_bids c = first :: rest ∧
    ADX.process_request (AdExchangeEngine.adx e)
      (set_num "bid_price" (get_num (AdExchangeEngine.highest_bid first rest) "bid_price" 0)
               (ad_request c)) w
    = Returns (true, rc) w1.

(** The ad value the opportunity-cost check compares: the highest estimated
    eCPM over the collected bids, per impression. *)
Definition max_ad_value (c : Collected) : Q :=
  AdExchangeEngine.max_estimated_ecpm (collected_bids c) / 1000.0.

(** The action name under which a filter logs its check. *)
Definition check_action (f : FilterRule) : string :=
  match f with
  | FloorPriceFilter _ => "FLOOR_PRICE_CHECK"
  | BlacklistFilter _ => "BLACKLIST_CHECK"
  | SizeMatchFilter _ => "SIZE_MATCH_CHECK"
  | LatencyTimeoutFilter _ => "LATENCY_CHECK"
  | CreativeMismatchFilter _ => "CREATIVE_COMPLIANCE_CHECK"
  | FloorPriceHighFilter _ => "FLOOR_PRICE_HIGH_CHECK"
  end.

(** Filters that log every check, passed or rejected. *)
Definition logs_every_check (f : FilterRule) : Prop :=
  match f with FloorPriceHighFilter _ => False | _ => True end.

(** [chain_run filters records result]: the records are those of the filters
    taken in order, one each, all passing up to the first rejection, where
    the records stop; the result is that rejection's reason code, or a pass
    when no filter rejects. *)
Inductive chain_run : list FilterRule → list WhiteboxTrace → bool * string → Prop :=
| chain_all_passed : chain_run [] [] (true, "ALL_FILTERS_PASSED")
| chain_pass f fs p recs res :
    action p = check_action f → decision p = "PASS" →
    chain_run fs recs res → chain_run (f :: fs) (p :: recs) res
| chain_reject f fs p :
    action p = check_action f → decision p = "REJECT" →
    chain_run (f :: fs) [p] (false, reason_code p).

(** ** Sample inputs *)

(** A world whose oracles answer zero, with empty histories. *)
Definition quiet_world : World :=
  mkWorld (λ _, 0%Z) (λ _, 0) (λ _, 0) 0 [] ∅ ∅ ∅ ∅.

(** An exchange with no filters and no scorer. *)
Definition plain_adx : ADX.t := ADX.mk [] None true.

Definition sample_bid (name : string) (price pctr pcvr floor_price : Q) : Bid :=
  mkBid name (list_to_map [("bid_price", price); ("pctr", pctr); ("pcvr", pcvr);
                           ("floor_price", floor_price)]).

Definition bid_a : Bid := sample_bid "DSP_1" 0.5 0.02 0.05 0.1.
Definition bid_b : Bid := sample_bid "DSP_2" 0.3 0.04 0.05 0.1.
Definition bid_low : Bid := sample_bid "DSP_1" 0.05 0.02 0.05 0.1.

(** A world that has the estimator's initial distribution. *)
Definition skan_world : World :=
  set_distribution SKANOptimizer.initialize_conversion_distribution quiet_world.

Definition ios_request : AdRequest :=
  mkRequest (list_to_map [("device_id", "device_001"); ("app_id", "app_001");
                          ("platform", "iOS")]) ∅ (Some (320, 50)%Z).

(** An engine as [main] configures it. *)
Definition sample_engine : AdExchangeEngine.t :=
  AdExchangeEngine.setup_dsp
    (AdExchangeEngine.setup_adx_filters
       (AdExchangeEngine.mk (ADX.mk [] (Some 0.15) true) None)
       0.1 ["device_blacklist_001"; "app_blacklist_001"] (320, 50)%Z 100)
    0.5.

(** A world whose random floats are all 0.5 and whose other oracles answer 0. *)
Definition steady_world : World :=
  mkWorld (λ _, 0%Z) (λ _, 0.5) (λ _, 0) 0 [] ∅ ∅ ∅ ∅.

Definition android_request : AdRequest :=
  mkRequest (list_to_map [("device_id", "device_002"); ("app_id", "app_002");
                          ("platform", "Android")])
            (list_to_map [("latency_ms", 50)]) (Some (320, 50)%Z).

(** One collected bid of estimated eCPM 0.5, that is 0.0005 per impression,
    against an organic value of the same amount. *)
Definition tied_collection : Collected :=
  mkCollected android_request 50 [bid_a] 0.0005 1 1.

(** A request whose highest bid lies below the floor price 0.1. *)
Definition below_floor_request : AdRequest := set_num "bid_price" 0.05 android_request.

(** Upstream values: a new user with no organic value, and a mature user
    whose organic value is large. *)
Definition no_organic_value : Upstream := mkUpstream NewUser 5 0.
Definition high_organic_value : Upstream := mkUpstream Mature 50 10.

(** A world like [steady_world] whose fourth oracle answer, the conversion
    rate of the first bidder on a non-iOS request, is zero. *)
Definition no_conversion_world : World :=
  mkWorld (λ _, 0%Z) (λ n, if (n =? 3)%nat then 0 else 0.5) (λ _, 0) 0 [] ∅ ∅ ∅ ∅.

(** ** ASCII strings *)

(** [str.isascii]: every character of the string is below 128.  On such a
    string [upper] and [lower] are [str.upper] and [str.lower]. *)
Fixpoint isascii (s : string) : bool :=
  match s with
  | EmptyString => true
  | String c s' => (N_of_ascii c <? 128)%N && isascii s'
  end.

(** ** Rankings, rejection codes, bidder names *)

(** The buckets of a conversion distribution are SKAN conversion values. *)
Definition buckets_in_range (d : gmap Z Q) : Prop :=
  map_Forall (λ k _, (0 <= k <= 63)%Z) d.

Definition ecpm_of (b : Bid) : Q := get_num b "ecpm" 0.

(** Non-increasing eCPM along a list. *)
Definition descending (bids : list Bid) : Prop :=
  Sorted (λ x y, ecpm_of y <= ecpm_of x) bids.

(** The reason code with which a filter rejects. *)
Definition rejection_code (f : FilterRule) : string :=
  match f with
  | FloorPriceFilter _ => "BID_BELOW_FLOOR"
  | BlacklistFilter _ => "IN_BLACKLIST"
  | SizeMatchFilter _ => "SIZE_MISMATCH"
  | LatencyTimeoutFilter _ => "LATENCY_TIMEOUT"
  | CreativeMismatchFilter _ => "CREATIVE_MISMATCH"
  | FloorPriceHighFilter _ => "FLOOR_PRICE_HIGH"
  end.

(** The name under which the k-th DSP bids. *)
Definition dsp_name (k : nat) : string := "DSP_" +:+ pretty k.

(** ** What a computation leaves alone *)

(** [frame w w']: from [w] to [w'] the log has only grown, and the
    conversion distribution and the touch histories are the same. *)
Definition frame (w w' : World) : Prop :=
  log_file w `prefix_of` log_file w' ∧
  historical_conversion_distribution w' = historical_conversion_distribution w ∧
  user_touch_history w' = user_touch_history w.

(** [keeps c]: whether [c] returns or raises, it respects the frame. *)
Definition keeps {A} (c : Eff A) : Prop :=
  ∀ w, match c w with Returns _ w' | Raises _ w' => frame w w' end.

(** ** Further sample inputs *)

(** A world in which every latency is too long: the filter's draw is 150 ms
    and the SSP's is 120 ms. *)
Definition slow_world : World :=
  mkWorld (λ _, 150%Z) (λ _, 120) (λ _, 0) 0 [] ∅ ∅ ∅ ∅.

(** The engine before its filters and its DSP are set up. *)
Definition bare_engine : AdExchangeEngine.t :=
  AdExchangeEngine.mk (ADX.mk [] (Some 0.15) true) None.

(** ** Content, scores and authors *)

(** The ranking score of an item; 0 stands for a missing score. *)
Definition score_of (c : Content) : Q := SearchRecommendationEngine.key_of "ranking_score" c.

(** The base rates of an item, where it has them, are probabilities. *)
Definition rates_in_unit (c : Content) : Prop :=
  ∀ k v, k ∈ ["base_ctr"; "base_like_rate"; "base_finish_rate"; "base_comment_rate"]%string →
         content_num c !! k = Some v → 0 <= v ∧ v <= 1.

(** The id of an item, when it has one. *)
Definition content_id_of (c : Content) : option string := content_text c !! "content_id".

(** The author under which re-ranking files an item. *)
Definition author_of (c : Content) : string := default "" (content_text c !! "author_id").

(** The items of a list that name [a] as their author. *)
Definition by_author (a : string) (l : list Content) : list Content :=
  filter (λ c, content_text c !! "author_id" = Some a) l.

(** No four consecutive items hold more than two items of one author. *)
Definition spread (l : list Content) : Prop :=
  ∀ a i, (length (by_author a (take 4 (drop i l))) ≤ 2)%nat.

(** What the loop of [re_rank] maintains, for the items [done] it has gone
    through: the output is spread; the authors seen are those of the output
    and include those of every item gone through; the output lists, in
    order, items gone through; and an item of the output is raised exactly
    when its author is not among the items before it. *)
Definition re_rank_inv (done : list Content) (st : SearchRecommendationEngine.ReRank)
    : Prop :=
  let out := SearchRecommendationEngine.re_ranked st in
  let seen := SearchRecommendationEngine.seen_authors st in
  spread out ∧
  (∀ a, a ∈ seen ↔ a ∈ author_of <$> out) ∧
  (∀ a, a ∈ author_of <$> done → a ∈ seen) ∧
  content_text <$> out `sublist_of` content_text <$> done ∧
  (∀ i c', out !! i = Some c' →
           (author_of c' ∈ author_of <$> take i out → c' ∈ done) ∧
           (author_of c' ∉ author_of <$> take i out →
            ∃ c, c ∈ done ∧ SearchRecommendationEngine.boost c = Some c')).

(** ** Sample content *)

(** A content item with an id, an author, a base click rate and a lifetime
    value. *)
Definition sample_content (id author : string) (ctr ltv : Q) : Content :=
  mkContent (list_to_map [("content_id", id); ("author_id", author)])
            (list_to_map [("base_ctr", ctr); ("ltv_contribution", ltv)]) false.

(** Three items of one author, then one of another, by falling click rate. *)
Definition sample_pool : list Content :=
  [sample_content "content_0" "author_0" 0.05 1; sample_content "content_1" "author_0" 0.04 2;
   sample_content "content_2" "author_0" 0.03 3; sample_content "content_3" "author_1" 0.02 4].

Definition sample_tags : UserTags :=
  TrafficSource.generate_user_tags 100 TrafficSource.BILIBILI.

(** * Properties *)

(** ** Arithmetic helpers *)

Lemma Qle_bool_false (a b : Q) : Qle_bool a b = false → b < a.
Proof.
  intros H. apply Qnot_le_lt. intros Hle.
  apply Qle_bool_iff in Hle. congruence.
Qed.

Lemma py_min_le_r (a b : Q) : py_min a b <= b.
Proof.
  unfold py_min. destruct (Qle_bool a b) eqn:E.
  - by apply Qle_bool_iff.
  - apply Qle_refl.
Qed.

Lemma py_min_le_l (a b : Q) : py_min a b <= a.
Proof.
  unfold py_min. destruct (Qle_bool a b) eqn:E.
  - apply Qle_refl.
  - apply Qlt_le_weak. by apply Qle_bool_false.
Qed.

Lemma py_min_glb (a b c : Q) : c <= a → c <= b → c <= py_min a b.
Proof. intros. unfold py_min. by destruct (Qle_bool a b). Qed.

Lemma py_max_ge_l (a b : Q) : a <= py_max a b.
Proof.
  unfold py_max. destruct (Qle_bool b a) eqn:E.
  - apply Qle_refl.
  - apply Qlt_le_weak. by apply Qle_bool_false.
Qed.

Lemma py_max_lub (a b c : Q) : a <= c → b <= c → py_max a b <= c.
Proof. intros. unfold py_max. by destruct (Qle_bool b a). Qed.

Lemma py_max_nonneg_diff (a b : Q) : b <= a → py_max 0.0 (a - b) = a - b ∨ a - b == 0.
Proof.
  intros H. unfold py_max. destruct (Qle_bool (a - b) 0.0) eqn:E.
  - right. apply Qle_bool_iff in E. lra.
  - by left.
Qed.

Lemma clamp_bounds (x : Q) : 0 <= py_max 0.0 (py_min 1.0 x) ∧ py_max 0.0 (py_min 1.0 x) <= 1.
Proof.
  split.
  - pose proof (py_max_ge_l 0.0 (py_min 1.0 x)). lra.
  - apply py_max_lub; [lra|]. pose proof (py_min_le_l 1.0 x). lra.
Qed.

(** ** Computations that always return *)

Lemma always_ret {A} (a : A) (P : A → Prop) : P a → always (ret a) P.
Proof. intros H w. by exists a, w. Qed.

Lemma always_bind {A B} (c : Eff A) (k : A → Eff B) (Q : A → Prop) (P : B → Prop) :
  always c Q → (∀ a, Q a → always (k a) P) → always (bind c k) P.
Proof.
  intros Hc Hk w. destruct (Hc w) as (a & w1 & E & Ha).
  destruct (Hk a Ha w1) as (b & w2 & E2 & Hb).
  exists b, w2. unfold bind. by rewrite E.
Qed.

Lemma always_prim {A} (c : Eff A) :
  (∀ w, ∃ a w', c w = Returns a w') → always c (λ _, True).
Proof. intros H w. destruct (H w) as (a & w' & E). by exists a, w'. Qed.

Lemma always_randint : always randint (λ _, True).
Proof. apply always_prim. intros w. by eexists _, _. Qed.
Lemma always_random : always random (λ _, True).
Proof. apply always_prim. intros w. by eexists _, _. Qed.
Lemma always_now : always now (λ _, True).
Proof. apply always_prim. intros w. by eexists _, _. Qed.
Lemma always_get_world : always get_world (λ _, True).
Proof. apply always_prim. intros w. by eexists _, _. Qed.
Lemma always_modify (f : World → World) : always (modify f) (λ _, True).
Proof. apply always_prim. intros w. by eexists _, _. Qed.
Lemma always_log nd act dec rc vars e :
  always (log_decision nd act dec rc vars e) (λ _, True).
Proof. apply always_prim. intros w. by eexists _, _. Qed.

(** A closed run is settled by evaluating it. *)
Lemma outcome_cases {A} (o : Outcome A) (P : A → World → Prop) :
  match o with Returns a w => P a w | Raises _ _ => False end →
  ∃ a w, o = Returns a w ∧ P a w.
Proof. destruct o as [a w|]; [|done]. intros H. by exists a, w. Qed.

Lemma returns_some {A} (o : Outcome (option A)) (P : A → Prop) :
  match o with Returns (Some a) _ => P a | _ => False end →
  ∃ a w, o = Returns (Some a) w ∧ P a.
Proof. destruct o as [[a|] w|]; try done. intros H. by exists a, w. Qed.

Ltac step :=
  first
    [ eapply always_bind;
      [ first [ apply always_randint | apply always_random | apply always_now
              | apply always_get_world | apply always_modify | apply always_log ]
      | intros ? _ ]
    | match goal with
      | |- always ?c _ =>
          match c with
          | context [let '(_, _) := ?p in _] => destruct p
          end
      end ].

(** The scorer never raises, and its factor lies in [0, 1]. *)
Lemma score_returns (fraud_rate : Q) (r : AdRequest) :
  always (QualityScorer.score fraud_rate r) (λ res, 0 <= res.1 ∧ res.1 <= 1).
Proof.
  unfold QualityScorer.score.
  cbv zeta.
  repeat step.
  eapply always_bind with (Q := λ _, True).
  - match goal with |- always (if ?c then _ else _) _ => destruct c end.
    + repeat step. by apply always_ret.
    + by apply always_ret.
  - intros [fs q'] _. repeat step. apply always_ret. apply clamp_bounds.
Qed.

(** ** The ranking is a stable rearrangement *)

Lemma insert_desc_perm (x : Bid) (l : list Bid) : insert_desc x l ≡ₚ x :: l.
Proof.
  induction l as [|y l IH]; simpl; [done|].
  destruct (Qlt_bool _ _); [|done].
  rewrite IH. apply Permutation_swap.
Qed.

Lemma sorted_by_ecpm_perm (bids : list Bid) : sorted_by_ecpm bids ≡ₚ bids.
Proof.
  induction bids as [|b bids IH]; simpl; [done|].
  rewrite insert_desc_perm. by rewrite IH.
Qed.

Lemma sorted_by_ecpm_length (bids : list Bid) : length (sorted_by_ecpm bids) = length bids.
Proof. by rewrite sorted_by_ecpm_perm. Qed.

Lemma sorted_by_ecpm_Forall (P : Bid → Prop) (bids : list Bid) :
  Forall P bids → Forall P (sorted_by_ecpm bids).
Proof. by rewrite sorted_by_ecpm_perm. Qed.

Lemma sorted_by_ecpm_singleton (b : Bid) : sorted_by_ecpm [b] = [b].
Proof. reflexivity. Qed.

(** ** The rating loop *)

Lemma rate_bid_spec (adx : ADX.t) (req : option AdRequest) (bid : Bid) :
  always (ADX.rate_bid adx req bid) (rating_of bid).
Proof.
  unfold ADX.rate_bid. cbv zeta.
  eapply always_bind with (Q := factor_of bid).
  - destruct (ADX.quality_scorer adx) as [fraud_rate|], (ADX.truthy req) as [r|];
      try (apply always_ret; unfold factor_of, get_num;
           destruct (num bid !! "q_factor"); simpl; [by left | right; split; [done|lra]]).
    destruct (num bid !! "q_factor") as [q|] eqn:E.
    + apply always_ret. by left.
    + eapply always_bind; [apply score_returns|].
      intros [q fs] [H0 H1]. apply always_ret. right. simpl in *. done.
  - intros q Hq. apply always_ret. by exists q.
Qed.

Lemma rate_bids_spec (adx : ADX.t) (req : option AdRequest) (bids : list Bid) :
  always (ADX.rate_bids adx req bids) (Forall2 rating_of bids).
Proof.
  induction bids as [|b bids IH]; simpl.
  - by apply always_ret.
  - eapply always_bind; [apply rate_bid_spec|]. intros b' Hb.
    eapply always_bind; [apply IH|]. intros bids' Hbs.
    apply always_ret. by constructor.
Qed.

Lemma rated_ecpm_exact (bid : Bid) (q : Q) : ecpm_exact (rated bid q).
Proof.
  exists (get_num bid "pctr" 0.001), (get_num bid "pcvr" 0.01), q.
  unfold rated, get_num; simpl. by simplify_map_eq.
Qed.

Lemma rating_of_ecpm_exact (bids bids' : list Bid) :
  Forall2 rating_of bids bids' → Forall ecpm_exact bids'.
Proof.
  induction 1 as [|b b' bids bids' (q & -> & _) _ IH]; constructor; [|done].
  apply rated_ecpm_exact.
Qed.

(** A non-empty auction rates every bid and then settles the ranking. *)
Lemma run_auction_settles (adx : ADX.t) (b : Bid) (bs : list Bid)
    (req : option AdRequest) (w : World) :
  ∃ bids' w', ADX.rate_bids adx req (b :: bs) w = Returns bids' w' ∧
              Forall2 rating_of (b :: bs) bids' ∧
              ADX.run_auction adx (b :: bs) req w = ADX.settle (sorted_by_ecpm bids') w'.
Proof.
  destruct (rate_bids_spec adx req (b :: bs) w) as (bids' & w' & E & H).
  exists bids', w'. split; [done|]. split; [done|].
  unfold ADX.run_auction, bind. by rewrite E.
Qed.

(** ** Settling a ranking *)

Lemma settle_single (b : Bid) (w : World) :
  let floor_price := get_num b "floor_price" 0.1 in
  let actual := py_min floor_price (get_num b "bid_price" 0) in
  ADX.settle [b] w =
    Returns (Some (mkAuction b (get_num b "bid_price" 0) (get_num b "ecpm" 0)
                     (get_num b "pctr" 0.001) (get_num b "pcvr" 0.01)
                     floor_price 0 actual
                     (py_max 0.0 (get_num b "bid_price" 0 - actual)) [b]
                     (get_num b "original_ecpm" (get_num b "ecpm" 0)) false)) w.
Proof. reflexivity. Qed.

Lemma settle_competition (b second : Bid) (rest : list Bid) (w : World) :
  let divisor := 1000 * get_num b "pctr" 0.001 * get_num b "pcvr" 0.01 in
  let actual := py_min ((get_num second "ecpm" 0 + 0.01) / divisor) (get_num b "bid_price" 0) in
  ADX.settle (b :: second :: rest) w =
    if Qeq_bool divisor 0 then Raises ZeroDivisionError w
    else Returns (Some (mkAuction b (get_num b "bid_price" 0) (get_num b "ecpm" 0)
                     (get_num b "pctr" 0.001) (get_num b "pcvr" 0.01)
                     (get_num second "bid_price" 0) (get_num second "ecpm" 0) actual
                     (py_max 0.0 (get_num b "bid_price" 0 - actual)) (b :: second :: rest)
                     (get_num b "original_ecpm" (get_num b "ecpm" 0)) true)) w.
Proof.
  cbv zeta. unfold ADX.settle, bind, py_div.
  destruct (Qeq_bool _ 0); reflexivity.
Qed.

(** Whatever a settlement returns: the winner heads the ranking, the price
    paid is capped by the winner's bid, the saving is the difference. *)
Lemma settle_returns (sorted_bids : list Bid) (a : AuctionResult) (w w' : World) :
  ADX.settle sorted_bids w = Returns (Some a) w' →
  ∃ others,
    sorted_bids = winner a :: others ∧ w' = w ∧ all_bids a = sorted_bids ∧
    winner_bid a = get_num (winner a) "bid_price" 0 ∧
    winner_ecpm a = get_num (winner a) "ecpm" 0 ∧
    has_competition a = (1 <? length sorted_bids)%nat ∧
    saved_amount a = py_max 0.0 (winner_bid a - actual_paid_price a) ∧
    match others with
    | [] => actual_paid_price a = py_min (get_num (winner a) "floor_price" 0.1) (winner_bid a)
    | second :: _ =>
        let divisor := 1000 * get_num (winner a) "pctr" 0.001 * get_num (winner a) "pcvr" 0.01 in
        ¬ divisor == 0 ∧
        second_highest_ecpm a = get_num second "ecpm" 0 ∧
        actual_paid_price a = py_min ((get_num second "ecpm" 0 + 0.01) / divisor) (winner_bid a)
    end.
Proof.
  destruct sorted_bids as [|b [|second rest]].
  - discriminate.
  - rewrite settle_single. cbv zeta. intros [= <- <-]. by exists [].
  - rewrite settle_competition. cbv zeta.
    destruct (Qeq_bool _ 0) eqn:E; [discriminate|]. intros [= <- <-].
    exists (second :: rest). simpl. repeat split; try done.
    intros H. apply Qeq_bool_iff in H. congruence.
Qed.

Lemma settle_never_none (b : Bid) (bs : list Bid) (w w' : World) :
  ADX.settle (b :: bs) w ≠ Returns None w'.
Proof.
  destruct bs as [|second rest].
  - by rewrite settle_single.
  - rewrite settle_competition. cbv zeta. by destruct (Qeq_bool _ 0).
Qed.

(** Rated bids keep their price and floor and carry their rates. *)
Lemma rated_fields (bid : Bid) (q : Q) :
  get_num (rated bid q) "bid_price" 0 = get_num bid "bid_price" 0 ∧
  get_num (rated bid q) "floor_price" 0.1 = get_num bid "floor_price" 0.1 ∧
  get_num (rated bid q) "pctr" 0.001 = get_num bid "pctr" 0.001 ∧
  get_num (rated bid q) "pcvr" 0.01 = get_num bid "pcvr" 0.01 ∧
  get_num (rated bid q) "ecpm" 0 =
    get_num bid "bid_price" 0 * get_num bid "pctr" 0.001 * get_num bid "pcvr" 0.01 * q * 1000.
Proof. unfold rated, get_num; simpl. by simplify_map_eq. Qed.

Lemma rating_of_nonempty (b : Bid) (bs bids' : list Bid) :
  Forall2 rating_of (b :: bs) bids' → sorted_by_ecpm bids' ≠ [].
Proof.
  intros H Hs. apply Forall2_length in H.
  pose proof (sorted_by_ecpm_length bids') as Hl. rewrite Hs in Hl.
  simpl in *. lia.
Qed.

(** ** Auction clearing: the stored eCPM *)

(** C1. Every bid that [ADX.run_auction] processes carries, after the rating
    loop, an eCPM that is exactly price × pCTR × pCVR × q_factor × 1000 over
    the values stored on that bid; the loop never fails; and whenever the
    auction returns a result, every bid it lists and its winner satisfy the
    formula, the listed bids are the rated input bids, and the reported
    winner eCPM is the one stored on the winner. *)
Theorem run_auction_ecpm_exact (adx : ADX.t) (bids : list Bid)
    (req : option AdRequest) (w : World) :
  (∃ bids' w', ADX.rate_bids adx req bids w = Returns bids' w' ∧
               length bids' = length bids ∧ Forall ecpm_exact bids') ∧
  (∀ a w', ADX.run_auction adx bids req w = Returns (Some a) w' →
           (∃ bids', Forall2 rating_of bids bids' ∧ all_bids a ≡ₚ bids') ∧
           Forall ecpm_exact (all_bids a) ∧
           ecpm_exact (winner a) ∧
           num (winner a) !! "ecpm" = Some (winner_ecpm a)).
Proof.
  split.
  - destruct (rate_bids_spec adx req bids w) as (bids' & w' & E & H).
    exists bids', w'. split; [done|]. split.
    + symmetry. by eapply Forall2_length.
    + by eapply rating_of_ecpm_exact.
  - intros a w' Hrun. destruct bids as [|b bs]; [discriminate|].
    destruct (run_auction_settles adx b bs req w) as (bids' & w1 & _ & Hrated & Heq).
    rewrite Heq in Hrun. apply settle_returns in Hrun.
    destruct Hrun as (others & Hsorted & _ & Hall & _ & Hecpm & _).
    assert (Forall ecpm_exact (all_bids a)) as Hex.
    { rewrite Hall. apply sorted_by_ecpm_Forall. by eapply rating_of_ecpm_exact. }
    assert (ecpm_exact (winner a)) as Hwin.
    { rewrite Hall, Hsorted in Hex. by inversion Hex. }
    split; [|split; [done|split; [done|]]].
    + exists bids'. split; [done|]. rewrite Hall. apply sorted_by_ecpm_perm.
    + destruct Hwin as (pctr & pcvr & q & _ & _ & _ & He).
      rewrite Hecpm. unfold get_num. by rewrite He.
Qed.

Lemma run_auction_ecpm_exact_witness :
  ∃ a w', ADX.run_auction plain_adx [bid_a; bid_b] None quiet_world = Returns (Some a) w' ∧
          Forall ecpm_exact (all_bids a).
Proof.
  destruct (returns_some (ADX.run_auction plain_adx [bid_a; bid_b] None quiet_world)
              (λ _, True)) as (a & w' & Hrun & _).
  - vm_compute. exact I.
  - exists a, w'. split; [exact Hrun|].
    by apply (proj2 (run_auction_ecpm_exact plain_adx [bid_a; bid_b] None quiet_world) a w').
Defined.

(** ** Auction clearing: a lone bid *)

(** C2, at a bid below its floor: the lone bid of 0.05 with floor price 0.1
    is cleared at 0.05, not at the floor price. *)
Lemma lone_bid_below_floor :
  ∃ a w', ADX.run_auction plain_adx [bid_low] None quiet_world = Returns (Some a) w' ∧
          get_num bid_low "floor_price" 0.1 == 0.1 ∧
          actual_paid_price a == 0.05 ∧
          ¬ (actual_paid_price a == get_num bid_low "floor_price" 0.1 ∧ saved_amount a == 0).
Proof.
  apply (returns_some _ (λ a, get_num bid_low "floor_price" 0.1 == 0.1 ∧
                              actual_paid_price a == 0.05 ∧
                              ¬ (actual_paid_price a == get_num bid_low "floor_price" 0.1 ∧
                                 saved_amount a == 0))).
  vm_compute. split; [reflexivity|]. split; [reflexivity|]. intros [H _]. discriminate.
Qed.

(** C2, amended. With exactly one bid the auction returns a result without
    competition whose cleared price is the smaller of the bid's floor price
    (0.1 when the bid names none) and its price; it is the floor price
    whenever the price reaches the floor. *)
Theorem lone_bid_cleared_at_floor (adx : ADX.t) (b : Bid)
    (req : option AdRequest) (w : World) :
  ∃ a w', ADX.run_auction adx [b] req w = Returns (Some a) w' ∧
          has_competition a = false ∧
          winner_bid a = get_num b "bid_price" 0 ∧
          actual_paid_price a = py_min (get_num b "floor_price" 0.1) (get_num b "bid_price" 0) ∧
          (get_num b "floor_price" 0.1 <= get_num b "bid_price" 0 →
           actual_paid_price a = get_num b "floor_price" 0.1).
Proof.
  destruct (run_auction_settles adx b [] req w) as (bids' & w1 & _ & Hrated & Heq).
  inversion Hrated as [|? b' ? ? (q & -> & _) Hnil]; subst. inversion Hnil; subst.
  rewrite sorted_by_ecpm_singleton, settle_single in Heq. cbv zeta in Heq.
  destruct (rated_fields b q) as (Hp & Hf & _).
  eexists _, w1. split; [exact Heq|]. simpl. rewrite Hp, Hf.
  repeat split. intros Hle. unfold py_min.
  apply Qle_bool_iff in Hle. by rewrite Hle.
Qed.

Lemma lone_bid_cleared_at_floor_witness :
  ∃ a w', ADX.run_auction plain_adx [bid_a] None quiet_world = Returns (Some a) w' ∧
          actual_paid_price a = 0.1.
Proof.
  destruct (lone_bid_cleared_at_floor plain_adx bid_a None quiet_world)
    as (a & w' & Hrun & _ & _ & _ & Hfloor).
  exists a, w'. split; [exact Hrun|].
  apply Hfloor. vm_compute. discriminate.
Defined.

(** ** Auction clearing: the saving *)

(** What the code does keep: the saving is the winner's bid less the price
    paid, and is never negative. *)
Lemma saved_amount_is_difference (adx : ADX.t) (bids : list Bid)
    (req : option AdRequest) (w w' : World) (a : AuctionResult) :
  ADX.run_auction adx bids req w = Returns (Some a) w' →
  saved_amount a == winner_bid a - actual_paid_price a ∧ 0 <= saved_amount a ∧
  actual_paid_price a <= winner_bid a.
Proof.
  intros Hrun. destruct bids as [|b bs]; [discriminate|].
  destruct (run_auction_settles adx b bs req w) as (bids' & w1 & _ & _ & Heq).
  rewrite Heq in Hrun. apply settle_returns in Hrun.
  destruct Hrun as (others & _ & _ & _ & _ & _ & _ & Hsaved & Hpaid).
  assert (actual_paid_price a <= winner_bid a) as Hle.
  { destruct others as [|second rest]; [|destruct Hpaid as (_ & _ & Hpaid)];
      rewrite Hpaid; apply py_min_le_r. }
  rewrite Hsaved. split; [|split; [|done]].
  - destruct (py_max_nonneg_diff _ _ Hle) as [-> | H0]; [reflexivity|].
    unfold py_max. destruct (Qle_bool _ 0.0); [lra|reflexivity].
  - pose proof (py_max_ge_l 0.0 (winner_bid a - actual_paid_price a)). lra.
Qed.

(** C3, at two equal bids: there is competition, the second price
    (0.5 + 0.01) / (1000 × 0.02 × 0.05) = 0.51 exceeds the winning bid 0.5,
    the price paid is capped at 0.5 and the saving is zero. *)
Theorem saved_amount_zero_with_competition :
  ∃ a w', ADX.run_auction plain_adx [bid_a; bid_a] None quiet_world = Returns (Some a) w' ∧
          has_competition a = true ∧ length (all_bids a) = 2%nat ∧
          winner_bid a == 0.5 ∧ actual_paid_price a == 0.5 ∧ saved_amount a == 0 ∧
          ¬ 0 < saved_amount a.
Proof.
  apply (returns_some _ (λ a, has_competition a = true ∧ length (all_bids a) = 2%nat ∧
                              winner_bid a == 0.5 ∧ actual_paid_price a == 0.5 ∧
                              saved_amount a == 0 ∧ ¬ 0 < saved_amount a)).
  vm_compute. repeat split; try reflexivity. intros H. discriminate.
Qed.

(** ** Auction clearing: bounds on the price paid *)

Lemma rated_well_formed (b b' : Bid) :
  well_formed b → rating_of b b' →
  0 <= get_num b' "bid_price" 0 ∧ 0 <= get_num b' "pctr" 0.001 ∧
  0 <= get_num b' "pcvr" 0.01 ∧ 0 <= get_num b' "ecpm" 0.
Proof.
  intros (Hp & Hc & Hv & Hq) (q & -> & Hf).
  destruct (rated_fields b q) as (-> & _ & -> & -> & ->).
  assert (0 <= q) as Hq0.
  { destruct Hf as [Hf | (_ & Hf & _)]; [|done].
    unfold get_num in Hq. by rewrite Hf in Hq. }
  repeat split; try done.
  repeat apply Qmult_le_0_compat; try done.
Qed.

Lemma rated_price_divisor (b b' : Bid) :
  rating_of b b' → price_divisor b' = price_divisor b.
Proof.
  intros (q & -> & _). unfold price_divisor.
  by destruct (rated_fields b q) as (_ & _ & -> & -> & _).
Qed.

Lemma rated_divisor_nonzero (b b' : Bid) :
  ¬ price_divisor b == 0 → rating_of b b' → ¬ price_divisor b' == 0.
Proof. intros H Hr. by rewrite (rated_price_divisor b b' Hr). Qed.


Lemma Forall2_Forall_transfer {A} (R : A → A → Prop) (P P' : A → Prop) (l l' : list A) :
  (∀ x y, P x → R x y → P' y) → Forall P l → Forall2 R l l' → Forall P' l'.
Proof.
  intros H HP HR. induction HR as [|x y l l' Hxy _ IH]; [constructor|].
  inversion HP; subst. constructor; eauto.
Qed.

(** A non-empty bid set none of whose bids has a zero divisor is cleared. *)
Lemma run_auction_returns (adx : ADX.t) (bids : list Bid)
    (req : option AdRequest) (w : World) :
  bids ≠ [] → Forall (λ b, ¬ price_divisor b == 0) bids →
  ∃ a w', ADX.run_auction adx bids req w = Returns (Some a) w'.
Proof.
  intros Hne Hpos. destruct bids as [|b bs]; [done|].
  destruct (run_auction_settles adx b bs req w) as (bids' & w1 & _ & Hrated & Heq).
  rewrite Heq.
  assert (Forall (λ b', ¬ price_divisor b' == 0) (sorted_by_ecpm bids')) as Hall.
  { apply sorted_by_ecpm_Forall.
    eapply Forall2_Forall_transfer; [apply rated_divisor_nonzero|exact Hpos|exact Hrated]. }
  pose proof (rating_of_nonempty b bs bids' Hrated) as Hs.
  destruct (sorted_by_ecpm bids') as [|win [|second rest]]; [done| |].
  - rewrite settle_single. cbv zeta. by eexists _, _.
  - inversion Hall as [|? ? Hwin _]; subst. unfold price_divisor in Hwin.
    rewrite settle_competition. cbv zeta.
    destruct (Qeq_bool _ 0) eqn:E; [|by eexists _, _].
    apply Qeq_bool_iff in E. done.
Qed.

(** C5. For at least two bids, whatever result the auction returns has a
    cleared price that is at most the winning bid's price, and that is not
    negative for bids within the data model (non-negative price, rates and
    quality factor); and when no bid has a zero divisor 1000 × pCTR × pCVR
    the auction does return a result. *)
Theorem cleared_price_bounds (adx : ADX.t) (bids : list Bid)
    (req : option AdRequest) (w : World) :
  (2 <= length bids)%nat →
  (∀ a w', ADX.run_auction adx bids req w = Returns (Some a) w' →
           winner_bid a = get_num (winner a) "bid_price" 0 ∧
           actual_paid_price a <= winner_bid a ∧
           (Forall well_formed bids → 0 <= actual_paid_price a)) ∧
  (Forall (λ b, ¬ price_divisor b == 0) bids →
   ∃ a w', ADX.run_auction adx bids req w = Returns (Some a) w').
Proof.
  intros Hlen. split.
  - destruct bids as [|b bs]; [simpl in Hlen; lia|].
    destruct (run_auction_settles adx b bs req w) as (bids' & w1 & _ & Hrated & Heq).
    rewrite Heq.
    assert (length (sorted_by_ecpm bids') = length (b :: bs)) as Hl.
    { rewrite sorted_by_ecpm_length. symmetry. by eapply Forall2_length. }
    destruct (sorted_by_ecpm bids') as [|win [|second rest]] eqn:Hs;
      [simpl in *; lia | simpl in *; lia |].
    intros a w' Hrun. apply settle_returns in Hrun.
    destruct Hrun as (others & [= <- <-] & _ & _ & Hwb & _ & _ & _ & Hd & _ & Hpaid).
    cbv zeta in Hd, Hpaid.
    split; [done|]. rewrite Hpaid, Hwb. split; [apply py_min_le_r|].
    intros Hwf.
    assert (Forall (λ b', 0 <= get_num b' "bid_price" 0 ∧ 0 <= get_num b' "pctr" 0.001 ∧
                          0 <= get_num b' "pcvr" 0.01 ∧ 0 <= get_num b' "ecpm" 0)
                   (win :: second :: rest)) as Hall.
    { rewrite <- Hs. apply sorted_by_ecpm_Forall.
      eapply Forall2_Forall_transfer; [apply rated_well_formed|exact Hwf|exact Hrated]. }
    inversion Hall as [|? ? (Hp & Hc & Hv & _) Hall']; subst.
    inversion Hall' as [|? ? (_ & _ & _ & He2) _]; subst.
    apply py_min_glb; [|done].
    apply Qle_shift_div_l; [|lra].
    assert (0 <= 1000 * get_num win "pctr" 0.001 * get_num win "pcvr" 0.01) as H0.
    { repeat apply Qmult_le_0_compat; try done. }
    apply Qle_lteq in H0. destruct H0 as [H0|H0]; [done|]. by symmetry in H0.
  - intros Hpos. apply run_auction_returns; [|done].
    intros ->. simpl in Hlen. lia.
Qed.

Lemma cleared_price_bounds_witness :
  ∃ a w', ADX.run_auction plain_adx [bid_a; bid_b] None quiet_world = Returns (Some a) w' ∧
          actual_paid_price a <= winner_bid a ∧ 0 <= actual_paid_price a.
Proof.
  assert (Forall well_formed [bid_a; bid_b]) as Hwf.
  { repeat constructor; vm_compute; discriminate. }
  assert (Forall (λ b, ¬ price_divisor b == 0) [bid_a; bid_b]) as Hpos.
  { repeat constructor; vm_compute; discriminate. }
  destruct (cleared_price_bounds plain_adx [bid_a; bid_b] None quiet_world (le_n 2))
    as [Hbounds Hreturns].
  destruct (Hreturns Hpos) as (a & w' & Hrun).
  destruct (Hbounds a w' Hrun) as (_ & Hle & Hnonneg).
  exists a, w'. split; [exact Hrun|]. split; [exact Hle|]. by apply Hnonneg.
Defined.

(** ** Auction clearing: when there is a result *)




(** ** The SKAN estimator *)

Lemma confidence_bounds (x : Q) : 0.6 <= py_min 1.0 (py_max 0.6 x) ∧ py_min 1.0 (py_max 0.6 x) <= 1.0.
Proof.
  split.
  - apply py_min_glb; [lra|apply py_max_ge_l].
  - apply py_min_le_l.
Qed.

Lemma always_sample_conversion_value :
  always SKANOptimizer.sample_conversion_value (λ _, True).
Proof.
  unfold SKANOptimizer.sample_conversion_value. repeat step. by apply always_ret.
Qed.

(** C8. On an iOS request the estimator returns an estimate with its
    details; the confidence in the details lies in [0.6, 1.0] and the
    estimate is the base rate × (0.7 + 0.3 × confidence). *)
Theorem skan_confidence_and_blend (r : AdRequest) (w : World) :
  upper (get_text r "platform") = "IOS" →
  ∃ adjusted d w',
    SKANOptimizer.estimate_pcvr_from_skan r w = Returns (Some adjusted, Some d) w' ∧
    0.6 <= SKANOptimizer.confidence d ∧ SKANOptimizer.confidence d <= 1.0 ∧
    adjusted = SKANOptimizer.adjusted_pcvr d ∧
    adjusted == SKANOptimizer.base_pcvr d * (0.7 + 0.3 * SKANOptimizer.confidence d).
Proof.
  intros Hios.
  cut (always (SKANOptimizer.estimate_pcvr_from_skan r)
         (λ res, ∃ adjusted d, res = (Some adjusted, Some d) ∧
                   0.6 <= SKANOptimizer.confidence d ∧ SKANOptimizer.confidence d <= 1.0 ∧
                   adjusted = SKANOptimizer.adjusted_pcvr d ∧
                   adjusted == SKANOptimizer.base_pcvr d * (0.7 + 0.3 * SKANOptimizer.confidence d))).
  { intros H. destruct (H w) as (res & w' & E & adjusted & d & -> & Hd).
    by exists adjusted, d, w'. }
  unfold SKANOptimizer.estimate_pcvr_from_skan. cbv zeta.
  rewrite Hios. simpl negb. cbv iota.
  eapply always_bind; [apply always_sample_conversion_value|]. intros cv _.
  repeat step. apply always_ret.
  eexists _, _. split; [reflexivity|]. simpl.
  match goal with
  | |- context [py_min 1.0 (py_max 0.6 ?x)] =>
      pose proof (confidence_bounds x) as [Hlo Hhi]
  end.
  repeat split; try done. ring.
Qed.

Lemma skan_confidence_and_blend_witness :
  ∃ adjusted d w',
    SKANOptimizer.estimate_pcvr_from_skan ios_request skan_world
      = Returns (Some adjusted, Some d) w' ∧
    0.6 <= SKANOptimizer.confidence d ∧ SKANOptimizer.confidence d <= 1.0.
Proof.
  destruct (skan_confidence_and_blend ios_request skan_world) as (adj & d & w' & H & Hlo & Hhi & _).
  - vm_compute. reflexivity.
  - by exists adj, d, w'.
Defined.

(** ** The pipeline after admission *)

Lemma bind_returns {A B} (c : Eff A) (k : A → Eff B) (w w' : World) (b : B) :
  bind c k w = Returns b w' → ∃ a w1, c w = Returns a w1 ∧ k a w1 = Returns b w'.
Proof.
  unfold bind. destruct (c w) as [a w1|e w1]; [|discriminate].
  intros H. by exists a, w1.
Qed.

(** Once a request is admitted, the opportunity-cost check alone decides
    between the search path and the auction. *)
Lemma decide_admitted (e : AdExchangeEngine.t) (c : Collected) (w w1 : World) :
  admitted e c w w1 →
  AdExchangeEngine.decide e c w =
    (if Qle_bool (max_ad_value c) (organic_ltv_adjusted c) && Qlt_bool 0 (max_ad_value c)
     then AdExchangeEngine.serve_search c
            (AdExchangeEngine.max_estimated_ecpm (collected_bids c)) (max_ad_value c)
     else AdExchangeEngine.clear_and_serve e c) w1.
Proof.
  intros (Hlat & first & rest & rc & Hbids & Hpass).
  unfold AdExchangeEngine.decide. rewrite Hlat, Hbids. cbv zeta.
  unfold bind at 1. rewrite Hpass. cbv beta iota. simpl negb. cbv iota.
  unfold max_ad_value. by rewrite Hbids.
Qed.

Lemma serve_search_returns (c : Collected) (x y : Q) (w : World) :
  ∃ r w', AdExchangeEngine.serve_search c x y w = Returns r w' ∧
          selected_path r = Some "search" ∧ reason r = "ORGANIC_LTV_HIGHER".
Proof. by eexists _, _. Qed.

Lemma clear_and_serve_returns (e : AdExchangeEngine.t) (c : Collected) (w w' : World)
    (r : Result) :
  AdExchangeEngine.clear_and_serve e c w = Returns r w' →
  (selected_path r = Some "ads" ∧ status r = "ACCEPTED") ∨
  (selected_path r = None ∧ reason r = "AUCTION_FAILED").
Proof.
  unfold AdExchangeEngine.clear_and_serve. intros H.
  apply bind_returns in H. destruct H as ([a|] & w1 & _ & H).
  - left. unfold bind, log_decision, ret in H. by inversion H.
  - right. by inversion H.
Qed.

(** ** The value router *)

(** C4, at equal ad and organic value: [calculate_total_value] answers the
    advertising outlet for (1.0, 1.0, 0.5), not the organic one. *)
Lemma router_tie_selects_ads :
  InternalOpportunityManager.calculate_total_value 1.0 1.0 0.5 = (1.0, "ads") ∧
  (InternalOpportunityManager.calculate_total_value 1.0 1.0 0.5).2 ≠ "search".
Proof. split; [reflexivity|]. vm_compute. discriminate. Qed.

(** What the router does keep, and where the tie policy lives.
    [calculate_total_value] selects an outlet that carries the largest of
    the three values, the first such outlet in the order its dict lists
    them: ads, search, push.  The pipeline's own check compares only the ad
    and the organic value: for an admitted request whose organic value is at
    least the positive ad value, ties included, it selects the search
    path. *)
Lemma router_argmax_and_ties (ad organic push : Q) :
  let res := InternalOpportunityManager.calculate_total_value ad organic push in
  (ad <= res.1 ∧ organic <= res.1 ∧ push <= res.1) ∧
  ((res.2 = "ads" ∧ res.1 = ad ∧ organic <= ad ∧ push <= ad) ∨
   (res.2 = "search" ∧ res.1 = organic ∧ ad < organic ∧ push <= organic) ∨
   (res.2 = "push" ∧ res.1 = push ∧ ad < push ∧ organic < push)) ∧
  (ad == organic → res.2 ≠ "search") ∧
  (∀ e c w w1,
      admitted e c w w1 →
      max_ad_value c <= organic_ltv_adjusted c → 0 < max_ad_value c →
      ∃ r w', AdExchangeEngine.decide e c w = Returns r w' ∧
              selected_path r = Some "search").
Proof.
  cbv zeta.
  assert ((InternalOpportunityManager.calculate_total_value ad organic push).2 = "ads" ∧
          (InternalOpportunityManager.calculate_total_value ad organic push).1 = ad ∧
          organic <= ad ∧ push <= ad
          ∨ (InternalOpportunityManager.calculate_total_value ad organic push).2 = "search" ∧
            (InternalOpportunityManager.calculate_total_value ad organic push).1 = organic ∧
            ad < organic ∧ push <= organic
          ∨ (InternalOpportunityManager.calculate_total_value ad organic push).2 = "push" ∧
            (InternalOpportunityManager.calculate_total_value ad organic push).1 = push ∧
            ad < push ∧ organic < push) as Hcases.
  { unfold InternalOpportunityManager.calculate_total_value,
      InternalOpportunityManager.max_by_value, Qlt_bool. simpl.
    destruct (Qle_bool organic ad) eqn:E1; simpl.
    - apply Qle_bool_iff in E1.
      destruct (Qle_bool push ad) eqn:E2; simpl.
      + apply Qle_bool_iff in E2. by left.
      + apply Qle_bool_false in E2. right. right. repeat split; try done. lra.
    - apply Qle_bool_false in E1.
      destruct (Qle_bool push organic) eqn:E2; simpl.
      + apply Qle_bool_iff in E2. right. left. done.
      + apply Qle_bool_false in E2. right. right. repeat split; try done. lra. }
  split; [|split; [exact Hcases|split]].
  - destruct Hcases as [(_ & -> & ? & ?) | [(_ & -> & ? & ?) | (_ & -> & ? & ?)]];
      repeat split; lra.
  - intros Heq Hsearch.
    destruct Hcases as [(Hp & _) | [(_ & _ & Hlt & _) | (Hp & _)]];
      [congruence | lra | congruence].
  - intros e c w w1 Hadm Hle Hpos.
    rewrite (decide_admitted e c w w1 Hadm).
    apply Qle_bool_iff in Hle. rewrite Hle. unfold Qlt_bool.
    destruct (Qle_bool (max_ad_value c) 0) eqn:E.
    + apply Qle_bool_iff in E. lra.
    + simpl. destruct (serve_search_returns c
                 (AdExchangeEngine.max_estimated_ecpm (collected_bids c)) (max_ad_value c) w1)
        as (r & w' & H & Hp & _).
      by exists r, w'.
Qed.

Lemma router_argmax_and_ties_witness :
  ∃ r w', AdExchangeEngine.decide sample_engine tied_collection steady_world = Returns r w' ∧
          selected_path r = Some "search".
Proof.
  destruct (outcome_cases
              (ADX.process_request (AdExchangeEngine.adx sample_engine)
                 (set_num "bid_price"
                    (get_num (AdExchangeEngine.highest_bid bid_a []) "bid_price" 0)
                    (ad_request tied_collection)) steady_world)
              (λ res _, res.1 = true)) as ([passed rc] & w1 & Hrun & Hpass).
  { vm_compute. reflexivity. }
  simpl in Hpass. subst passed.
  apply (proj2 (proj2 (proj2 (router_argmax_and_ties 1.0 1.0 0.5)))
           sample_engine tied_collection steady_world w1).
  - split; [reflexivity|]. by exists bid_a, [], rc.
  - vm_compute. discriminate.
  - vm_compute. reflexivity.
Defined.

(** ** The admission filter chain *)

Lemma apply_logs_one_record (f : FilterRule) (r : AdRequest) (w : World) :
  logs_every_check f →
  ∃ passed rc vars w' p,
    apply f r w = Returns (passed, rc, vars) w' ∧
    log_file w' = log_file w ++ [p] ∧
    action p = check_action f ∧ reason_code p = rc ∧
    decision p = (if passed then "PASS" else "REJECT").
Proof.
  intros Hlog. destruct f; try done; unfold apply, bind, randint, random, log_decision, ret;
    cbv zeta; simpl.
  - destruct (Qle_bool _ _); by eexists _, _, _, _, _.
  - destruct (_ || _); by eexists _, _, _, _, _.
  - destruct (bool_decide _); by eexists _, _, _, _, _.
  - destruct (_ <=? _)%Z; [by eexists _, _, _, _, _|].
    destruct (estimate_potential r). by eexists _, _, _, _, _.
  - destruct (Qle_bool _ _); simpl; [|by eexists _, _, _, _, _].
    destruct (estimate_potential r). by eexists _, _, _, _, _.
Qed.

Lemma apply_filters_chain (fs : list FilterRule) (n : nat) (r : AdRequest) (w : World) :
  Forall logs_every_check fs →
  ∃ res w' recs final,
    ADX.apply_filters fs n r w = Returns res w' ∧
    log_file w' = log_file w ++ recs ++ [final] ∧
    chain_run fs recs res ∧
    action final = "FINAL_DECISION" ∧ reason_code final = res.2 ∧
    decision final = (if res.1 then "PASS" else "REJECT").
Proof.
  intros Hall. revert w. induction Hall as [|f fs Hf _ IH]; intros w.
  - eexists _, _, [], _. split; [reflexivity|]. simpl. repeat split. constructor.
  - destruct (apply_logs_one_record f r w Hf)
      as (passed & rc & vars & w1 & p & Happ & Hlog & Hact & Hrc & Hdec).
    simpl. unfold bind at 1. rewrite Happ. cbv beta iota.
    destruct passed.
    + destruct (IH w1) as (res & w' & recs & final & Hrun & Hlog' & Hchain & Hfin).
      exists res, w', (p :: recs), final. split; [done|]. split.
      * rewrite Hlog', Hlog. by rewrite <- app_assoc.
      * split; [|done]. by constructor.
    + eexists _, _, [p], _. split; [reflexivity|]. simpl. rewrite Hlog.
      split; [by rewrite <- app_assoc|]. rewrite <- Hrc. repeat split.
      by constructor.
Qed.

(** The floor price is applied while bids are collected: a collected bid
    reaches the floor. *)
Lemma collect_bids_reach_floor (e : AdExchangeEngine.t) (r : AdRequest)
    (request_id : string) (floor_price : Q) (num_dsps i : nat) (w w' : World)
    (bids : list Bid) :
  AdExchangeEngine.collect_bids e r request_id floor_price i num_dsps w = Returns bids w' →
  Forall (λ b, floor_price <= get_num b "bid_price" 0) bids.
Proof.
  revert i w w' bids. induction num_dsps as [|n IH]; intros i w w' bids H.
  - inversion H. constructor.
  - simpl in H. apply bind_returns in H. destruct H as (mine & w1 & Hmine & H).
    apply bind_returns in H. destruct H as (others & w2 & Hothers & H).
    inversion H; subst. apply Forall_app. split; [|by eapply IH].
    destruct (AdExchangeEngine.dsp e) as [base_price|]; [|inversion Hmine; constructor].
    apply bind_returns in Hmine. destruct Hmine as (dsp_request & w3 & _ & Hmine).
    inversion Hmine; subst.
    destruct (Qle_bool floor_price _) eqn:E; [|constructor].
    constructor; [|constructor]. apply Qle_bool_iff in E.
    unfold get_num; simpl. by simplify_map_eq.
Qed.

(** C6, at the configured chain: it holds four filters and no floor price
    filter; a request whose bid of 0.05 is below the floor price 0.1 passes
    the whole chain, and no floor price check is logged. *)
Lemma chain_has_no_floor_price_filter :
  filter_name <$> ADX.filters (AdExchangeEngine.adx sample_engine)
    = ["BlacklistFilter"; "SizeMatchFilter"; "LatencyTimeoutFilter"; "CreativeMismatchFilter"] ∧
  ∃ w', ADX.process_request (AdExchangeEngine.adx sample_engine) below_floor_request steady_world
          = Returns (true, "ALL_FILTERS_PASSED") w' ∧
        action <$> log_file w'
          = ["REQUEST_RECEIVED"; "BLACKLIST_CHECK"; "SIZE_MATCH_CHECK"; "LATENCY_CHECK";
             "CREATIVE_COMPLIANCE_CHECK"; "FINAL_DECISION"].
Proof.
  split; [reflexivity|].
  destruct (outcome_cases
              (ADX.process_request (AdExchangeEngine.adx sample_engine) below_floor_request
                 steady_world)
              (λ res w', res = (true, "ALL_FILTERS_PASSED") ∧
                         action <$> log_file w'
                         = ["REQUEST_RECEIVED"; "BLACKLIST_CHECK"; "SIZE_MATCH_CHECK";
                            "LATENCY_CHECK"; "CREATIVE_COMPLIANCE_CHECK"; "FINAL_DECISION"]))
    as (res & w' & Hrun & -> & Hlog).
  - vm_compute. by split.
  - by exists w'.
Qed.

(** C6, amended. The configured chain is blacklist, size match, latency,
    creative compliance, in that order, without a floor price filter; the
    floor price is applied earlier, to each bid as it is collected.  A
    chain of filters that log every check is evaluated in its order and
    stops at the first rejection: after the record of the request's
    arrival the log gains one record per evaluated filter, none for a filter
    after the rejecting one, then the final decision; the result is the
    first rejection's reason code, or a pass. *)
Theorem filter_chain_order_and_short_circuit :
  (∀ e floor_price blacklist required_size max_latency_ms,
      ADX.filters (AdExchangeEngine.adx
        (AdExchangeEngine.setup_adx_filters e floor_price blacklist required_size max_latency_ms))
      = ADX.filters (AdExchangeEngine.adx e) ++
          [BlacklistFilter (list_to_set blacklist); SizeMatchFilter required_size;
           LatencyTimeoutFilter max_latency_ms; CreativeMismatchFilter 0.1]) ∧
  (∀ e r request_id floor_price num_dsps w w' bids,
      AdExchangeEngine.collect_bids e r request_id floor_price 0 num_dsps w = Returns bids w' →
      Forall (λ b, floor_price <= get_num b "bid_price" 0) bids) ∧
  (∀ adx r w,
      Forall logs_every_check (ADX.filters adx) →
      ∃ res w' received recs final,
        ADX.process_request adx r w = Returns res w' ∧
        log_file w' = log_file w ++ [received] ++ recs ++ [final] ∧
        action received = "REQUEST_RECEIVED" ∧
        chain_run (ADX.filters adx) recs res ∧
        action final = "FINAL_DECISION" ∧ reason_code final = res.2 ∧
        decision final = (if res.1 then "PASS" else "REJECT")).
Proof.
  split; [|split].
  - intros. simpl. by rewrite <- !app_assoc.
  - intros e r request_id floor_price num_dsps w w' bids H.
    by eapply collect_bids_reach_floor.
  - intros adx r w Hall. unfold ADX.process_request, bind at 1, log_decision at 1.
    match goal with
    | |- context [ADX.apply_filters ?fs ?n ?r ?w1] =>
        destruct (apply_filters_chain fs n r w1 Hall)
          as (res & w' & recs & final & Hrun & Hlog & Hchain & Hfin)
    end.
    eexists res, w', _, recs, final. split; [exact Hrun|].
    split; [rewrite Hlog; simpl; by rewrite <- app_assoc|].
    split; [reflexivity|]. by split.
Qed.

Lemma filter_chain_order_and_short_circuit_witness :
  ∃ res w' received recs final,
    ADX.process_request (AdExchangeEngine.adx sample_engine) android_request steady_world
      = Returns res w' ∧
    log_file w' = log_file steady_world ++ [received] ++ recs ++ [final] ∧
    chain_run (ADX.filters (AdExchangeEngine.adx sample_engine)) recs res.
Proof.
  destruct (proj2 (proj2 filter_chain_order_and_short_circuit)
              (AdExchangeEngine.adx sample_engine) android_request steady_world)
    as (res & w' & received & recs & final & Hrun & Hlog & _ & Hchain & _).
  - repeat constructor.
  - by exists res, w', received, recs, final.
Defined.

(** ** The full pipeline: the selected path *)

Lemma run_auction_nonempty_not_none (adx : ADX.t) (b : Bid) (bs : list Bid)
    (req : option AdRequest) (w w' : World) :
  ADX.run_auction adx (b :: bs) req w ≠ Returns None w'.
Proof.
  destruct (run_auction_settles adx b bs req w) as (bids' & w1 & _ & Hrated & Heq).
  rewrite Heq. pose proof (rating_of_nonempty b bs bids' Hrated) as Hne.
  destruct (sorted_by_ecpm bids') as [|win rest]; [done|]. apply settle_never_none.
Qed.

Lemma clear_and_serve_nonempty (e : AdExchangeEngine.t) (c : Collected) (w w' : World)
    (r : Result) :
  collected_bids c ≠ [] →
  AdExchangeEngine.clear_and_serve e c w = Returns r w' →
  selected_path r = Some "ads" ∧ status r = "ACCEPTED" ∧ reason r = "AUCTION_WON".
Proof.
  intros Hne. unfold AdExchangeEngine.clear_and_serve. intros H.
  apply bind_returns in H. destruct H as ([a|] & w1 & Hrun & H).
  - unfold bind, log_decision, ret in H. by inversion H.
  - destruct (collected_bids c) as [|b bs]; [done|].
    by apply run_auction_nonempty_not_none in Hrun.
Qed.

Lemma decide_paths (e : AdExchangeEngine.t) (c : Collected) (w w' : World) (r : Result) :
  AdExchangeEngine.decide e c w = Returns r w' →
  selected_path r = None ∨ selected_path r = Some "search" ∨ selected_path r = Some "ads".
Proof.
  unfold AdExchangeEngine.decide.
  destruct (Qlt_bool _ _).
  { intros H. unfold AdExchangeEngine.latency_reject, bind, log_decision, ret in H.
    cbv zeta in H. inversion H. by left. }
  destruct (collected_bids c) as [|first rest] eqn:Hbids.
  { intros H. inversion H. by left. }
  cbv zeta. intros H. apply bind_returns in H.
  destruct H as ([passed rc] & w1 & _ & H).
  destruct passed; simpl in H.
  - destruct (_ && _).
    + destruct (serve_search_returns c
                  (AdExchangeEngine.max_estimated_ecpm (first :: rest))
                  (AdExchangeEngine.max_estimated_ecpm (first :: rest) / 1000.0) w1)
        as (r' & w'' & E & Hp & _).
      rewrite E in H. inversion H; subst. by right; left.
    + apply clear_and_serve_returns in H. destruct H as [(Hp & _) | (Hp & _)]; auto.
  - inversion H. by left.
Qed.

Lemma collect_records_push_value (e : AdExchangeEngine.t) (up : Upstream)
    (request_id device_id app_id app_name platform : string) (ad_size : Z * Z)
    (num_dsps : nat) (w w0 : World) (c : Collected) :
  AdExchangeEngine.collect e up request_id device_id app_id app_name platform ad_size num_dsps w
    = Returns c w0 →
  req_num (ad_request c) !! "ev_push" = Some (ev_push c).
Proof.
  unfold AdExchangeEngine.collect. intros H.
  repeat (apply bind_returns in H; destruct H as (? & ? & _ & H)).
  cbv zeta in H. repeat (apply bind_returns in H; destruct H as (? & ? & _ & H)).
  inversion H; subst. simpl. by simplify_map_eq.
Qed.

(** C9. Whatever the full pipeline returns, the selected path, when the
    result has one, is "search" or "ads" and never "push"; yet the result
    comes from a collection stage that computed a push value and recorded it
    on the request. *)
Theorem selected_path_search_or_ads (e : AdExchangeEngine.t) (up : Upstream)
    (request_id device_id app_id app_name platform : string) (ad_size : Z * Z)
    (num_dsps : nat) (w w' : World) (r : Result) :
  AdExchangeEngine.run_auction e up request_id device_id app_id app_name platform
    ad_size num_dsps w = Returns r w' →
  (selected_path r = None ∨ selected_path r = Some "search" ∨ selected_path r = Some "ads") ∧
  selected_path r ≠ Some "push" ∧
  ∃ c w0,
    AdExchangeEngine.collect e up request_id device_id app_id app_name platform
      ad_size num_dsps w = Returns c w0 ∧
    req_num (ad_request c) !! "ev_push" = Some (ev_push c) ∧
    AdExchangeEngine.decide e c w0 = Returns r w'.
Proof.
  unfold AdExchangeEngine.run_auction. intros H.
  apply bind_returns in H. destruct H as (c & w0 & Hc & Hd).
  pose proof (decide_paths e c w0 w' r Hd) as Hp.
  split; [done|]. split.
  - destruct Hp as [-> | [-> | ->]]; discriminate.
  - exists c, w0. split; [done|]. split; [|done].
    by eapply collect_records_push_value.
Qed.

Lemma selected_path_search_or_ads_witness :
  ∃ r w',
    AdExchangeEngine.run_auction sample_engine no_organic_value "req_1" "device_002" "app_002"
      "App" "Android" (320, 50)%Z 3 steady_world = Returns r w' ∧
    selected_path r = Some "ads" ∧ selected_path r ≠ Some "push".
Proof.
  destruct (outcome_cases
              (AdExchangeEngine.run_auction sample_engine no_organic_value "req_1" "device_002"
                 "app_002" "App" "Android" (320, 50)%Z 3 steady_world)
              (λ r _, selected_path r = Some "ads")) as (r & w' & Hrun & Hads).
  - vm_compute. reflexivity.
  - exists r, w'. split; [exact Hrun|]. split; [exact Hads|].
    by apply (selected_path_search_or_ads sample_engine no_organic_value "req_1"
                "device_002" "app_002" "App" "Android" (320, 50)%Z 3 steady_world w' r Hrun).
Defined.

(** ** The full pipeline: the opportunity-cost check *)

Lemma max_estimated_ecpm_zero (bids : list Bid) :
  Forall (λ b, AdExchangeEngine.estimated_ecpm b == 0) bids →
  AdExchangeEngine.max_estimated_ecpm bids = 0.0.
Proof.
  unfold AdExchangeEngine.max_estimated_ecpm.
  assert (∀ m, m == 0 →
            Forall (λ b, AdExchangeEngine.estimated_ecpm b == 0) bids →
            foldl (λ m b, py_max m (AdExchangeEngine.estimated_ecpm b)) m bids = m) as H.
  { induction bids as [|b bids IH]; intros m Hm Hall; simpl; [done|].
    inversion Hall as [|? ? Hb Hbs]; subst.
    assert (py_max m (AdExchangeEngine.estimated_ecpm b) = m) as ->.
    { unfold py_max.
      assert (Qle_bool (AdExchangeEngine.estimated_ecpm b) m = true) as ->; [|done].
      apply Qle_bool_iff. lra. }
    by apply IH. }
  intros Hall. by apply H.
Qed.

(** The search path is taken only on a strictly positive ad value. *)
Lemma search_path_needs_positive_ad_value (e : AdExchangeEngine.t) (c : Collected)
    (w w1 w' : World) (r : Result) :
  admitted e c w w1 →
  AdExchangeEngine.decide e c w = Returns r w' →
  selected_path r = Some "search" →
  0 < max_ad_value c ∧ max_ad_value c <= organic_ltv_adjusted c.
Proof.
  intros Hadm Hd Hpath. rewrite (decide_admitted e c w w1 Hadm) in Hd.
  destruct (Qle_bool _ _) eqn:E1; simpl in Hd.
  - unfold Qlt_bool in Hd. destruct (Qle_bool (max_ad_value c) 0) eqn:E2; simpl in Hd.
    + apply clear_and_serve_returns in Hd. destruct Hd as [(Hp & _) | (Hp & _)]; congruence.
    + apply Qle_bool_false in E2. apply Qle_bool_iff in E1. done.
  - apply clear_and_serve_returns in Hd. destruct Hd as [(Hp & _) | (Hp & _)]; congruence.
Qed.

(** C10. For an admitted request the pipeline takes the search path only
    when the highest ad value is strictly positive.  When every collected
    bid has an estimated eCPM of zero, the pipeline goes on to the auction
    whatever the organic value is: its outcome is that of clearing and
    serving, and any result it returns is on the ads path. *)
Theorem zero_ecpm_proceeds_to_auction (e : AdExchangeEngine.t) (up : Upstream)
    (request_id device_id app_id app_name platform : string) (ad_size : Z * Z)
    (num_dsps : nat) (w w0 w1 : World) (c : Collected) :
  AdExchangeEngine.collect e up request_id device_id app_id app_name platform
    ad_size num_dsps w = Returns c w0 →
  admitted e c w0 w1 →
  (∀ r w', AdExchangeEngine.run_auction e up request_id device_id app_id app_name platform
             ad_size num_dsps w = Returns r w' →
           selected_path r = Some "search" → 0 < max_ad_value c) ∧
  (Forall (λ b, AdExchangeEngine.estimated_ecpm b == 0) (collected_bids c) →
   AdExchangeEngine.run_auction e up request_id device_id app_id app_name platform
     ad_size num_dsps w = AdExchangeEngine.clear_and_serve e c w1 ∧
   ∀ r w', AdExchangeEngine.run_auction e up request_id device_id app_id app_name platform
             ad_size num_dsps w = Returns r w' →
           selected_path r = Some "ads" ∧ status r = "ACCEPTED" ∧ reason r = "AUCTION_WON").
Proof.
  intros Hc Hadm.
  assert (AdExchangeEngine.run_auction e up request_id device_id app_id app_name platform
            ad_size num_dsps w = AdExchangeEngine.decide e c w0) as Hrun.
  { unfold AdExchangeEngine.run_auction, bind. by rewrite Hc. }
  rewrite Hrun. split.
  - intros r w' Hd Hpath.
    by destruct (search_path_needs_positive_ad_value e c w0 w1 w' r Hadm Hd Hpath).
  - intros Hzero.
    assert (AdExchangeEngine.decide e c w0 = AdExchangeEngine.clear_and_serve e c w1) as Heq.
    { rewrite (decide_admitted e c w0 w1 Hadm). unfold max_ad_value.
      rewrite (max_estimated_ecpm_zero _ Hzero).
      by rewrite andb_false_r. }
    split; [done|]. intros r w' Hd. rewrite Heq in Hd.
    eapply clear_and_serve_nonempty; [|exact Hd].
    destruct Hadm as (_ & first & rest & rc & -> & _). done.
Qed.

(** Admission and zero eCPMs, in the form an evaluation settles. *)
Lemma admitted_by_evaluation (e : AdExchangeEngine.t) (c : Collected) (w : World) :
  Qlt_bool AdExchangeEngine.TIMEOUT_THRESHOLD (latency_ms c) = false →
  match collected_bids c with
  | first :: rest =>
      match ADX.process_request (AdExchangeEngine.adx e)
              (set_num "bid_price"
                 (get_num (AdExchangeEngine.highest_bid first rest) "bid_price" 0)
                 (ad_request c)) w with
      | Returns (passed, _) _ => passed = true
      | Raises _ _ => False
      end
  | [] => False
  end →
  ∃ w1, admitted e c w w1.
Proof.
  intros Hlat Hpass. unfold admitted.
  destruct (collected_bids c) as [|first rest]; [done|].
  destruct (ADX.process_request _ _ w) as [[passed rc] w1|] eqn:Hreq; [|done].
  subst passed. exists w1. split; [done|]. by exists first, rest, rc.
Qed.

Lemma zero_ecpm_by_evaluation (bids : list Bid) :
  forallb (λ b, Qeq_bool (AdExchangeEngine.estimated_ecpm b) 0) bids = true →
  Forall (λ b, AdExchangeEngine.estimated_ecpm b == 0) bids.
Proof.
  intros H. apply Forall_forall. intros b Hb. apply Qeq_bool_iff.
  rewrite forallb_forall in H. apply H. by apply list_elem_of_In.
Qed.

Lemma zero_ecpm_proceeds_to_auction_witness :
  ∃ r w',
    AdExchangeEngine.run_auction sample_engine high_organic_value "req_1" "device_002"
      "app_002" "App" "Android" (320, 50)%Z 1 no_conversion_world = Returns r w' ∧
    selected_path r = Some "ads".
Proof.
  destruct (outcome_cases
              (AdExchangeEngine.collect sample_engine high_organic_value "req_1" "device_002"
                 "app_002" "App" "Android" (320, 50)%Z 1 no_conversion_world)
              (λ c w0,
                 Qlt_bool AdExchangeEngine.TIMEOUT_THRESHOLD (latency_ms c) = false ∧
                 forallb (λ b, Qeq_bool (AdExchangeEngine.estimated_ecpm b) 0)
                         (collected_bids c) = true ∧
                 match collected_bids c with
                 | first :: rest =>
                     match ADX.process_request (AdExchangeEngine.adx sample_engine)
                             (set_num "bid_price"
                                (get_num (AdExchangeEngine.highest_bid first rest) "bid_price" 0)
                                (ad_request c)) w0 with
                     | Returns (passed, _) _ => passed = true
                     | Raises _ _ => False
                     end
                 | [] => False
                 end))
    as (c & w0 & Hc & Hlat & Hzero & Hpass).
  { vm_compute. by repeat split. }
  destruct (admitted_by_evaluation sample_engine c w0 Hlat Hpass) as (w1 & Hadm).
  destruct (zero_ecpm_proceeds_to_auction sample_engine high_organic_value "req_1"
              "device_002" "app_002" "App" "Android" (320, 50)%Z 1 no_conversion_world
              w0 w1 c Hc Hadm) as [_ Hgo].
  destruct (Hgo (zero_ecpm_by_evaluation _ Hzero)) as [_ Hads].
  destruct (outcome_cases
              (AdExchangeEngine.run_auction sample_engine high_organic_value "req_1"
                 "device_002" "app_002" "App" "Android" (320, 50)%Z 1 no_conversion_world)
              (λ _ _, True)) as (r & w' & Hrun & _).
  { vm_compute. exact I. }
  exists r, w'. split; [exact Hrun|]. exact (proj1 (Hads r w' Hrun)).
Defined.

(** * Further properties of the code *)

(** Symbolic execution of the primitive effects on a world given by its fields. *)
Ltac run_prims :=
  cbv beta delta [bind randint now get_world modify random log_decision ret
                  set_tick set_log set_ip_pool set_click_coordinates set_distribution
                  set_touch_history tick log_file rand_int rand_float clock ip_pool
                  click_coordinates historical_conversion_distribution user_touch_history]
      iota zeta.

Ltac split_pairs :=
  repeat match goal with
         | |- context [let '(_, _) := ?p in _] => destruct p
         end.

(** ** The quality scorer *)

(** X1. [QualityScorer.score] never raises; its factor lies in [0, 1]; and
    it appends exactly one record to the log, a QUALITY_SCORE record of the
    ADX node whose decision is PASS when the factor is at least 0.5 and
    WARNING when it is below. *)
Theorem score_logs_one_record (fraud_rate : Q) (r : AdRequest) (w : World) :
  ∃ q fs w' p,
    QualityScorer.score fraud_rate r w = Returns (q, fs) w' ∧
    0 <= q ∧ q <= 1 ∧
    log_file w' = log_file w ++ [p] ∧
    node p = "ADX" ∧ action p = "QUALITY_SCORE" ∧
    decision p = (if Qle_bool 0.5 q then "PASS" else "WARNING") ∧
    (decision p = "WARNING" ↔ q < 0.5).
Proof.
  destruct w as [ri rf ck tk lg ips ccs hd uth].
  unfold QualityScorer.score. run_prims. split_pairs.
  match goal with |- context [if ?c then _ else _] =>
    match type of c with bool => destruct c end end;
    (eexists _, _, _, _; split; [reflexivity|]; simpl;
     split; [apply clamp_bounds|]; split; [apply clamp_bounds|];
     repeat (split; [done|]);
     match goal with |- context [Qle_bool 0.5 ?q] =>
       destruct (Qle_bool 0.5 q) eqn:E end;
     [ apply Qle_bool_iff in E; split; [done|lra]
     | apply Qle_bool_false in E; split; [done|done] ]).
Qed.

Lemma drop_snoc_suffix {A} (n : nat) (l : list A) (x : A) :
  (n <= length l)%nat →
  last (drop n (l ++ [x])) = Some x ∧ drop n (l ++ [x]) `suffix_of` (l ++ [x]).
Proof.
  intros H. split.
  - rewrite drop_app_le by done. apply last_snoc.
  - apply suffix_drop.
Qed.

(** X2. [QualityScorer.score] keeps its two histories bounded.  The click
    history of the device and app holds the new click last, is a suffix of
    the old history with that click appended, and never holds more than 20
    entries; the stamps kept for the drawn IP are all newer than five
    minutes before the second clock reading, and are taken, in order, from
    the old stamps with the new one appended.  The histories of other keys
    are left as they were. *)
Theorem score_keeps_histories_bounded (fraud_rate : Q) (r : AdRequest) (w : World) :
  let key := get_text r "device_id" +:+ "_" +:+ get_text r "app_id" in
  let click := (rand_int w (S (S (tick w))), rand_int w (S (S (S (tick w))))) in
  let ip := (rand_int w (tick w), rand_int w (S (tick w))) in
  let seen := clock w (S (S (S (S (tick w))))) in
  let horizon := clock w (S (S (S (S (S (tick w)))))) - 300 in
  ∃ res w' coords stamps,
    QualityScorer.score fraud_rate r w = Returns res w' ∧
    click_coordinates w' !! key = Some coords ∧
    (1 <= length coords <= 20)%nat ∧ last coords = Some click ∧
    coords `suffix_of` (default [] (click_coordinates w !! key) ++ [click]) ∧
    (∀ k, k ≠ key → click_coordinates w' !! k = click_coordinates w !! k) ∧
    ip_pool w' !! ip = Some stamps ∧
    Forall (λ ts, horizon < ts) stamps ∧
    stamps `sublist_of` (default [] (ip_pool w !! ip) ++ [seen]) ∧
    (∀ k, k ≠ ip → ip_pool w' !! k = ip_pool w !! k).
Proof.
  destruct w as [ri rf ck tk lg ips ccs hd uth]. cbv zeta.
  unfold QualityScorer.score. run_prims. split_pairs.
  set (key := get_text r "device_id" +:+ "_" +:+ get_text r "app_id").
  set (old := default [] (ccs !! key)).
  set (click := (ri (S (S tk)), ri (S (S (S tk))))).
  assert (∃ coords,
            coords = (if (20 <? length (old ++ [click]))%nat
                      then drop (length (old ++ [click]) - 20) (old ++ [click])
                      else old ++ [click]) ∧
            (1 <= length coords <= 20)%nat ∧ last coords = Some click ∧
            coords `suffix_of` (old ++ [click])) as (coords & Hc & Hlen & Hlast & Hsuf).
  { eexists. split; [reflexivity|].
    destruct (20 <? length (old ++ [click]))%nat eqn:E.
    - apply Nat.ltb_lt in E. rewrite length_app in *. simpl in *.
      destruct (drop_snoc_suffix (length old + 1 - 20) old click) as [H1 H2]; [lia|].
      rewrite length_drop, length_app. simpl. repeat split; try done; lia.
    - apply Nat.ltb_ge in E. rewrite length_app in *. simpl in *.
      repeat split; try lia; [apply last_snoc|done]. }
  rewrite <- Hc.
  match goal with |- context [if ?c then _ else _] =>
    match type of c with bool => destruct c end end;
    (eexists _, _, coords, _; split; [reflexivity|]; simpl;
     split; [by rewrite lookup_insert_eq|];
     split; [done|]; split; [done|]; split; [done|];
     split; [by intros k Hk; rewrite lookup_insert_ne|];
     split; [by rewrite lookup_insert_eq|];
     split; [|split; [apply sublist_filter|by intros k Hk; rewrite lookup_insert_ne]];
     apply Forall_forall; intros ts Hts; apply list_elem_of_filter in Hts;
     destruct Hts as [Hts _]; unfold Qlt_bool in Hts;
     apply negb_true_iff in Hts; by apply Qle_bool_false in Hts).
Qed.

Lemma estimate_potential_nonzero (r : AdRequest) :
  ¬ (estimate_potential r).1 == 0 ∧ ¬ (estimate_potential r).2 == 0 ∧
  (∀ e, req_num r !! "estimated_ecpm" = Some e → ¬ e == 0 → (estimate_potential r).1 = e) ∧
  (req_num r !! "estimated_ecpm" = None → (estimate_potential r).1 == 0.5).
Proof.
  unfold estimate_potential.
  destruct (req_num r !! "estimated_ecpm") as [e|]; simpl.
  - destruct (Qeq_bool e 0) eqn:E; simpl.
    + repeat split; try (intros H; vm_compute in H; discriminate); try done.
      intros e' [= <-] Hne. apply Qeq_bool_iff in E. done.
    + repeat split; try done.
      * intros H. apply Qeq_bool_iff in H. congruence.
      * intros H. apply Qeq_bool_iff in H. congruence.
      * by intros e' [= <-] _.
  - repeat split; try (intros H; vm_compute in H; discriminate); try done.
Qed.

(** X3. A rejection by the latency or by the creative filter records a
    potential loss that is never zero: the request's estimated eCPM when it
    has one that is not zero, and 0.5 when it has none. *)
Theorem rejection_records_nonzero_loss (f : FilterRule) (r : AdRequest) (w w' : World)
    (rc : string) (vars : list (string * Q)) :
  (∃ m, f = LatencyTimeoutFilter m) ∨ (∃ rate, f = CreativeMismatchFilter rate) →
  apply f r w = Returns (false, rc, vars) w' →
  ∃ loss,
    ("potential_loss", loss) ∈ vars ∧ ¬ loss == 0 ∧
    (∀ e, req_num r !! "estimated_ecpm" = Some e → ¬ e == 0 → loss = e) ∧
    (req_num r !! "estimated_ecpm" = None → loss == 0.5) ∧
    (rc = "LATENCY_TIMEOUT" ∨ rc = "CREATIVE_MISMATCH").
Proof.
  destruct (estimate_potential_nonzero r) as (H1 & H2 & H3 & H4).
  intros [[m ->] | [rate ->]]; unfold apply; destruct w as [ri rf ck tk lg ips ccs hd uth];
    run_prims.
  - destruct (_ <=? _)%Z; [discriminate|].
    destruct (estimate_potential r) as [loss ecpm]. intros [= <- <- <-].
    exists loss. simpl in *. split; [repeat constructor|]. repeat split; auto.
  - destruct (negb _); [discriminate|].
    destruct (estimate_potential r) as [loss ecpm]. intros [= <- <- <-].
    exists loss. simpl in *. split; [repeat constructor|]. repeat split; auto.
Qed.

Lemma rejection_records_nonzero_loss_witness :
  ∃ vars w' loss,
    apply (LatencyTimeoutFilter 100) android_request slow_world
      = Returns (false, "LATENCY_TIMEOUT"%string, vars) w' ∧
    ("potential_loss"%string, loss) ∈ vars ∧ loss == 0.5.
Proof.
  destruct (outcome_cases (apply (LatencyTimeoutFilter 100) android_request slow_world)
              (λ res _, res.1 = (false, "LATENCY_TIMEOUT"%string)))
    as ([[passed rc] vars] & w' & Hrun & Hres).
  { vm_compute. reflexivity. }
  simpl in Hres. injection Hres as -> ->.
  destruct (rejection_records_nonzero_loss (LatencyTimeoutFilter 100) android_request
              slow_world w' "LATENCY_TIMEOUT" vars
              (or_introl (ex_intro _ 100%Z eq_refl)) Hrun)
    as (loss & Hin & _ & _ & Hhalf & _).
  exists vars, w', loss. split; [exact Hrun|]. split; [exact Hin|].
  apply Hhalf. vm_compute. reflexivity.
Defined.

(** X4. The chain that [setup_adx_filters] builds on an engine without
    filters decides a request as follows: a listed device or app is rejected
    as IN_BLACKLIST, otherwise a wrong ad size as SIZE_MISMATCH, otherwise a
    drawn latency above the limit as LATENCY_TIMEOUT, otherwise a compliance
    draw of at most 0.1 as CREATIVE_MISMATCH, and otherwise the request
    passes.  The latency is drawn only when the first two filters pass, and
    the compliance only when the latency filter passes. *)
Theorem configured_chain_decision (e : AdExchangeEngine.t) (floor_price : Q)
    (blacklist : list string) (required_size : Z * Z) (max_latency_ms : Z)
    (r : AdRequest) (w : World) :
  ADX.filters (AdExchangeEngine.adx e) = [] →
  let chain := AdExchangeEngine.adx
                 (AdExchangeEngine.setup_adx_filters e floor_price blacklist required_size
                    max_latency_ms) in
  let listed := get_text r "device_id" ∈ blacklist ∨ get_text r "app_id" ∈ blacklist in
  let fits := default (0, 0)%Z (req_ad_size r) = required_size in
  let latency := rand_int w (tick w) in
  let compliance := rand_float w (S (tick w)) in
  ∃ res w',
    ADX.process_request chain r w = Returns res w' ∧
    (listed → res = (false, "IN_BLACKLIST") ∧ tick w' = tick w) ∧
    (¬ listed → ¬ fits → res = (false, "SIZE_MISMATCH") ∧ tick w' = tick w) ∧
    (¬ listed → fits → (max_latency_ms < latency)%Z →
     res = (false, "LATENCY_TIMEOUT") ∧ tick w' = S (tick w)) ∧
    (¬ listed → fits → (latency <= max_latency_ms)%Z → compliance <= 0.1 →
     res = (false, "CREATIVE_MISMATCH") ∧ tick w' = S (S (tick w))) ∧
    (¬ listed → fits → (latency <= max_latency_ms)%Z → 0.1 < compliance →
     res = (true, "ALL_FILTERS_PASSED") ∧ tick w' = S (S (tick w))).
Proof.
  intros Hempty. cbv zeta. unfold ADX.process_request.
  simpl ADX.filters. rewrite Hempty. simpl app.
  destruct w as [ri rf ck tk lg ips ccs hd uth].
  unfold ADX.apply_filters, apply. run_prims.
  destruct (bool_decide (get_text r "device_id" ∈ _)) eqn:E1;
    [apply bool_decide_eq_true in E1|apply bool_decide_eq_false in E1];
    rewrite elem_of_list_to_set in E1.
  { simpl. eexists _, _. split; [reflexivity|]. repeat split; tauto. }
  destruct (bool_decide (get_text r "app_id" ∈ _)) eqn:E2;
    [apply bool_decide_eq_true in E2|apply bool_decide_eq_false in E2];
    rewrite elem_of_list_to_set in E2.
  { simpl. eexists _, _. split; [reflexivity|]. repeat split; tauto. }
  simpl.
  destruct (bool_decide (default (0, 0)%Z (req_ad_size r) = required_size)) eqn:E3;
    [apply bool_decide_eq_true in E3|apply bool_decide_eq_false in E3].
  2: { eexists _, _. split; [reflexivity|]. repeat split; tauto. }
  destruct (ri tk <=? max_latency_ms)%Z eqn:E4.
  2: { apply Z.leb_gt in E4. destruct (estimate_potential r).
       eexists _, _. split; [reflexivity|]. repeat split; try tauto; lia. }
  apply Z.leb_le in E4.
  destruct (Qle_bool (rf (S tk)) 0.1) eqn:E5; simpl.
  - apply Qle_bool_iff in E5. destruct (estimate_potential r).
    eexists _, _. split; [reflexivity|]. repeat split; try tauto; try lia; lra.
  - apply Qle_bool_false in E5.
    eexists _, _. split; [reflexivity|]. repeat split; try tauto; try lia; lra.
Qed.

Lemma configured_chain_decision_witness :
  ∃ res w',
    ADX.process_request
      (AdExchangeEngine.adx
         (AdExchangeEngine.setup_adx_filters bare_engine 0.1
            ["device_blacklist_001"; "app_blacklist_001"] (320, 50)%Z 100))
      android_request steady_world = Returns res w' ∧
    res = (true, "ALL_FILTERS_PASSED"%string).
Proof.
  destruct (configured_chain_decision bare_engine 0.1
              ["device_blacklist_001"; "app_blacklist_001"]%string (320, 50)%Z 100
              android_request steady_world eq_refl)
    as (res & w' & Hrun & _ & _ & _ & _ & Hpass).
  exists res, w'. split; [exact Hrun|].
  apply Hpass.
  - vm_compute (get_text _ _). intros [H|H];
      repeat (apply elem_of_cons in H as [H|H]; [discriminate|]); by apply elem_of_nil in H.
  - reflexivity.
  - vm_compute. discriminate.
  - vm_compute. reflexivity.
Defined.

(** X5. The two floor price filters agree on every request: both pass
    exactly when the bid price, read as 0 when missing, reaches the floor.
    [FloorPriceHighFilter] writes nothing on a pass and records a price gap
    of 0; on a rejection the codes are BID_BELOW_FLOOR and FLOOR_PRICE_HIGH,
    and the recorded gap is the strictly positive floor less the bid. *)
Theorem floor_filters_agree (floor_price : Q) (r : AdRequest) (w : World) :
  let bid_price := default 0 (req_num r !! "bid_price") in
  ∃ passed rc vars w1 rc' vars' w2,
    apply (FloorPriceFilter floor_price) r w = Returns (passed, rc, vars) w1 ∧
    apply (FloorPriceHighFilter floor_price) r w = Returns (passed, rc', vars') w2 ∧
    (passed = true ↔ floor_price <= bid_price) ∧
    (passed = true → w2 = w ∧ ("price_gap", 0) ∈ vars') ∧
    (passed = false →
     rc = "BID_BELOW_FLOOR" ∧ rc' = "FLOOR_PRICE_HIGH" ∧
     ("price_gap", floor_price - bid_price) ∈ vars' ∧ 0 < floor_price - bid_price).
Proof.
  cbv zeta. destruct w as [ri rf ck tk lg ips ccs hd uth].
  unfold apply. run_prims.
  destruct (Qle_bool floor_price (default 0 (req_num r !! "bid_price"))) eqn:E.
  - apply Qle_bool_iff in E. eexists true, _, _, _, _, _, _.
    split; [reflexivity|]. split; [reflexivity|].
    split; [done|]. split; [|done]. intros _. split; [done|repeat constructor].
  - apply Qle_bool_false in E. eexists false, _, _, _, _, _, _.
    split; [reflexivity|]. split; [reflexivity|].
    split; [split; [done|lra]|]. split; [done|]. intros _.
    repeat split; [repeat constructor|lra].
Qed.

(** ** The SKAN estimator *)

Lemma insert_by_key_perm (x : Z * Q) (l : list (Z * Q)) :
  SKANOptimizer.insert_by_key x l ≡ₚ x :: l.
Proof.
  induction l as [|y l IH]; simpl; [done|].
  destruct (_ <=? _)%Z; [done|]. rewrite IH. apply Permutation_swap.
Qed.

Lemma sorted_items_perm (d : gmap Z Q) : SKANOptimizer.sorted_items d ≡ₚ map_to_list d.
Proof.
  unfold SKANOptimizer.sorted_items.
  induction (map_to_list d) as [|x l IH]; simpl; [done|].
  by rewrite insert_by_key_perm, IH.
Qed.

Lemma sample_scan_member (rand cumulative : Q) (items : list (Z * Q)) :
  SKANOptimizer.sample_scan rand cumulative items = 31%Z ∨
  SKANOptimizer.sample_scan rand cumulative items ∈ items.*1.
Proof.
  revert cumulative. induction items as [|[v p] items IH]; intros c; simpl; [by left|].
  destruct (Qle_bool _ _); [right; constructor|].
  destruct (IH (c + p)) as [H|H]; [by left|right; by constructor].
Qed.

(** X6. [SKANOptimizer._sample_conversion_value] answers a bucket of the
    stored distribution or the default 31, and 31 when the distribution is
    empty; it makes one draw and changes neither the distribution nor the
    log. *)
Theorem sample_is_a_bucket_or_default (w : World) :
  ∃ v w',
    SKANOptimizer.sample_conversion_value w = Returns v w' ∧
    (v = 31%Z ∨ is_Some (historical_conversion_distribution w !! v)) ∧
    (historical_conversion_distribution w = ∅ → v = 31%Z) ∧
    historical_conversion_distribution w' = historical_conversion_distribution w ∧
    log_file w' = log_file w ∧ tick w' = S (tick w).
Proof.
  destruct w as [ri rf ck tk lg ips ccs hd uth].
  unfold SKANOptimizer.sample_conversion_value. run_prims.
  eexists _, _. split; [reflexivity|]. simpl. repeat split.
  - destruct (sample_scan_member (rf tk) 0.0 (SKANOptimizer.sorted_items hd)) as [H|H];
      [by left|right].
    apply list_elem_of_fmap in H. destruct H as ([k p] & Hk & H).
    rewrite sorted_items_perm in H. apply elem_of_map_to_list in H.
    rewrite Hk. by exists p.
  - intros ->. reflexivity.
Qed.

(** X7. [estimate_pcvr_from_skan] answers (None, None) and touches
    nothing on a request whose platform, an ASCII string, is not iOS in any
    letter case.  On an iOS request, when the buckets of the distribution
    lie in 0..63, it answers a conversion value in 0..63, a base rate in
    [0.01, 0.1] and an adjusted rate in [0.0087, 0.1] that does not exceed
    the base rate; the postback delay it reports is its second draw. *)
Theorem skan_estimate_range (r : AdRequest) (w : World) :
  (isascii (get_text r "platform") = true →
   upper (get_text r "platform") ≠ "IOS" →
   SKANOptimizer.estimate_pcvr_from_skan r w = Returns (None, None) w) ∧
  (upper (get_text r "platform") = "IOS" →
   buckets_in_range (historical_conversion_distribution w) →
   ∃ adjusted d w',
     SKANOptimizer.estimate_pcvr_from_skan r w = Returns (Some adjusted, Some d) w' ∧
     (0 <= SKANOptimizer.conversion_value d <= 63)%Z ∧
     0.01 <= SKANOptimizer.base_pcvr d ∧ SKANOptimizer.base_pcvr d <= 0.1 ∧
     0.0087 <= adjusted ∧ adjusted <= 0.1 ∧
     adjusted <= SKANOptimizer.base_pcvr d ∧
     SKANOptimizer.postback_delay_hours d = rand_float w (S (tick w))).
Proof.
  split.
  - intros _ Hne. unfold SKANOptimizer.estimate_pcvr_from_skan.
    by rewrite bool_decide_eq_false_2.
  - intros Hios Hrange.
    destruct w as [ri rf ck tk lg ips ccs hd uth]. simpl in Hrange.
    unfold SKANOptimizer.estimate_pcvr_from_skan. rewrite Hios. simpl negb. cbv iota.
    unfold SKANOptimizer.sample_conversion_value. run_prims.
    eexists _, _, _. split; [reflexivity|]. simpl.
    set (cv := SKANOptimizer.sample_scan (rf tk) 0.0 (SKANOptimizer.sorted_items hd)).
    assert (0 <= cv <= 63)%Z as Hcvr.
    { destruct (sample_scan_member (rf tk) 0.0 (SKANOptimizer.sorted_items hd)) as [H|H];
        fold cv in H; [lia|].
      apply list_elem_of_fmap in H. destruct H as ([k p] & Hk & H).
      rewrite sorted_items_perm in H. apply elem_of_map_to_list in H.
      rewrite Hk. by apply (Hrange k p). }
    pose proof (confidence_bounds (default 0.01 (hd !! cv) * 15)) as [Hlo Hhi].
    set (conf := py_min 1.0 (py_max 0.6 (default 0.01 (hd !! cv) * 15))) in *.
    assert (0 <= inject_Z cv ∧ inject_Z cv <= 63) as [Hc0 Hc1].
    { split; [change 0 with (inject_Z 0)|change 63 with (inject_Z 63)];
        rewrite <- Zle_Qle; lia. }
    set (c := inject_Z cv) in *.
    assert (0.01 <= 0.01 + c / 63.0 * 0.09 ∧ 0.01 + c / 63.0 * 0.09 <= 0.1) as [Hb0 Hb1].
    { assert (c / 63.0 == c * (1 # 63)) as -> by (unfold Qdiv; by apply Qmult_comp).
      split; lra. }
    set (b := 0.01 + c / 63.0 * 0.09) in *.
    assert (0 <= (b - 0.01) * (0.7 + conf * 0.3 - 0.88)) as H1
      by (apply Qmult_le_0_compat; lra).
    assert (0 <= b * (1 - (0.7 + conf * 0.3))) as H2
      by (apply Qmult_le_0_compat; lra).
    repeat split; try done; try lia; nra.
Qed.

(** ** Online update of the distribution *)

Lemma foldl_Qplus_shift (a : Q) (l : list Q) : foldl Qplus a l == a + sumQ l.
Proof.
  unfold sumQ. revert a. induction l as [|x l IH]; intros a; simpl; [lra|].
  rewrite (IH (a + x)), (IH (0 + x)). lra.
Qed.

Lemma sumQ_cons (x : Q) (l : list Q) : sumQ (x :: l) == x + sumQ l.
Proof. unfold sumQ at 1. simpl. rewrite foldl_Qplus_shift. lra. Qed.

Lemma sumQ_perm (l k : list Q) : l ≡ₚ k → sumQ l == sumQ k.
Proof.
  induction 1 as [|x l k _ IH|x y l|l k m _ IH1 _ IH2].
  - reflexivity.
  - by rewrite !sumQ_cons, IH.
  - rewrite !sumQ_cons. lra.
  - by rewrite IH1.
Qed.

Lemma sumQ_scale (t : Q) (l : list Q) : sumQ ((λ p, p / t) <$> l) == sumQ l / t.
Proof.
  induction l as [|x l IH]; simpl.
  - unfold sumQ; simpl. unfold Qdiv. lra.
  - rewrite !sumQ_cons, IH. unfold Qdiv. lra.
Qed.

Lemma sumQ_map_values (f : Q → Q) (d : gmap Z Q) :
  sumQ (snd <$> map_to_list (f <$> d)) == sumQ (f <$> (snd <$> map_to_list d)).
Proof.
  apply sumQ_perm. rewrite map_to_list_fmap.
  induction (map_to_list d) as [|[k p] l IH]; simpl; [done|]. by rewrite IH.
Qed.




(** ** The touch history *)

(** X9. [add_touch] appends the touch, stamped with the clock, to the
    device's history and keeps the last ten entries: the new history ends
    with the touch, is a suffix of the old one with the touch appended, and
    is all of it while the old one has fewer than ten entries.  Other
    devices and the log are left as they were. *)
Theorem add_touch_keeps_last_ten (device_id chan typ : string) (value : Q) (w : World) :
  let touch := mkTouch chan typ value (clock w (tick w)) in
  let before := default [] (user_touch_history w !! device_id) in
  ∃ w' touches,
    InternalOpportunityManager.add_touch device_id chan typ value w = Returns tt w' ∧
    user_touch_history w' !! device_id = Some touches ∧
    (1 <= length touches <= 10)%nat ∧ last touches = Some touch ∧
    touches `suffix_of` (before ++ [touch]) ∧
    ((length before < 10)%nat → touches = before ++ [touch]) ∧
    (∀ other, other ≠ device_id →
              user_touch_history w' !! other = user_touch_history w !! other) ∧
    log_file w' = log_file w.
Proof.
  destruct w as [ri rf ck tk lg ips ccs hd uth]. cbv zeta. simpl.
  unfold InternalOpportunityManager.add_touch. run_prims.
  set (touch := mkTouch chan typ value (ck tk)).
  set (before := default [] (uth !! device_id)).
  eexists _, _. split; [reflexivity|]. simpl.
  split; [by rewrite lookup_insert_eq|].
  destruct (10 <? length (before ++ [touch]))%nat eqn:E.
  - apply Nat.ltb_lt in E. rewrite length_app in E. simpl in E.
    destruct (drop_snoc_suffix (length before + 1 - 10) before touch) as [H1 H2]; [lia|].
    rewrite length_drop, length_app. simpl.
    split_and!; try done; try lia.
    by intros other Hne; rewrite lookup_insert_ne.
  - apply Nat.ltb_ge in E. rewrite length_app in *. simpl in E.
    split_and!; try done; try (simpl; lia).
    + apply last_snoc.
    + by intros other Hne; rewrite lookup_insert_ne.
Qed.

(** ** Value estimates *)

Lemma py_min_unit (x : Q) : 0 <= x → 0 <= py_min 1.0 x ∧ py_min 1.0 x <= 1.
Proof.
  intros H. split.
  - apply py_min_glb; lra.
  - pose proof (py_min_le_l 1.0 x). lra.
Qed.

Lemma lower_substring (m k : nat) (s : string) :
  lower (String.substring m k s) = String.substring m k (lower s).
Proof.
  revert m k. induction s as [|c s IH]; intros m k.
  - by destruct m, k.
  - destruct m as [|m]; simpl.
    + destruct k as [|k]; simpl; [done|]. by rewrite (IH 0%nat k).
    + apply IH.
Qed.

(** A needle without capital letters that occurs in a string occurs in the
    lowered string. *)
Lemma contains_lower (needle haystack : string) :
  needle ≠ EmptyString → lower needle = needle →
  contains needle haystack = true → contains needle (lower haystack) = true.
Proof.
  unfold contains. intros Hne Hlow H.
  apply bool_decide_eq_true in H. destruct H as [m Hm].
  apply String.index_correct1 in Hm.
  apply bool_decide_eq_true.
  destruct (String.index 0 needle (lower haystack)) as [i|] eqn:E; [by eexists|].
  exfalso. apply (String.index_correct3 0 m needle (lower haystack) E Hne); [lia|].
  by rewrite <- lower_substring, Hm.
Qed.

(** X10. [estimate_search_value] makes one draw, the base value, and
    writes no log record.  For a base value that is not negative the
    estimate lies between 0.5 and 1.3 times the base.  For a device without
    history it is half the base, times 1.3 when the app id holds bilibili or
    b站 as written, and for an ASCII app id exactly when its lowered form
    holds one of them. *)
Theorem search_value_bounds (device_id : string) (r : AdRequest) (w : World) :
  let base := rand_float w (tick w) in
  ∃ ev w',
    InternalOpportunityManager.estimate_search_value device_id r w = Returns ev w' ∧
    tick w' = S (tick w) ∧ log_file w' = log_file w ∧
    (0 <= base → 0.5 * base <= ev ∧ ev <= 1.3 * base) ∧
    (user_touch_history w !! device_id = None →
     contains "bilibili" (get_text r "app_id") || contains "b站" (get_text r "app_id")
       = true →
     ev = base * 0.5 * 1.3) ∧
    (user_touch_history w !! device_id = None →
     isascii (get_text r "app_id") = true →
     ev = (if contains "bilibili" (lower (get_text r "app_id")) ||
              contains "b站" (lower (get_text r "app_id"))
           then base * 0.5 * 1.3 else base * 0.5)).
Proof.
  destruct w as [ri rf ck tk lg ips ccs hd uth]. cbv zeta. simpl.
  unfold InternalOpportunityManager.estimate_search_value,
    InternalOpportunityManager.get_user_touch_history.
  run_prims.
  eexists _, _. split; [reflexivity|]. simpl. split; [done|]. split; [done|]. split.
  - intros Hbase.
    set (touches := filter _ _).
    assert (0.5 <= match touches with
                   | [] => 0.5
                   | _ :: _ => py_min 1.0 (0.5 + inject_Z (Z.of_nat (length touches)) * 0.1)
                   end ∧
            match touches with
            | [] => 0.5
            | _ :: _ => py_min 1.0 (0.5 + inject_Z (Z.of_nat (length touches)) * 0.1)
            end <= 1) as [Hlo Hhi].
    { destruct touches as [|t ts]; [lra|].
      assert (0 <= inject_Z (Z.of_nat (length (t :: ts)))) as Hn.
      { change 0 with (inject_Z 0). rewrite <- Zle_Qle. lia. }
      split; [apply py_min_glb; lra|]. pose proof (py_min_le_l 1.0
        (0.5 + inject_Z (Z.of_nat (length (t :: ts))) * 0.1)). lra. }
    set (intent := match touches with [] => 0.5 | _ :: _ => _ end) in *.
    destruct (_ || _); split; nra.
  - split.
    + intros Hnone Hraw. rewrite Hnone. simpl.
      assert (contains "bilibili" (lower (get_text r "app_id")) ||
              contains "b站" (lower (get_text r "app_id")) = true) as ->; [|reflexivity].
      apply orb_true_iff in Hraw. apply orb_true_iff.
      destruct Hraw as [H|H]; [left|right]; by apply contains_lower.
    + intros Hnone _. rewrite Hnone. simpl. reflexivity.
Qed.

Lemma recent_sublist (touches : list Touch) (w : World) :
  ∃ kept w',
    InternalOpportunityManager.recent touches w = Returns kept w' ∧
    kept `sublist_of` touches ∧
    w' = set_tick (tick w + length touches) w.
Proof.
  revert w. induction touches as [|t ts IH]; intros w.
  - exists [], w. split; [done|]. split; [done|].
    destruct w. unfold set_tick. simpl. by rewrite Nat.add_0_r.
  - simpl. unfold bind at 1, now at 1.
    destruct (IH (set_tick (S (tick w)) w)) as (kept & w' & Hrun & Hsub & Hw).
    unfold bind at 1. rewrite Hrun. cbv beta iota. unfold ret.
    eexists _, w'. split; [reflexivity|]. split.
    + destruct (Qlt_bool _ _); [by constructor|by constructor].
    + rewrite Hw. destruct w. unfold set_tick. simpl. f_equal. lia.
Qed.

(** X11. [estimate_push_value] reads the clock once per touch of the
    device's history and then draws the base value.  For a base value that
    is not negative the estimate lies between a quarter of the base and the
    base, the fatigue bonus included; for a device without history it is
    half the base. *)
Theorem push_value_bounds (device_id : string) (r : AdRequest) (w : World) :
  let history := default [] (user_touch_history w !! device_id) in
  let base := rand_float w (tick w + length history) in
  ∃ ev w',
    InternalOpportunityManager.estimate_push_value device_id r w = Returns ev w' ∧
    tick w' = S (tick w + length history) ∧ log_file w' = log_file w ∧
    (0 <= base → 0.25 * base <= ev ∧ ev <= base) ∧
    (history = [] → ev == 0.5 * base).
Proof.
  cbv zeta.
  unfold InternalOpportunityManager.estimate_push_value,
    InternalOpportunityManager.get_user_touch_history.
  unfold bind at 1, get_world at 1, bind at 1, ret at 1.
  set (history := default [] (user_touch_history w !! device_id)).
  destruct (recent_sublist history w) as (kept & w1 & Hrun & Hsub & Hw).
  unfold bind at 1. rewrite Hrun. cbv beta iota zeta.
  subst w1. destruct w as [ri rf ck tk lg ips ccs hd uth]. run_prims.
  eexists _, _. split; [reflexivity|]. simpl. split; [done|]. split; [done|].
  split.
  - intros Hbase.
    destruct (py_min_unit (inject_Z (Z.of_nat (length kept)) * 0.2)) as [Ha0 Ha1].
    { apply Qmult_le_0_compat; [|lra]. change 0 with (inject_Z 0).
      rewrite <- Zle_Qle. lia. }
    set (a := py_min 1.0 (inject_Z (Z.of_nat (length kept)) * 0.2)) in *.
    set (ads := filter _ history).
    destruct (py_min_unit (inject_Z (Z.of_nat (length ads)) * 0.15)) as [Hf0 Hf1].
    { apply Qmult_le_0_compat; [|lra]. change 0 with (inject_Z 0).
      rewrite <- Zle_Qle. lia. }
    set (f := py_min 1.0 (inject_Z (Z.of_nat (length ads)) * 0.15)) in *.
    set (base := rf (tk + length history)%nat) in *.
    assert (0 <= (0.5 + a * 0.5 - 0.5) * (1 - f * 0.5 - 0.5)) as H1
      by (apply Qmult_le_0_compat; lra).
    assert (0 <= (1 - (0.5 + a * 0.5)) * (1 - f * 0.5)) as H2
      by (apply Qmult_le_0_compat; lra).
    assert (0.25 <= (0.5 + a * 0.5) * (1 - f * 0.5) ∧
            (0.5 + a * 0.5) * (1 - f * 0.5) <= 1 - f * 0.5) as [Hg0 Hg1] by (split; nra).
    set (g := (0.5 + a * 0.5) * (1 - f * 0.5)) in *.
    assert (base * (0.5 + a * 0.5) * (1 - f * 0.5) == base * g) as Heq by (unfold g; ring).
    unfold Qlt_bool. destruct (Qle_bool f 0.7) eqn:E; simpl; rewrite Heq.
    + split; nra.
    + apply Qle_bool_false in E. split; nra.
  - intros Hnil. revert Hrun Hsub. rewrite Hnil. intros Hrun Hsub.
    apply sublist_nil_r in Hsub. subst kept. simpl.
    unfold Qlt_bool.
    replace (Qle_bool (py_min 1.0 (0 * 0.15)) 0.7) with true by reflexivity.
    simpl negb. cbv iota.
    change (py_min 1.0 (inject_Z (Z.of_nat 0) * 0.2)) with (0 * 0.2).
    change (py_min 1.0 (inject_Z (Z.of_nat 0) * 0.15)) with (0 * 0.15). ring.
Qed.

(** ** The ranking *)

Lemma insert_desc_head (x : Bid) (l : list Bid) (z : Bid) :
  HdRel (λ x y, ecpm_of y <= ecpm_of x) z l → ecpm_of x <= ecpm_of z →
  HdRel (λ x y, ecpm_of y <= ecpm_of x) z (insert_desc x l).
Proof.
  intros Hl Hx. destruct l as [|y l]; simpl; [by constructor|].
  destruct (Qlt_bool _ _); constructor; [by inversion Hl|done].
Qed.

Lemma insert_desc_descending (x : Bid) (l : list Bid) :
  descending l → descending (insert_desc x l).
Proof.
  unfold descending. induction 1 as [|y l Hs IH Hhd]; simpl.
  - repeat constructor.
  - fold (ecpm_of x). fold (ecpm_of y). unfold Qlt_bool.
    destruct (Qle_bool (ecpm_of y) (ecpm_of x)) eqn:E; simpl.
    + apply Qle_bool_iff in E. constructor; [by constructor|by constructor].
    + apply Qle_bool_false in E. constructor; [done|].
      apply insert_desc_head; [done|lra].
Qed.

Lemma sorted_by_ecpm_descending (bids : list Bid) : descending (sorted_by_ecpm bids).
Proof.
  induction bids as [|b bids IH]; simpl; [constructor|].
  by apply insert_desc_descending.
Qed.

Lemma descending_head_max (b : Bid) (bs : list Bid) :
  descending (b :: bs) → Forall (λ x, ecpm_of x <= ecpm_of b) (b :: bs).
Proof.
  intros H. apply Sorted_StronglySorted in H.
  - inversion H as [|? ? _ Hall]; subst. constructor; [lra|done].
  - intros x y z Hxy Hyz. lra.
Qed.

(** Bids of one eCPM keep their order. *)
Lemma insert_desc_filter (k : Q) (x : Bid) (l : list Bid) :
  filter (λ b, Qeq_bool (ecpm_of b) k = true) (insert_desc x l)
  = filter (λ b, Qeq_bool (ecpm_of b) k = true) (x :: l).
Proof.
  induction l as [|y l IH]; simpl; [done|].
  fold (ecpm_of x). fold (ecpm_of y). unfold Qlt_bool.
  destruct (Qle_bool (ecpm_of y) (ecpm_of x)) eqn:E; simpl; [done|].
  apply Qle_bool_false in E.
  rewrite (filter_cons _ y), IH, !(filter_cons _ x), (filter_cons _ y).
  destruct (decide (Qeq_bool (ecpm_of x) k = true)) as [Hx|Hx];
    destruct (decide (Qeq_bool (ecpm_of y) k = true)) as [Hy|Hy]; try done.
  apply Qeq_bool_iff in Hx, Hy. lra.
Qed.

Lemma sorted_by_ecpm_filter (k : Q) (bids : list Bid) :
  filter (λ b, Qeq_bool (ecpm_of b) k = true) (sorted_by_ecpm bids)
  = filter (λ b, Qeq_bool (ecpm_of b) k = true) bids.
Proof.
  induction bids as [|b bids IH]; simpl; [done|].
  rewrite insert_desc_filter, !filter_cons, IH. done.
Qed.

(** X12. In every result of [ADX.run_auction] the listed bids are the
    rated bids in non-increasing order of eCPM, the winner's eCPM is the
    highest, the second eCPM does not exceed it, and bids of equal eCPM keep
    the order in which they were submitted. *)
Theorem winner_has_highest_ecpm (adx : ADX.t) (bids : list Bid) (req : option AdRequest)
    (w w' : World) (a : AuctionResult) :
  ADX.run_auction adx bids req w = Returns (Some a) w' →
  descending (all_bids a) ∧
  Forall (λ b, ecpm_of b <= winner_ecpm a) (all_bids a) ∧
  (has_competition a = true → second_highest_ecpm a <= winner_ecpm a) ∧
  ∃ rated_bids,
    Forall2 rating_of bids rated_bids ∧ all_bids a ≡ₚ rated_bids ∧
    ∀ k, filter (λ b, Qeq_bool (ecpm_of b) k = true) (all_bids a)
         = filter (λ b, Qeq_bool (ecpm_of b) k = true) rated_bids.
Proof.
  intros Hrun. destruct bids as [|b bs]; [discriminate|].
  destruct (run_auction_settles adx b bs req w) as (bids' & w1 & _ & Hrated & Heq).
  rewrite Heq in Hrun. apply settle_returns in Hrun.
  destruct Hrun as (others & Hsorted & _ & Hall & _ & Hecpm & Hcomp & _ & Hpaid).
  pose proof (sorted_by_ecpm_descending bids') as Hdesc.
  pose proof Hdesc as Hmax. rewrite Hsorted in Hmax. apply descending_head_max in Hmax.
  rewrite Hall, Hecpm. split; [done|]. split; [by rewrite Hsorted|]. split.
  - destruct others as [|second rest].
    + rewrite Hcomp, Hsorted. discriminate.
    + intros _. destruct Hpaid as (_ & -> & _). inversion Hmax as [|? ? _ Hrest]; subst.
      by inversion Hrest.
  - exists bids'. split; [done|]. split; [apply sorted_by_ecpm_perm|].
    intros k. apply sorted_by_ecpm_filter.
Qed.

Lemma winner_has_highest_ecpm_witness :
  ∃ a w', ADX.run_auction plain_adx [bid_b; bid_a] None quiet_world = Returns (Some a) w' ∧
          descending (all_bids a) ∧ dsp_id (winner a) = "DSP_2"%string.
Proof.
  destruct (returns_some (ADX.run_auction plain_adx [bid_b; bid_a] None quiet_world)
              (λ a, dsp_id (winner a) = "DSP_2"%string)) as (a & w' & Hrun & Hwin).
  { vm_compute. reflexivity. }
  exists a, w'. split; [exact Hrun|]. split; [|exact Hwin].
  exact (proj1 (winner_has_highest_ecpm plain_adx [bid_b; bid_a] None quiet_world w' a Hrun)).
Defined.

(** ** The price paid *)

(** X13. With competition the price paid is the second price or the
    winner's own bid: when it is below the bid, it is the second eCPM plus
    0.01, divided by 1000 × the winner's pCTR × the winner's pCVR, and the
    saving is strictly positive; otherwise it equals the bid and the saving
    is zero. *)
Theorem second_price_or_cap (adx : ADX.t) (bids : list Bid) (req : option AdRequest)
    (w w' : World) (a : AuctionResult) :
  ADX.run_auction adx bids req w = Returns (Some a) w' →
  has_competition a = true →
  (actual_paid_price a < winner_bid a →
   actual_paid_price a
     = (second_highest_ecpm a + 0.01) / (1000 * winner_pctr a * winner_pcvr a) ∧
   0 < saved_amount a) ∧
  (¬ actual_paid_price a < winner_bid a →
   actual_paid_price a == winner_bid a ∧ saved_amount a == 0).
Proof.
  intros Hrun. destruct bids as [|b bs]; [discriminate|].
  destruct (run_auction_settles adx b bs req w) as (bids' & w1 & _ & Hrated & Heq).
  rewrite Heq in Hrun.
  destruct (sorted_by_ecpm bids') as [|win [|second rest]]; [discriminate| |].
  { rewrite settle_single in Hrun. cbv zeta in Hrun. by inversion Hrun. }
  rewrite settle_competition in Hrun. cbv zeta in Hrun.
  destruct (Qeq_bool _ 0) eqn:E; [discriminate|]. inversion Hrun; subst; clear Hrun.
  simpl. intros _.
  assert (¬ 1000 * get_num win "pctr" 0.001 * get_num win "pcvr" 0.01 == 0) as Hd.
  { intros H. apply Qeq_bool_iff in H. congruence. }
  set (divisor := 1000 * get_num win "pctr" 0.001 * get_num win "pcvr" 0.01) in *.
  set (second_price := (get_num second "ecpm" 0 + 0.01) / divisor).
  set (bid := get_num win "bid_price" 0).
  unfold py_min. destruct (Qle_bool second_price bid) eqn:Hle.
  - apply Qle_bool_iff in Hle. split.
    + intros Hlt. split.
      * reflexivity.
      * unfold py_max. destruct (Qle_bool (bid - second_price) 0.0) eqn:E2; [|lra].
        apply Qle_bool_iff in E2. lra.
    + intros Hnlt. assert (second_price == bid) as Hsame by lra.
      split; [done|].
      unfold py_max. destruct (Qle_bool (bid - second_price) 0.0) eqn:E2; [reflexivity|].
      apply Qle_bool_false in E2. lra.
  - apply Qle_bool_false in Hle. split; [intros H; lra|].
    intros _. split; [reflexivity|].
    unfold py_max. destruct (Qle_bool (bid - bid) 0.0) eqn:E2; [reflexivity|].
    apply Qle_bool_false in E2. lra.
Qed.

Lemma second_price_or_cap_witness :
  ∃ a w', ADX.run_auction plain_adx [bid_a; bid_b] None quiet_world = Returns (Some a) w' ∧
          actual_paid_price a
            = (second_highest_ecpm a + 0.01) / (1000 * winner_pctr a * winner_pcvr a) ∧
          0 < saved_amount a.
Proof.
  destruct (returns_some (ADX.run_auction plain_adx [bid_a; bid_b] None quiet_world)
              (λ a, has_competition a = true ∧ actual_paid_price a < winner_bid a))
    as (a & w' & Hrun & Hcomp & Hlt).
  { vm_compute. split; reflexivity. }
  exists a, w'. split; [exact Hrun|].
  exact (proj1 (second_price_or_cap plain_adx [bid_a; bid_b] None quiet_world w' a
                  Hrun Hcomp) Hlt).
Defined.

(** ** The quality adjustment *)

(** X14. Every listed bid stores its quality factor q, the adjusted eCPM
    price × pCTR × pCVR × q × 1000 and the original eCPM
    price × pCTR × pCVR × 1000; the result reports the two eCPMs stored on
    the winner.  For submitted bids without a factor of their own and with a
    price and rates that are not negative, the factor lies in [0, 1] and the
    adjusted eCPM between 0 and the original one. *)
Theorem quality_factor_caps_ecpm (adx : ADX.t) (bids : list Bid) (req : option AdRequest)
    (w w' : World) (a : AuctionResult) :
  ADX.run_auction adx bids req w = Returns (Some a) w' →
  Forall (λ b, ∃ q,
            let product :=
              get_num b "bid_price" 0 * get_num b "pctr" 0.001 * get_num b "pcvr" 0.01 in
            num b !! "q_factor" = Some q ∧
            num b !! "ecpm" = Some (product * q * 1000) ∧
            num b !! "original_ecpm" = Some (product * 1000)) (all_bids a) ∧
  winner_ecpm a = get_num (winner a) "ecpm" 0 ∧
  original_ecpm a = get_num (winner a) "original_ecpm" 0 ∧
  (Forall (λ b, num b !! "q_factor" = None ∧ 0 <= get_num b "bid_price" 0 ∧
                0 <= get_num b "pctr" 0.001 ∧ 0 <= get_num b "pcvr" 0.01) bids →
   Forall (λ b, 0 <= get_num b "q_factor" 1.0 ∧ get_num b "q_factor" 1.0 <= 1 ∧
                0 <= get_num b "ecpm" 0 ∧
                get_num b "ecpm" 0 <= get_num b "original_ecpm" 0) (all_bids a) ∧
   0 <= winner_ecpm a ∧ winner_ecpm a <= original_ecpm a).
Proof.
  intros Hrun. destruct bids as [|b bs]; [discriminate|].
  destruct (run_auction_settles adx b bs req w) as (bids' & w1 & _ & Hrated & Heq).
  rewrite Heq in Hrun.
  assert (Forall (λ b, ∃ q,
                    let product :=
                      get_num b "bid_price" 0 * get_num b "pctr" 0.001
                      * get_num b "pcvr" 0.01 in
                    num b !! "q_factor" = Some q ∧
                    num b !! "ecpm" = Some (product * q * 1000) ∧
                    num b !! "original_ecpm" = Some (product * 1000))
                 (sorted_by_ecpm bids')) as Hstored.
  { apply sorted_by_ecpm_Forall.
    eapply Forall2_Forall_transfer with (P := λ _, True);
      [|by apply Forall_true|exact Hrated].
    intros x y _ (q & -> & _). exists q. cbv zeta.
    destruct (rated_fields x q) as (-> & _ & -> & -> & _).
    unfold rated; simpl. by simplify_map_eq. }
  assert (all_bids a = sorted_by_ecpm bids' ∧
          sorted_by_ecpm bids' = winner a :: tl (sorted_by_ecpm bids') ∧
          winner_ecpm a = get_num (winner a) "ecpm" 0 ∧
          original_ecpm a = get_num (winner a) "original_ecpm" (get_num (winner a) "ecpm" 0))
    as (Hall & Hhead & Hwe & Hoe).
  { destruct (sorted_by_ecpm bids') as [|win [|second rest]]; [discriminate| |].
    - rewrite settle_single in Hrun. cbv zeta in Hrun. by inversion Hrun.
    - rewrite settle_competition in Hrun. cbv zeta in Hrun.
      destruct (Qeq_bool _ 0); [discriminate|]. by inversion Hrun. }
  assert (original_ecpm a = get_num (winner a) "original_ecpm" 0) as Hoe0.
  { rewrite Hhead in Hstored. inversion Hstored as [|? ? (q & _ & _ & Horig) _].
    cbv zeta in Horig. rewrite Hoe. unfold get_num at 1 3. by rewrite Horig. }
  split; [by rewrite Hall|]. split; [done|]. split; [done|].
  intros Hfresh.
  assert (Forall (λ b, 0 <= get_num b "q_factor" 1.0 ∧ get_num b "q_factor" 1.0 <= 1 ∧
                       0 <= get_num b "ecpm" 0 ∧
                       get_num b "ecpm" 0 <= get_num b "original_ecpm" 0)
                 (sorted_by_ecpm bids')) as Hbounded.
  { apply sorted_by_ecpm_Forall.
    eapply Forall2_Forall_transfer; [|exact Hfresh|exact Hrated].
    intros x y (Hnone & Hp & Hc & Hv) (q & -> & Hq).
    destruct Hq as [Hq | (_ & Hq0 & Hq1)]; [congruence|].
    unfold rated, get_num; simpl. simplify_map_eq. simpl.
    fold (get_num x "bid_price" 0) (get_num x "pctr" 0.001) (get_num x "pcvr" 0.01).
    set (p := get_num x "bid_price" 0) in *. set (c := get_num x "pctr" 0.001) in *.
    set (v := get_num x "pcvr" 0.01) in *.
    assert (0 <= p * c * v) as Hpcv by (repeat apply Qmult_le_0_compat; done).
    set (e := p * c * v) in *.
    assert (0 <= e * q) by (apply Qmult_le_0_compat; done).
    assert (0 <= e * (1 - q)) by (apply Qmult_le_0_compat; lra).
    repeat split; try done; lra. }
  split; [by rewrite Hall|].
  rewrite Hwe, Hoe0. rewrite Hhead in Hbounded.
  by inversion Hbounded as [|? ? (_ & _ & ? & ?) _].
Qed.

Lemma quality_factor_caps_ecpm_witness :
  ∃ a w', ADX.run_auction plain_adx [bid_a; bid_b] None quiet_world = Returns (Some a) w' ∧
          winner_ecpm a = get_num (winner a) "ecpm" 0 ∧
          original_ecpm a = get_num (winner a) "original_ecpm" 0.
Proof.
  destruct (returns_some (ADX.run_auction plain_adx [bid_a; bid_b] None quiet_world)
              (λ _, True)) as (a & w' & Hrun & _).
  { vm_compute. exact I. }
  exists a, w'. split; [exact Hrun|].
  destruct (quality_factor_caps_ecpm plain_adx [bid_a; bid_b] None quiet_world w' a Hrun)
    as (_ & Hwe & Hoe & _).
  split; [exact Hwe|exact Hoe].
Defined.

(** ** Bidding *)

Lemma always_estimate_pcvr (r : AdRequest) :
  always (SKANOptimizer.estimate_pcvr_from_skan r) (λ _, True).
Proof.
  unfold SKANOptimizer.estimate_pcvr_from_skan. cbv zeta.
  destruct (negb _); [by apply always_ret|].
  eapply always_bind; [apply always_sample_conversion_value|]. intros cv _.
  repeat step. by apply always_ret.
Qed.

Lemma always_get_multiplier (r : AdRequest) :
  always (CTRBasedBiddingStrategy.get_multiplier r) (λ m, 1 <= m ∧ m <= 1.38).
Proof.
  unfold CTRBasedBiddingStrategy.get_multiplier. cbv zeta.
  step. apply always_ret.
  destruct (bool_decide _), (_ || _); split; vm_compute; discriminate.
Qed.

Lemma always_calculate_bid (base_price : Q) (r : AdRequest) :
  always (CTRBasedBiddingStrategy.calculate_bid base_price r)
         (λ bid, ∃ m, 1 <= m ∧ m <= 1.38 ∧
                      bid = base_price * default 0.5 (req_num r !! "ctr_score") * m).
Proof.
  unfold CTRBasedBiddingStrategy.calculate_bid. cbv zeta.
  eapply always_bind; [apply always_get_multiplier|]. intros m [Hm0 Hm1].
  repeat step. apply always_ret. by exists m.
Qed.

(** X15. [DSP.bid] never raises.  It keeps the text and the size of
    the request and writes the click rate (its first draw), the conversion
    rate, the CTR score and the bid price.  The score is at most 1.16, the
    multiplier of the strategy lies in [1, 1.38], and the bid price is
    base price × score × multiplier: between 0 and 1.6 times the base
    price when base price and click rate are not negative. *)
Theorem dsp_bid_is_bounded (base_price : Q) (r : AdRequest) (skan_optimizer : bool)
    (w : World) :
  ∃ r' w' pctr pcvr ctr_score bid_price multiplier,
    DSP.bid base_price r skan_optimizer w = Returns r' w' ∧
    req_text r' = req_text r ∧ req_ad_size r' = req_ad_size r ∧
    req_num r' !! "pctr" = Some pctr ∧ req_num r' !! "pcvr" = Some pcvr ∧
    req_num r' !! "ctr_score" = Some ctr_score ∧
    req_num r' !! "bid_price" = Some bid_price ∧
    pctr = rand_float w (tick w) ∧
    ctr_score <= 1.16 ∧ (0 <= pctr → 0 <= ctr_score) ∧
    1 <= multiplier ∧ multiplier <= 1.38 ∧
    bid_price = base_price * ctr_score * multiplier ∧
    (0 <= base_price → 0 <= pctr →
     0 <= bid_price ∧ bid_price <= 1.6 * base_price).
Proof.
  unfold DSP.bid. cbv zeta. unfold bind at 1, random at 1. cbv beta iota.
  set (pctr := rand_float w (tick w)).
  match goal with
  | |- context [?c (set_tick _ _) = Returns _ _] =>
      assert (always c
                (λ r', ∃ pcvr ctr_score bid_price multiplier,
                   req_text r' = req_text r ∧ req_ad_size r' = req_ad_size r ∧
                   req_num r' !! "pctr" = Some pctr ∧
                   req_num r' !! "pcvr" = Some pcvr ∧
                   req_num r' !! "ctr_score" = Some ctr_score ∧
                   req_num r' !! "bid_price" = Some bid_price ∧
                   ctr_score <= 1.155 ∧ (0 <= pctr → 0 <= ctr_score) ∧
                   1 <= multiplier ∧ multiplier <= 1.38 ∧
                   bid_price = base_price * ctr_score * multiplier)) as Hrest
  end.
  { eapply always_bind with (Q := λ _, True).
    { destruct (_ && _); [|apply always_random].
      eapply always_bind; [apply always_estimate_pcvr|]. intros [[pcvr|] d] _;
        [by apply always_ret|apply always_random]. }
    intros pcvr _. step.
    match goal with
    | |- context [set_num "ctr_score" ?s _] => set (score := s)
    end.
    assert (score <= 1.155 ∧ (0 <= pctr → 0 <= score)) as [Hs1 Hs0].
    { subst score. pose proof (py_min_le_r (pctr / 0.05) 1.0) as Hle.
      assert (0 <= pctr → 0 <= py_min (pctr / 0.05) 1.0) as Hge.
      { intros H. apply py_min_glb; [|lra]. apply Qle_shift_div_l; lra. }
      set (base := py_min (pctr / 0.05) 1.0) in *.
      destruct (_ || _), (bool_decide (upper (get_text r "platform") = "IOS")),
        (bool_decide (upper (get_text r "platform") = "ANDROID"));
        (split; [lra|intros H; specialize (Hge H); lra]). }
    step.
    eapply always_bind; [apply always_calculate_bid|].
    intros bid (m & Hm0 & Hm1 & Hbid). step. apply always_ret.
    exists pcvr, score, bid, m. simpl.
    split; [done|]. split; [done|].
    split; [by simplify_map_eq|]. split; [by simplify_map_eq|].
    split; [by simplify_map_eq|]. split; [by simplify_map_eq|].
    repeat (split; [done|]). rewrite Hbid. simpl. by simplify_map_eq. }
  destruct (Hrest (set_tick (S (tick w)) w))
    as (r' & w' & Hrun & pcvr & score & bid & m & H1 & H2 & H3 & H4 & H5 & H6 & H7 & H8 &
        H9 & H10 & H11).
  exists r', w', pctr, pcvr, score, bid, m. rewrite Hrun.
  do 8 (split; [done|]). split; [lra|].
  repeat (split; [done|]).
  intros Hb Hp. specialize (H8 Hp). rewrite H11.
  assert (0 <= base_price * score) by (apply Qmult_le_0_compat; done).
  assert (0 <= base_price * (1.155 - score)) by (apply Qmult_le_0_compat; lra).
  assert (0 <= base_price * score * (m - 1)) by (apply Qmult_le_0_compat; lra).
  assert (0 <= base_price * score * (1.38 - m)) by (apply Qmult_le_0_compat; lra).
  split; nra.
Qed.

(** ** The stages of the pipeline *)

Lemma always_dsp_bid (base_price : Q) (r : AdRequest) (skan_optimizer : bool) :
  always (DSP.bid base_price r skan_optimizer) (λ _, True).
Proof.
  unfold DSP.bid, CTRBasedBiddingStrategy.calculate_bid,
    CTRBasedBiddingStrategy.get_multiplier. cbv zeta.
  step. eapply always_bind with (Q := λ _, True).
  { destruct (_ && _); [|apply always_random].
    eapply always_bind; [apply always_estimate_pcvr|]. intros [[pcvr|] d] _;
      [by apply always_ret|apply always_random]. }
  intros pcvr _. do 2 step.
  eapply always_bind with (Q := λ _, True).
  { eapply always_bind with (Q := λ _, True).
    - step. by apply always_ret.
    - intros m _. repeat step. by apply always_ret. }
  intros bid _. step. by apply always_ret.
Qed.

Lemma always_collect_bids (e : AdExchangeEngine.t) (r : AdRequest) (request_id : string)
    (floor_price : Q) (i num_dsps : nat) :
  always (AdExchangeEngine.collect_bids e r request_id floor_price i num_dsps) (λ _, True).
Proof.
  revert i. induction num_dsps as [|n IH]; intros i; simpl; [by apply always_ret|].
  eapply always_bind with (Q := λ _, True).
  - destruct (AdExchangeEngine.dsp e); [|by apply always_ret].
    eapply always_bind; [apply always_dsp_bid|]. intros r' _. by apply always_ret.
  - intros mine _. eapply always_bind; [apply IH|]. intros others _. by apply always_ret.
Qed.

Lemma always_recent (touches : list Touch) :
  always (InternalOpportunityManager.recent touches) (λ _, True).
Proof.
  induction touches as [|t ts IH]; simpl; [by apply always_ret|].
  step. eapply always_bind; [apply IH|]. intros kept _. by apply always_ret.
Qed.

Lemma always_collect (e : AdExchangeEngine.t) (up : Upstream)
    (request_id device_id app_id app_name platform : string) (ad_size : Z * Z)
    (num_dsps : nat) :
  always (AdExchangeEngine.collect e up request_id device_id app_id app_name platform
            ad_size num_dsps) (λ _, True).
Proof.
  unfold AdExchangeEngine.collect, SSP.generate_request,
    InternalOpportunityManager.estimate_search_value,
    InternalOpportunityManager.estimate_push_value,
    InternalOpportunityManager.get_user_touch_history. cbv zeta.
  eapply always_bind with (Q := λ _, True).
  { step. eapply always_bind with (Q := λ _, True).
    - destruct (bool_decide _); [|by apply always_ret]. step. by apply always_ret.
    - intros postback _. repeat step. by apply always_ret. }
  intros req _.
  eapply always_bind; [apply always_collect_bids|]. intros bids _.
  eapply always_bind with (Q := λ _, True).
  { eapply always_bind with (Q := λ _, True).
    - step. by apply always_ret.
    - intros hist _. step. by apply always_ret. }
  intros ev_s _.
  eapply always_bind with (Q := λ _, True).
  { eapply always_bind with (Q := λ _, True).
    - step. by apply always_ret.
    - intros hist _. eapply always_bind; [apply always_recent|]. intros kept _.
      step. by apply always_ret. }
  intros ev_p _. step. by apply always_ret.
Qed.

Lemma generate_request_latency (request_id device_id app_id app_name platform : string)
    (ad_size : Z * Z) (w w1 : World) (req : AdRequest) :
  SSP.generate_request request_id device_id app_id app_name platform ad_size w
    = Returns req w1 →
  req_num req !! "latency_ms" = Some (rand_float w (tick w)) ∧
  get_text req "device_id" = device_id ∧ get_text req "app_id" = app_id ∧
  get_text req "platform" = platform ∧ req_ad_size req = Some ad_size.
Proof.
  destruct w as [ri rf ck tk lg ips ccs hd uth].
  unfold SSP.generate_request. run_prims.
  destruct (bool_decide _); run_prims; intros [= <- _]; unfold get_text; simpl;
    repeat split; by simplify_map_eq.
Qed.

(** What a collection holds. *)
Lemma collect_inv (e : AdExchangeEngine.t) (up : Upstream)
    (request_id device_id app_id app_name platform : string) (ad_size : Z * Z)
    (num_dsps : nat) (w w0 : World) (c : Collected) :
  AdExchangeEngine.collect e up request_id device_id app_id app_name platform ad_size
    num_dsps w = Returns c w0 →
  latency_ms c = rand_float w (tick w) ∧
  organic_ltv_adjusted c
    = organic_ltv up * AdExchangeEngine.lifecycle_multiplier (lifecycle_stage up) ∧
  get_text (ad_request c) "device_id" = device_id ∧
  get_text (ad_request c) "app_id" = app_id ∧
  req_ad_size (ad_request c) = Some ad_size ∧
  ∃ req w1 w2,
    AdExchangeEngine.collect_bids e req request_id 0.1 0 num_dsps w1
      = Returns (collected_bids c) w2.
Proof.
  unfold AdExchangeEngine.collect. intros H.
  apply bind_returns in H. destruct H as (req & w1 & Hreq & H).
  apply generate_request_latency in Hreq.
  destruct Hreq as (Hlat & Hdev & Happ & Hplat & Hsize).
  cbv zeta in H.
  apply bind_returns in H. destruct H as (bids & w2 & Hbids & H).
  apply bind_returns in H. destruct H as (evs & w3 & _ & H).
  apply bind_returns in H. destruct H as (evp & w4 & _ & H).
  apply bind_returns in H. destruct H as (? & w5 & _ & H).
  inversion H; subst; clear H. simpl.
  split; [by simplify_map_eq|]. split; [done|].
  repeat (split; [done|]). by eexists _, _, _.
Qed.

Lemma Qlt_bool_true (a b : Q) : Qlt_bool a b = true → a < b.
Proof.
  unfold Qlt_bool. destruct (Qle_bool b a) eqn:E; [done|]. intros _.
  by apply Qle_bool_false.
Qed.

Lemma Qlt_bool_false (a b : Q) : Qlt_bool a b = false → b <= a.
Proof.
  unfold Qlt_bool. destruct (Qle_bool b a) eqn:E; [|done]. intros _.
  by apply Qle_bool_iff.
Qed.

Lemma apply_rejection_code (f : FilterRule) (r : AdRequest) (w w' : World)
    (rc : string) (vars : list (string * Q)) :
  apply f r w = Returns (false, rc, vars) w' → rc = rejection_code f.
Proof.
  destruct f; unfold apply, bind, randint, random, log_decision, ret; cbv zeta; simpl.
  - destruct (Qle_bool _ _); by intros [= <- _ _].
  - destruct (_ || _); by intros [= <- _ _].
  - destruct (bool_decide _); by intros [= <- _ _].
  - destruct (_ <=? _)%Z; [by intros [= <- _ _]|].
    destruct (estimate_potential r). by intros [= <- _ _].
  - destruct (Qle_bool _ _); simpl; [|by intros [= <- _ _]].
    destruct (estimate_potential r). by intros [= <- _ _].
  - destruct (Qle_bool _ _); by intros [= <- _ _].
Qed.

Lemma always_apply (f : FilterRule) (r : AdRequest) : always (apply f r) (λ _, True).
Proof.
  intros w.
  destruct f; unfold apply, bind, randint, random, log_decision, ret; cbv zeta; simpl.
  - destruct (Qle_bool _ _); by eexists _, _.
  - destruct (_ || _); by eexists _, _.
  - destruct (bool_decide _); by eexists _, _.
  - destruct (_ <=? _)%Z; [by eexists _, _|].
    destruct (estimate_potential r). by eexists _, _.
  - destruct (Qle_bool _ _); simpl; [|by eexists _, _].
    destruct (estimate_potential r). by eexists _, _.
  - destruct (Qle_bool _ _); by eexists _, _.
Qed.

(** The chain answers, with a pass or with the code of one of its filters. *)
Lemma apply_filters_answer (fs : list FilterRule) (n : nat) (r : AdRequest) :
  always (ADX.apply_filters fs n r)
    (λ res, res = (true, "ALL_FILTERS_PASSED") ∨
            ∃ f, f ∈ fs ∧ res = (false, rejection_code f)).
Proof.
  induction fs as [|f fs IH]; intros w; simpl.
  - eexists _, _. split; [reflexivity|]. by left.
  - destruct (always_apply f r w) as ([[passed rc] vars] & w1 & Happ & _).
    unfold bind at 1. rewrite Happ. cbv beta iota. destruct passed.
    + destruct (IH w1) as (res & w' & Hrun & [-> | (g & Hg & ->)]).
      * eexists _, _. split; [done|]. by left.
      * eexists _, _. split; [done|]. right. exists g. split; [by right|done].
    + eexists _, _. split; [reflexivity|]. right. exists f. split; [by left|].
      by rewrite (apply_rejection_code f r w w1 rc vars Happ).
Qed.

Lemma process_request_answer (adx : ADX.t) (r : AdRequest) :
  always (ADX.process_request adx r)
    (λ res, res = (true, "ALL_FILTERS_PASSED") ∨
            ∃ f, f ∈ ADX.filters adx ∧ res = (false, rejection_code f)).
Proof.
  unfold ADX.process_request. step. apply apply_filters_answer.
Qed.

Lemma max_estimated_ecpm_nonneg (bids : list Bid) :
  0 <= AdExchangeEngine.max_estimated_ecpm bids.
Proof.
  unfold AdExchangeEngine.max_estimated_ecpm.
  assert (∀ m, 0 <= m →
            0 <= foldl (λ m b, py_max m (AdExchangeEngine.estimated_ecpm b)) m bids) as H.
  { induction bids as [|b bids IH]; intros m Hm; simpl; [done|].
    apply IH. pose proof (py_max_ge_l m (AdExchangeEngine.estimated_ecpm b)). lra. }
  apply H. lra.
Qed.

(** The branches of [decide], by what selects them. *)
Lemma decide_cases (e : AdExchangeEngine.t) (c : Collected) (w w' : World) (r : Result) :
  AdExchangeEngine.decide e c w = Returns r w' →
  (100 < latency_ms c ∧ AdExchangeEngine.latency_reject c w = Returns r w') ∨
  (latency_ms c <= 100 ∧ collected_bids c = [] ∧
   r = AdExchangeEngine.rejected "NO_VALID_BIDS" 0 ∧ w' = w) ∨
  (latency_ms c <= 100 ∧
   ∃ first rest f,
     collected_bids c = first :: rest ∧ f ∈ ADX.filters (AdExchangeEngine.adx e) ∧
     r = AdExchangeEngine.rejected (rejection_code f)
           (get_num (AdExchangeEngine.highest_bid first rest) "bid_price" 0)) ∨
  (∃ w1, admitted e c w w1 ∧
         0 < max_ad_value c ∧ max_ad_value c <= organic_ltv_adjusted c ∧
         AdExchangeEngine.serve_search c
           (AdExchangeEngine.max_estimated_ecpm (collected_bids c)) (max_ad_value c) w1
         = Returns r w') ∨
  (∃ w1, admitted e c w w1 ∧
         (max_ad_value c <= 0 ∨ organic_ltv_adjusted c < max_ad_value c) ∧
         AdExchangeEngine.clear_and_serve e c w1 = Returns r w').
Proof.
  intros H.
  destruct (Qlt_bool AdExchangeEngine.TIMEOUT_THRESHOLD (latency_ms c)) eqn:Hlat.
  { left. unfold AdExchangeEngine.decide in H. rewrite Hlat in H.
    split; [|done]. by apply Qlt_bool_true in Hlat. }
  right. pose proof (Qlt_bool_false _ _ Hlat) as Hle.
  unfold AdExchangeEngine.TIMEOUT_THRESHOLD in Hle.
  destruct (collected_bids c) as [|first rest] eqn:Hbids.
  { left. unfold AdExchangeEngine.decide in H. rewrite Hlat, Hbids in H.
    inversion H. done. }
  right.
  destruct (process_request_answer (AdExchangeEngine.adx e)
              (set_num "bid_price"
                 (get_num (AdExchangeEngine.highest_bid first rest) "bid_price" 0)
                 (ad_request c)) w) as (res & w1 & Hreq & Hres).
  destruct Hres as [-> | (f & Hf & ->)].
  - right. rewrite <- Hbids.
    assert (admitted e c w w1) as Hadm.
    { split; [done|]. by exists first, rest, "ALL_FILTERS_PASSED"%string. }
    rewrite (decide_admitted e c w w1 Hadm) in H.
    destruct (Qle_bool _ _) eqn:E1; simpl in H.
    + unfold Qlt_bool in H. destruct (Qle_bool (max_ad_value c) 0) eqn:E2; simpl in H.
      * right. exists w1. apply Qle_bool_iff in E2. split; [done|]. split; [by left|done].
      * left. exists w1. apply Qle_bool_false in E2. apply Qle_bool_iff in E1. done.
    + right. exists w1. apply Qle_bool_false in E1. split; [done|]. split; [by right|done].
  - left. split; [done|]. exists first, rest, f. split; [done|]. split; [done|].
    unfold AdExchangeEngine.decide in H. rewrite Hlat, Hbids in H. cbv zeta in H.
    unfold bind at 1 in H. rewrite Hreq in H. simpl in H. by inversion H.
Qed.

Lemma run_auction_inv (e : AdExchangeEngine.t) (up : Upstream)
    (request_id device_id app_id app_name platform : string) (ad_size : Z * Z)
    (num_dsps : nat) (w w' : World) (r : Result) :
  AdExchangeEngine.run_auction e up request_id device_id app_id app_name platform
    ad_size num_dsps w = Returns r w' →
  ∃ c w0,
    AdExchangeEngine.collect e up request_id device_id app_id app_name platform
      ad_size num_dsps w = Returns c w0 ∧
    AdExchangeEngine.decide e c w0 = Returns r w'.
Proof. unfold AdExchangeEngine.run_auction. apply bind_returns. Qed.

(** X16. A request whose latency, the first draw of the SSP, is above
    100 ms is always rejected as LATENCY_TIMEOUT, with a bid price of 0 and
    no selected path.  The potential loss it reports is strictly
    positive: it is the highest estimated eCPM of the collected bids
    whenever that is not zero, and 0.5 when it is zero.  The one record written after the collection stage is the
    LATENCY_CHECK rejection, so neither the filter chain nor the auction
    has run. *)
Theorem slow_request_is_rejected (e : AdExchangeEngine.t) (up : Upstream)
    (request_id device_id app_id app_name platform : string) (ad_size : Z * Z)
    (num_dsps : nat) (w : World) :
  100 < rand_float w (tick w) →
  ∃ r w' c w0 p record,
    AdExchangeEngine.run_auction e up request_id device_id app_id app_name platform
      ad_size num_dsps w = Returns r w' ∧
    r = mkResult "REJECTED" "LATENCY_TIMEOUT" 0 None None None None None None None None
          (Some p) None ∧
    0 < p ∧
    (¬ AdExchangeEngine.max_estimated_ecpm (collected_bids c) == 0 →
     p = AdExchangeEngine.max_estimated_ecpm (collected_bids c)) ∧
    (AdExchangeEngine.max_estimated_ecpm (collected_bids c) == 0 → p == 0.5) ∧
    AdExchangeEngine.collect e up request_id device_id app_id app_name platform
      ad_size num_dsps w = Returns c w0 ∧
    log_file w' = log_file w0 ++ [record] ∧
    action record = "LATENCY_CHECK" ∧ decision record = "REJECT" ∧
    reason_code record = "LATENCY_TIMEOUT" ∧ eCPM record = Some p.
Proof.
  intros Hslow.
  destruct (always_collect e up request_id device_id app_id app_name platform ad_size
              num_dsps w) as (c & w0 & Hc & _).
  destruct (collect_inv _ _ _ _ _ _ _ _ _ _ _ _ Hc) as (Hlat & _).
  assert (Qlt_bool AdExchangeEngine.TIMEOUT_THRESHOLD (latency_ms c) = true) as Hb.
  { unfold Qlt_bool, AdExchangeEngine.TIMEOUT_THRESHOLD. rewrite Hlat.
    destruct (Qle_bool _ _) eqn:E; [|done]. apply Qle_bool_iff in E. lra. }
  unfold AdExchangeEngine.run_auction, bind at 1. rewrite Hc.
  unfold AdExchangeEngine.decide. rewrite Hb.
  unfold AdExchangeEngine.latency_reject, bind, log_decision, ret. cbv zeta.
  pose proof (max_estimated_ecpm_nonneg (collected_bids c)) as Hnn.
  destruct (Qeq_bool (AdExchangeEngine.max_estimated_ecpm (collected_bids c)) 0.0) eqn:E.
  - eexists _, _, c, w0, _, _. split; [reflexivity|]. simpl.
    change (Qeq_bool (0.5 * 0.02 * 0.05 * 1.0 * 1000) 0.0) with false. cbv iota.
    change (Qeq_bool (0.5 * 0.02 * 0.05 * 1.0 * 1000) 0.0) with false. cbv iota.
    apply Qeq_bool_iff in E.
    split; [reflexivity|]. split; [reflexivity|].
    split; [intros Hne; exfalso; apply Hne; rewrite E; reflexivity|].
    split; [intros _; reflexivity|]. done.
  - assert (¬ AdExchangeEngine.max_estimated_ecpm (collected_bids c) == 0.0) as Hne.
    { intros Heq. apply Qeq_bool_iff in Heq. congruence. }
    eexists _, _, c, w0, _, _. split; [reflexivity|]. simpl. rewrite E.
    split; [reflexivity|]. split; [lra|].
    split; [intros _; reflexivity|].
    split; [intros Hz; exfalso; apply Hne; rewrite Hz; reflexivity|]. done.
Qed.

Lemma slow_request_is_rejected_witness :
  ∃ r w',
    AdExchangeEngine.run_auction sample_engine no_organic_value "req_1" "device_002" "app_002"
      "App" "Android" (320, 50)%Z 3 slow_world = Returns r w' ∧
    reason r = "LATENCY_TIMEOUT"%string ∧ ∃ p, potential_loss r = Some p ∧ 0 < p.
Proof.
  assert (100 < rand_float slow_world (tick slow_world)) as Hslow by (vm_compute; reflexivity).
  destruct (slow_request_is_rejected sample_engine no_organic_value "req_1" "device_002"
              "app_002" "App" "Android" (320, 50)%Z 3 slow_world Hslow)
    as (r & w' & c & w0 & p & record & Hrun & Hr & Hp & _).
  exists r, w'. split; [exact Hrun|]. rewrite Hr. split; [reflexivity|].
  exists p. split; [reflexivity|exact Hp].
Defined.

(** ** Collected bids *)

Lemma collect_bids_shape (e : AdExchangeEngine.t) (r : AdRequest)
    (request_id : string) (floor_price : Q) (num_dsps i : nat) (w w' : World)
    (bids : list Bid) :
  AdExchangeEngine.collect_bids e r request_id floor_price i num_dsps w = Returns bids w' →
  (length bids ≤ num_dsps)%nat ∧
  (AdExchangeEngine.dsp e = None → bids = []) ∧
  ∃ ks, dsp_id <$> bids = dsp_name <$> ks ∧
        StronglySorted lt ks ∧ Forall (λ k, i < k ≤ i + num_dsps)%nat ks.
Proof.
  revert i w w' bids. induction num_dsps as [|n IH]; intros i w w' bids H.
  - inversion H. split; [done|]. split; [done|]. exists []. repeat split; constructor.
  - simpl in H. apply bind_returns in H. destruct H as (mine & w1 & Hmine & H).
    apply bind_returns in H. destruct H as (others & w2 & Hothers & H).
    inversion H; subst.
    destruct (IH _ _ _ _ Hothers) as (Hlen & Hnone & ks & Hnames & Hsorted & Hrange).
    assert (Forall (λ k, i < k ≤ i + S n)%nat ks) as Hrange'.
    { eapply Forall_impl; [exact Hrange|]. simpl. lia. }
    assert (mine = [] ∨
            ∃ b, mine = [b] ∧ dsp_id b = dsp_name (i + 1) ∧ is_Some (AdExchangeEngine.dsp e))
      as [-> | (b & -> & Hb & Hdsp)].
    { destruct (AdExchangeEngine.dsp e) as [base_price|]; [|inversion Hmine; by left].
      apply bind_returns in Hmine. destruct Hmine as (dsp_request & w3 & _ & Hmine).
      inversion Hmine; subst. destruct (Qle_bool floor_price _); [|by left].
      right. by eexists. }
    + split; [simpl; lia|]. split; [done|]. by exists ks.
    + split; [simpl; lia|]. split.
      { intros Hn. rewrite Hn in Hdsp. by destruct Hdsp. }
      exists ((i + 1)%nat :: ks). change ([b] ++ others) with (b :: others).
      rewrite !fmap_cons, Hb, Hnames. split; [done|]. split.
      * constructor; [done|]. eapply Forall_impl; [exact Hrange|]. simpl. lia.
      * constructor; [lia|done].
Qed.

Lemma collect_bids_fields (e : AdExchangeEngine.t) (r : AdRequest)
    (request_id : string) (floor_price : Q) (num_dsps i : nat) (w w' : World)
    (bids : list Bid) :
  AdExchangeEngine.collect_bids e r request_id floor_price i num_dsps w = Returns bids w' →
  Forall (λ b, dom (num b) = {["bid_price"; "pctr"; "pcvr"; "floor_price"]} ∧
               num b !! "floor_price" = Some floor_price) bids.
Proof.
  revert i w w' bids. induction num_dsps as [|n IH]; intros i w w' bids H.
  - inversion H. constructor.
  - simpl in H. apply bind_returns in H. destruct H as (mine & w1 & Hmine & H).
    apply bind_returns in H. destruct H as (others & w2 & Hothers & H).
    inversion H; subst. apply Forall_app. split; [|by eapply IH].
    destruct (AdExchangeEngine.dsp e) as [base_price|]; [|inversion Hmine; constructor].
    apply bind_returns in Hmine. destruct Hmine as (dsp_request & w3 & _ & Hmine).
    inversion Hmine; subst.
    destruct (Qle_bool floor_price _) eqn:E; [|constructor].
    constructor; [|constructor]. simpl. split; [|by simplify_map_eq].
    rewrite !dom_insert_L, dom_empty_L. set_solver.
Qed.

Lemma collect_bids_of (e : AdExchangeEngine.t) (up : Upstream)
    (request_id device_id app_id app_name platform : string) (ad_size : Z * Z)
    (num_dsps : nat) (w w0 : World) (c : Collected) :
  AdExchangeEngine.collect e up request_id device_id app_id app_name platform ad_size
    num_dsps w = Returns c w0 →
  ∃ req w1 w2,
    AdExchangeEngine.collect_bids e req request_id 0.1 0 num_dsps w1
      = Returns (collected_bids c) w2.
Proof. intros H. by destruct (collect_inv _ _ _ _ _ _ _ _ _ _ _ _ H) as (_ & _ & _ & _ & _ & ?). Qed.

(** X17. The bids the pipeline collects: at most one per DSP, named
    DSP_k with k increasing within 1..num_dsps, each with a price of at
    least the floor 0.1, the floor recorded on it, and exactly the four
    numeric entries bid_price, pctr, pcvr and floor_price; and none at all
    when the engine has no DSP. *)
Theorem collected_bids_are_floor_checked (e : AdExchangeEngine.t) (up : Upstream)
    (request_id device_id app_id app_name platform : string) (ad_size : Z * Z)
    (num_dsps : nat) (w w0 : World) (c : Collected) :
  AdExchangeEngine.collect e up request_id device_id app_id app_name platform ad_size
    num_dsps w = Returns c w0 →
  (length (collected_bids c) ≤ num_dsps)%nat ∧
  (AdExchangeEngine.dsp e = None → collected_bids c = []) ∧
  (∃ ks, dsp_id <$> collected_bids c = dsp_name <$> ks ∧
         StronglySorted lt ks ∧ Forall (λ k, 1 ≤ k ≤ num_dsps)%nat ks) ∧
  Forall (λ b, 0.1 <= get_num b "bid_price" 0 ∧
               num b !! "floor_price" = Some 0.1 ∧
               dom (num b) = {["bid_price"; "pctr"; "pcvr"; "floor_price"]})
         (collected_bids c).
Proof.
  intros H. destruct (collect_bids_of _ _ _ _ _ _ _ _ _ _ _ _ H) as (req & w1 & w2 & Hb).
  destruct (collect_bids_shape _ _ _ _ _ _ _ _ _ Hb) as (Hlen & Hnone & ks & Hn & Hs & Hr).
  split; [done|]. split; [done|]. split.
  - exists ks. split; [done|]. split; [done|].
    eapply Forall_impl; [exact Hr|]. simpl. lia.
  - pose proof (collect_bids_reach_floor _ _ _ _ _ _ _ _ _ Hb) as Hfloor.
    pose proof (collect_bids_fields _ _ _ _ _ _ _ _ _ Hb) as Hfields.
    rewrite Forall_forall in Hfloor, Hfields. apply Forall_forall. intros b Hin.
    destruct (Hfields b Hin). split; [by apply Hfloor|done].
Qed.

Lemma collected_bids_are_floor_checked_witness :
  ∃ c w0,
    AdExchangeEngine.collect sample_engine no_organic_value "req_1" "device_002" "app_002"
      "App" "Android" (320, 50)%Z 3 steady_world = Returns c w0 ∧
    (length (collected_bids c) ≤ 3)%nat.
Proof.
  destruct (outcome_cases
              (AdExchangeEngine.collect sample_engine no_organic_value "req_1" "device_002"
                 "app_002" "App" "Android" (320, 50)%Z 3 steady_world)
              (λ _ _, True)) as (c & w0 & Hc & _).
  { vm_compute. exact I. }
  exists c, w0. split; [exact Hc|].
  exact (proj1 (collected_bids_are_floor_checked sample_engine no_organic_value "req_1"
                  "device_002" "app_002" "App" "Android" (320, 50)%Z 3 steady_world w0 c Hc)).
Defined.

(** X18. Without a DSP, or with no DSP asked to bid, the pipeline always
    returns a rejection with bid price 0 and no path: NO_VALID_BIDS when
    the latency is within 100 ms, and LATENCY_TIMEOUT with a potential loss
    of 0.5 otherwise. *)
Theorem no_bidder_no_auction (e : AdExchangeEngine.t) (up : Upstream)
    (request_id device_id app_id app_name platform : string) (ad_size : Z * Z)
    (num_dsps : nat) (w : World) :
  AdExchangeEngine.dsp e = None ∨ num_dsps = 0%nat →
  ∃ r w',
    AdExchangeEngine.run_auction e up request_id device_id app_id app_name platform
      ad_size num_dsps w = Returns r w' ∧
    status r = "REJECTED" ∧ selected_path r = None ∧ bid_price r = 0 ∧
    (rand_float w (tick w) <= 100 → r = AdExchangeEngine.rejected "NO_VALID_BIDS" 0) ∧
    (100 < rand_float w (tick w) →
     reason r = "LATENCY_TIMEOUT" ∧ ∃ p, potential_loss r = Some p ∧ p == 0.5).
Proof.
  intros Hno.
  destruct (always_collect e up request_id device_id app_id app_name platform ad_size
              num_dsps w) as (c & w0 & Hc & _).
  destruct (collect_inv _ _ _ _ _ _ _ _ _ _ _ _ Hc) as (Hlat & _).
  assert (collected_bids c = []) as Hempty.
  { destruct (collect_bids_of _ _ _ _ _ _ _ _ _ _ _ _ Hc) as (req & w1 & w2 & Hb).
    destruct (collect_bids_shape _ _ _ _ _ _ _ _ _ Hb) as (Hlen & Hnone & _).
    destruct Hno as [Hno | ->]; [by apply Hnone|].
    destruct (collected_bids c); [done|simpl in Hlen; lia]. }
  unfold AdExchangeEngine.run_auction, bind at 1. rewrite Hc.
  unfold AdExchangeEngine.decide. rewrite Hempty.
  destruct (Qlt_bool _ _) eqn:Hb.
  - apply Qlt_bool_true in Hb. unfold AdExchangeEngine.TIMEOUT_THRESHOLD in Hb.
    rewrite Hlat in Hb.
    unfold AdExchangeEngine.latency_reject, bind, log_decision, ret. cbv zeta.
    rewrite Hempty. eexists _, _. split; [reflexivity|]. simpl.
    repeat (split; [done|]). split; [intros; lra|]. intros _. split; [done|].
    eexists. split; [reflexivity|]. reflexivity.
  - apply Qlt_bool_false in Hb. unfold AdExchangeEngine.TIMEOUT_THRESHOLD in Hb.
    rewrite Hlat in Hb.
    eexists _, _. split; [reflexivity|]. simpl.
    repeat (split; [done|]). intros Hslow. lra.
Qed.

Lemma no_bidder_no_auction_witness :
  ∃ r w',
    AdExchangeEngine.run_auction sample_engine no_organic_value "req_1" "device_002" "app_002"
      "App" "Android" (320, 50)%Z 0 steady_world = Returns r w' ∧
    r = AdExchangeEngine.rejected "NO_VALID_BIDS" 0.
Proof.
  destruct (no_bidder_no_auction sample_engine no_organic_value "req_1" "device_002"
              "app_002" "App" "Android" (320, 50)%Z 0 steady_world (or_intror eq_refl))
    as (r & w' & Hrun & _ & _ & _ & Hquiet & _).
  exists r, w'. split; [exact Hrun|]. apply Hquiet. vm_compute. discriminate.
Defined.

(** The winner of an auction is one of the submitted bids, rated. *)
Lemma auction_winner_origin (adx : ADX.t) (bids : list Bid) (req : option AdRequest)
    (w w' : World) (a : AuctionResult) :
  ADX.run_auction adx bids req w = Returns (Some a) w' →
  ∃ b q, b ∈ bids ∧ winner a = rated b q ∧
         winner_bid a = get_num b "bid_price" 0 ∧
         (length bids = 1%nat →
          actual_paid_price a = py_min (get_num b "floor_price" 0.1) (winner_bid a)).
Proof.
  intros Hrun. destruct bids as [|b0 bs]; [discriminate|].
  destruct (run_auction_settles adx b0 bs req w) as (bids' & w1 & _ & Hrated & Heq).
  rewrite Heq in Hrun. apply settle_returns in Hrun.
  destruct Hrun as (others & Hsorted & _ & _ & Hbid & _ & _ & _ & Hpaid).
  assert (winner a ∈ bids') as Hin.
  { rewrite <- (sorted_by_ecpm_perm bids'), Hsorted. by left. }
  apply list_elem_of_lookup in Hin. destruct Hin as (i & Hi).
  destruct (Forall2_lookup_r _ _ _ _ _ Hrated Hi) as (b & Hb & q & Hq & _).
  exists b, q. split; [by eapply list_elem_of_lookup_2|]. split; [done|].
  split; [rewrite Hbid, Hq; apply rated_fields|].
  intros Hlen. pose proof (Forall2_length _ _ _ Hrated) as Hl.
  pose proof (sorted_by_ecpm_length bids') as Hs. rewrite Hsorted in Hs.
  destruct others as [|second rest]; [|simpl in *; lia].
  rewrite Hpaid, Hq. by destruct (rated_fields b q) as (_ & -> & _).
Qed.

Lemma dsp_id_rated (b : Bid) (q : Q) : dsp_id (rated b q) = dsp_id b.
Proof. reflexivity. Qed.

(** X19. Every ACCEPTED result of the pipeline names a winner DSP_k that
    is among the collected bids, with a bid price of at least the floor 0.1;
    the price paid does not exceed the bid, the saving is the bid less the
    price paid and is not negative, and with a single collected bid the
    price paid is the floor.  The reason is AUCTION_WON, the path ads, the
    outlet the homepage slot; the opportunity cost is the winner's eCPM per
    impression less the lifecycle-adjusted organic value; and the latency
    was within 100 ms. *)
Theorem accepted_result_invariants (e : AdExchangeEngine.t) (up : Upstream)
    (request_id device_id app_id app_name platform : string) (ad_size : Z * Z)
    (num_dsps : nat) (w w' : World) (r : Result) :
  AdExchangeEngine.run_auction e up request_id device_id app_id app_name platform
    ad_size num_dsps w = Returns r w' →
  status r = "ACCEPTED" →
  ∃ c w0 k paid saved ecpm,
    AdExchangeEngine.collect e up request_id device_id app_id app_name platform
      ad_size num_dsps w = Returns c w0 ∧
    (1 ≤ k ≤ num_dsps)%nat ∧ res_winner r = Some (dsp_name k) ∧
    dsp_name k ∈ dsp_id <$> collected_bids c ∧
    0.1 <= bid_price r ∧
    res_actual_paid_price r = Some paid ∧ res_saved_amount r = Some saved ∧
    res_ecpm r = Some ecpm ∧
    paid <= bid_price r ∧ saved == bid_price r - paid ∧ 0 <= saved ∧
    (length (collected_bids c) = 1%nat → paid = 0.1) ∧
    reason r = "AUCTION_WON" ∧ selected_path r = Some "ads" ∧
    distribution_result r = Some (mkDistribution "ads" (Some HomepageSlot)) ∧
    res_organic_ltv r
      = Some (organic_ltv up * AdExchangeEngine.lifecycle_multiplier (lifecycle_stage up)) ∧
    opportunity_cost r
      = Some (ecpm / 1000.0
              - organic_ltv up * AdExchangeEngine.lifecycle_multiplier (lifecycle_stage up)) ∧
    rand_float w (tick w) <= 100.
Proof.
  intros Hrun Hacc. apply run_auction_inv in Hrun. destruct Hrun as (c & w0 & Hc & Hd).
  destruct (collect_inv _ _ _ _ _ _ _ _ _ _ _ _ Hc) as (Hlat & Horg & _).
  destruct (collect_bids_of _ _ _ _ _ _ _ _ _ _ _ _ Hc) as (req & w3 & w4 & Hbids).
  destruct (collect_bids_shape _ _ _ _ _ _ _ _ _ Hbids) as (_ & _ & ks & Hnames & _ & Hrange).
  pose proof (collect_bids_reach_floor _ _ _ _ _ _ _ _ _ Hbids) as Hfloor.
  pose proof (collect_bids_fields _ _ _ _ _ _ _ _ _ Hbids) as Hfields.
  apply decide_cases in Hd.
  destruct Hd as [(_ & Hd) | [(_ & _ & -> & _) | [(_ & ? & ? & ? & _ & _ & ->) |
                  [(w1 & _ & _ & _ & Hd) | (w1 & Hadm & _ & Hd)]]]]; try done.
  { unfold AdExchangeEngine.latency_reject, bind, log_decision, ret in Hd. cbv zeta in Hd.
    inversion Hd; subst. done. }
  { inversion Hd; subst. done. }
  destruct Hadm as (Hle & _). apply Qlt_bool_false in Hle.
  unfold AdExchangeEngine.TIMEOUT_THRESHOLD in Hle. rewrite Hlat in Hle.
  unfold AdExchangeEngine.clear_and_serve in Hd.
  apply bind_returns in Hd. destruct Hd as ([a|] & w2 & Ha & Hd);
    [|inversion Hd; subst; done].
  unfold bind, log_decision, ret in Hd. cbv zeta in Hd. inversion Hd; subst; clear Hd.
  destruct (auction_winner_origin _ _ _ _ _ _ Ha) as (b & q & Hin & Hwin & Hbid & Hone).
  destruct (saved_amount_is_difference _ _ _ _ _ _ Ha) as (Hsaved & Hnn & Hpaid).
  rewrite Forall_forall in Hfloor, Hfields.
  pose proof (Hfloor b Hin) as Hb. destruct (Hfields b Hin) as (_ & Hfp).
  assert (dsp_id b ∈ dsp_id <$> collected_bids c) as Hname.
  { apply list_elem_of_fmap. by exists b. }
  rewrite Hnames in Hname. apply list_elem_of_fmap in Hname.
  destruct Hname as (k & Hk & Hkin).
  rewrite Forall_forall in Hrange.
  exists c, w0, k, (actual_paid_price a), (saved_amount a), (winner_ecpm a). simpl.
  split; [done|]. split; [specialize (Hrange k Hkin); simpl in Hrange; lia|].
  split; [by rewrite Hwin, dsp_id_rated, Hk|].
  split; [rewrite Hnames; apply list_elem_of_fmap; by exists k|].
  split; [by rewrite Hbid|]. repeat (split; [done|]).
  split.
  { intros Hlen. rewrite (Hone Hlen). unfold get_num. rewrite Hfp. simpl.
    unfold py_min. rewrite Hbid.
    assert (Qle_bool 0.1 (get_num b "bid_price" 0) = true) as ->; [|done].
    by apply Qle_bool_iff. }
  repeat (split; [done|]). rewrite Horg. done.
Qed.

Lemma accepted_result_invariants_witness :
  ∃ r w',
    AdExchangeEngine.run_auction sample_engine no_organic_value "req_1" "device_002" "app_002"
      "App" "Android" (320, 50)%Z 3 steady_world = Returns r w' ∧
    0.1 <= bid_price r ∧ reason r = "AUCTION_WON"%string.
Proof.
  destruct (outcome_cases
              (AdExchangeEngine.run_auction sample_engine no_organic_value "req_1" "device_002"
                 "app_002" "App" "Android" (320, 50)%Z 3 steady_world)
              (λ r _, status r = "ACCEPTED"%string)) as (r & w' & Hrun & Hacc).
  { vm_compute. reflexivity. }
  destruct (accepted_result_invariants sample_engine no_organic_value "req_1" "device_002"
              "app_002" "App" "Android" (320, 50)%Z 3 steady_world w' r Hrun Hacc)
    as (c & w0 & k & paid & saved & ecpm & _ & _ & _ & _ & Hfloor & _ & _ & _ & _ & _ & _ & _ &
        Hreason & _).
  exists r, w'. split; [exact Hrun|]. split; [exact Hfloor|exact Hreason].
Defined.

Lemma max_estimated_ecpm_upper (bids : list Bid) :
  Forall (λ b, AdExchangeEngine.estimated_ecpm b <= AdExchangeEngine.max_estimated_ecpm bids)
         bids.
Proof.
  unfold AdExchangeEngine.max_estimated_ecpm.
  assert (∀ m, let top := foldl (λ m b, py_max m (AdExchangeEngine.estimated_ecpm b)) m bids in
               m <= top ∧ Forall (λ b, AdExchangeEngine.estimated_ecpm b <= top) bids) as H.
  { induction bids as [|b bids IH]; intros m; simpl; [split; [lra|constructor]|].
    destruct (IH (py_max m (AdExchangeEngine.estimated_ecpm b))) as [Hm Hall].
    pose proof (py_max_ge_l m (AdExchangeEngine.estimated_ecpm b)) as H1.
    assert (AdExchangeEngine.estimated_ecpm b <= py_max m (AdExchangeEngine.estimated_ecpm b))
      as H2.
    { unfold py_max. destruct (Qle_bool _ _) eqn:E; [by apply Qle_bool_iff|lra]. }
    split; [lra|]. constructor; [lra|done]. }
  apply H.
Qed.

Lemma max_estimated_ecpm_attained (bids : list Bid) :
  0 < AdExchangeEngine.max_estimated_ecpm bids →
  ∃ b, b ∈ bids ∧ AdExchangeEngine.max_estimated_ecpm bids = AdExchangeEngine.estimated_ecpm b.
Proof.
  unfold AdExchangeEngine.max_estimated_ecpm.
  assert (∀ m, let top := foldl (λ m b, py_max m (AdExchangeEngine.estimated_ecpm b)) m bids in
               top = m ∨ ∃ b, b ∈ bids ∧ top = AdExchangeEngine.estimated_ecpm b) as H.
  { induction bids as [|b bids IH]; intros m; simpl; [by left|].
    destruct (IH (py_max m (AdExchangeEngine.estimated_ecpm b))) as [-> | (b' & Hin & ->)].
    - unfold py_max. destruct (Qle_bool _ _); [by left|]. right. exists b. split; [by left|done].
    - right. exists b'. split; [by right|done]. }
  intros Hpos. destruct (H 0.0) as [Heq | Hb]; [|done]. simpl in Heq.
  rewrite Heq in Hpos. lra.
Qed.

(** X20. The outcomes of the pipeline.  No result has the reason
    AUCTION_FAILED.  A result is ACCEPTED or REJECTED; it is ACCEPTED
    exactly when its reason is AUCTION_WON and exactly when its path is ads;
    its path is search exactly when its reason is ORGANIC_LTV_HIGHER; its
    reason is one of LATENCY_TIMEOUT, NO_VALID_BIDS, ORGANIC_LTV_HIGHER,
    AUCTION_WON or the rejection code of a filter of the chain; it reports a
    potential loss exactly when the latency was above 100 ms; and it
    carries a distribution result, that of its path, exactly when it has a
    path. *)
Theorem pipeline_outcomes (e : AdExchangeEngine.t) (up : Upstream)
    (request_id device_id app_id app_name platform : string) (ad_size : Z * Z)
    (num_dsps : nat) (w w' : World) (r : Result) :
  AdExchangeEngine.run_auction e up request_id device_id app_id app_name platform
    ad_size num_dsps w = Returns r w' →
  reason r ≠ "AUCTION_FAILED" ∧
  (status r = "ACCEPTED" ∨ status r = "REJECTED") ∧
  (status r = "ACCEPTED" ↔ reason r = "AUCTION_WON") ∧
  (status r = "ACCEPTED" ↔ selected_path r = Some "ads") ∧
  (reason r = "ORGANIC_LTV_HIGHER" ↔ selected_path r = Some "search") ∧
  (reason r ∈ ["LATENCY_TIMEOUT"; "NO_VALID_BIDS"; "ORGANIC_LTV_HIGHER"; "AUCTION_WON"] ∨
   ∃ f, f ∈ ADX.filters (AdExchangeEngine.adx e) ∧ reason r = rejection_code f) ∧
  (is_Some (potential_loss r) ↔ 100 < rand_float w (tick w)) ∧
  distribution_result r = DistributionHub.distribute <$> selected_path r.
Proof.
  intros Hrun. apply run_auction_inv in Hrun. destruct Hrun as (c & w0 & Hc & Hd).
  destruct (collect_inv _ _ _ _ _ _ _ _ _ _ _ _ Hc) as (Hlat & _).
  apply decide_cases in Hd. rewrite Hlat in Hd.
  destruct Hd as [(Hslow & Hd) | [(Hle & _ & -> & _) | [(Hle & ? & ? & f & _ & Hf & ->) |
                  [(w1 & (Hle & _) & _ & _ & Hd) | (w1 & (Hle & Hadm) & _ & Hd)]]]].
  - unfold AdExchangeEngine.latency_reject, bind, log_decision, ret in Hd. cbv zeta in Hd.
    inversion Hd; subst; clear Hd. simpl.
    split; [done|]. split; [by right|]. repeat (split; [done|]).
    split; [left; repeat constructor|]. split; [|done]. split; [done|by eexists].
  - simpl. split; [done|]. split; [by right|]. repeat (split; [done|]).
    split; [left; repeat constructor|]. split; [|done].
    split; [by intros []|]. intros; lra.
  - simpl. split; [by destruct f|]. split; [by right|].
    split; [split; [done|by destruct f]|]. split; [done|].
    split; [split; [by destruct f|done]|].
    split; [right; by exists f|]. split; [|done].
    split; [by intros []|]. intros; lra.
  - inversion Hd; subst; clear Hd. simpl.
    apply Qlt_bool_false in Hle. unfold AdExchangeEngine.TIMEOUT_THRESHOLD in Hle.
    rewrite Hlat in Hle.
    split; [done|]. split; [by right|]. repeat (split; [done|]).
    split; [left; repeat constructor|]. split; [|done].
    split; [by intros []|]. intros; lra.
  - apply Qlt_bool_false in Hle. unfold AdExchangeEngine.TIMEOUT_THRESHOLD in Hle.
    rewrite Hlat in Hle.
    unfold AdExchangeEngine.clear_and_serve in Hd.
    apply bind_returns in Hd. destruct Hd as ([a|] & w2 & Ha & Hd).
    + unfold bind, log_decision, ret in Hd. cbv zeta in Hd. inversion Hd; subst; clear Hd.
      simpl. split; [done|]. split; [by left|]. repeat (split; [done|]).
      split; [left; repeat constructor|]. split; [|done].
      split; [by intros []|]. intros; lra.
    + destruct Hadm as (first & rest & rc & Hbids & _). rewrite Hbids in Ha.
      by apply run_auction_nonempty_not_none in Ha.
Qed.

Lemma pipeline_outcomes_witness :
  ∃ r w',
    AdExchangeEngine.run_auction sample_engine no_organic_value "req_1" "device_002" "app_002"
      "App" "Android" (320, 50)%Z 3 steady_world = Returns r w' ∧
    reason r ≠ "AUCTION_FAILED"%string.
Proof.
  destruct (outcome_cases
              (AdExchangeEngine.run_auction sample_engine no_organic_value "req_1" "device_002"
                 "app_002" "App" "Android" (320, 50)%Z 3 steady_world)
              (λ _ _, True)) as (r & w' & Hrun & _).
  { vm_compute. exact I. }
  exists r, w'. split; [exact Hrun|].
  exact (proj1 (pipeline_outcomes sample_engine no_organic_value "req_1" "device_002"
                  "app_002" "App" "Android" (320, 50)%Z 3 steady_world w' r Hrun)).
Defined.

Lemma lifecycle_multiplier_bounds (s : LifecycleStage) :
  0.5 <= AdExchangeEngine.lifecycle_multiplier s ∧ AdExchangeEngine.lifecycle_multiplier s <= 1.5.
Proof. destruct s; simpl; lra. Qed.

(** X21. A result on the search path is wholly determined by the
    collection stage: it is a rejection with bid price 0 that reports the
    lifecycle-adjusted organic value, the ad value of the collected bid
    whose estimated eCPM is highest, and their difference as opportunity
    cost.  The ad value is strictly positive and does not exceed the
    organic value, so the organic value handed in was strictly positive;
    and the latency was within 100 ms. *)
Theorem search_path_result (e : AdExchangeEngine.t) (up : Upstream)
    (request_id device_id app_id app_name platform : string) (ad_size : Z * Z)
    (num_dsps : nat) (w w' : World) (r : Result) :
  AdExchangeEngine.run_auction e up request_id device_id app_id app_name platform
    ad_size num_dsps w = Returns r w' →
  selected_path r = Some "search" →
  let organic := organic_ltv up * AdExchangeEngine.lifecycle_multiplier (lifecycle_stage up) in
  ∃ c w0 b,
    AdExchangeEngine.collect e up request_id device_id app_id app_name platform
      ad_size num_dsps w = Returns c w0 ∧
    b ∈ collected_bids c ∧
    max_ad_value c = AdExchangeEngine.estimated_ecpm b / 1000.0 ∧
    Forall (λ b', AdExchangeEngine.estimated_ecpm b' <= AdExchangeEngine.estimated_ecpm b)
           (collected_bids c) ∧
    r = mkResult "REJECTED" "ORGANIC_LTV_HIGHER" 0 (Some "search") None None None None
          (Some organic) (Some (max_ad_value c)) (Some (organic - max_ad_value c)) None
          (Some (mkDistribution "search" (Some SearchFeed))) ∧
    0 < max_ad_value c ∧ max_ad_value c <= organic ∧ 0 < organic_ltv up ∧
    rand_float w (tick w) <= 100.
Proof.
  intros Hrun Hpath organic. apply run_auction_inv in Hrun.
  destruct Hrun as (c & w0 & Hc & Hd).
  destruct (collect_inv _ _ _ _ _ _ _ _ _ _ _ _ Hc) as (Hlat & Horg & _).
  apply decide_cases in Hd.
  destruct Hd as [(_ & Hd) | [(_ & _ & -> & _) | [(_ & ? & ? & ? & _ & _ & ->) |
                  [(w1 & (Hle & _) & Hpos & Hcap & Hd) | (w1 & _ & _ & Hd)]]]]; try done.
  { unfold AdExchangeEngine.latency_reject, bind, log_decision, ret in Hd. cbv zeta in Hd.
    inversion Hd; subst. done. }
  2:{ apply clear_and_serve_returns in Hd. destruct Hd as [(Hp & _) | (Hp & _)]; congruence. }
  apply Qlt_bool_false in Hle. unfold AdExchangeEngine.TIMEOUT_THRESHOLD in Hle.
  rewrite Hlat in Hle.
  assert (0 < AdExchangeEngine.max_estimated_ecpm (collected_bids c)) as Hmax.
  { unfold max_ad_value in Hpos.
    assert (AdExchangeEngine.max_estimated_ecpm (collected_bids c) / 1000.0
            == AdExchangeEngine.max_estimated_ecpm (collected_bids c) * (1 # 1000)) as Heq
      by (unfold Qdiv; by apply Qmult_comp).
    rewrite Heq in Hpos. lra. }
  destruct (max_estimated_ecpm_attained _ Hmax) as (b & Hin & Hb).
  exists c, w0, b. split; [done|]. split; [done|].
  split; [unfold max_ad_value; by rewrite Hb|].
  split.
  { rewrite <- Hb. apply max_estimated_ecpm_upper. }
  inversion Hd; subst; clear Hd. rewrite Horg in *. fold organic in Hcap |- *.
  split; [done|]. split; [done|]. split; [done|]. split; [|done].
  pose proof (lifecycle_multiplier_bounds (lifecycle_stage up)) as [Hm1 Hm2].
  unfold organic in Hcap.
  destruct (Qlt_le_dec 0 (organic_ltv up)) as [|Hneg]; [done|]. exfalso.
  assert (organic_ltv up * AdExchangeEngine.lifecycle_multiplier (lifecycle_stage up) <= 0);
    [|lra].
  assert (0 <= (- organic_ltv up) * AdExchangeEngine.lifecycle_multiplier (lifecycle_stage up))
    by (apply Qmult_le_0_compat; lra).
  lra.
Qed.

Lemma search_path_result_witness :
  ∃ r w',
    AdExchangeEngine.run_auction sample_engine high_organic_value "req_1" "device_002"
      "app_002" "App" "Android" (320, 50)%Z 3 steady_world = Returns r w' ∧
    res_organic_ltv r = Some (10 * 1.5) ∧ bid_price r = 0.
Proof.
  destruct (outcome_cases
              (AdExchangeEngine.run_auction sample_engine high_organic_value "req_1"
                 "device_002" "app_002" "App" "Android" (320, 50)%Z 3 steady_world)
              (λ r _, selected_path r = Some "search"%string)) as (r & w' & Hrun & Hpath).
  { vm_compute. reflexivity. }
  destruct (search_path_result sample_engine high_organic_value "req_1" "device_002"
              "app_002" "App" "Android" (320, 50)%Z 3 steady_world w' r Hrun Hpath)
    as (c & w0 & b & _ & _ & _ & _ & Hr & _).
  exists r, w'. split; [exact Hrun|]. rewrite Hr. split; reflexivity.
Defined.

Lemma frame_refl (w : World) : frame w w.
Proof. by repeat split. Qed.

Lemma frame_trans (w1 w2 w3 : World) : frame w1 w2 → frame w2 w3 → frame w1 w3.
Proof.
  intros (Hl1 & Hd1 & Ht1) (Hl2 & Hd2 & Ht2). split; [by etrans|].
  split; congruence.
Qed.

Lemma keeps_ret {A} (a : A) : keeps (ret a).
Proof. intros w. apply frame_refl. Qed.

Lemma keeps_raise {A} (e : PyError) : keeps (raise (A := A) e).
Proof. intros w. apply frame_refl. Qed.

Lemma keeps_bind {A B} (c : Eff A) (k : A → Eff B) :
  keeps c → (∀ a, keeps (k a)) → keeps (bind c k).
Proof.
  intros Hc Hk w. unfold bind. specialize (Hc w).
  destruct (c w) as [a w1|e w1]; [|done].
  specialize (Hk a w1). destruct (k a w1); by eapply frame_trans.
Qed.

Lemma keeps_randint : keeps randint.
Proof. by intros w. Qed.
Lemma keeps_random : keeps random.
Proof. by intros w. Qed.
Lemma keeps_now : keeps now.
Proof. by intros w. Qed.
Lemma keeps_get_world : keeps get_world.
Proof. by intros w. Qed.
Lemma keeps_set_ip_pool p : keeps (modify (set_ip_pool p)).
Proof. by intros w. Qed.
Lemma keeps_set_click_coordinates p : keeps (modify (set_click_coordinates p)).
Proof. by intros w. Qed.
Lemma keeps_log nd act dec rc vars e : keeps (log_decision nd act dec rc vars e).
Proof.
  intros w. split; [|done]. simpl. by apply prefix_app_r.
Qed.
Lemma keeps_py_div (a b : Q) : keeps (py_div a b).
Proof. unfold py_div. destruct (Qeq_bool b 0); [apply keeps_raise|apply keeps_ret]. Qed.

Ltac keeps_step :=
  first
    [ apply keeps_ret | apply keeps_raise | apply keeps_randint | apply keeps_random
    | apply keeps_now | apply keeps_get_world | apply keeps_set_ip_pool
    | apply keeps_set_click_coordinates | apply keeps_log | apply keeps_py_div
    | apply keeps_bind; [|intros ?]
    | match goal with
      | |- keeps (if ?c then _ else _) => destruct c
      | |- keeps (match ?x with _ => _ end) => destruct x
      end ].

Lemma keeps_score (fraud_rate : Q) (r : AdRequest) : keeps (QualityScorer.score fraud_rate r).
Proof. unfold QualityScorer.score. cbv zeta. repeat keeps_step. Qed.

Lemma keeps_sample : keeps SKANOptimizer.sample_conversion_value.
Proof. unfold SKANOptimizer.sample_conversion_value. cbv zeta. repeat keeps_step. Qed.

Lemma keeps_estimate_pcvr (r : AdRequest) : keeps (SKANOptimizer.estimate_pcvr_from_skan r).
Proof.
  unfold SKANOptimizer.estimate_pcvr_from_skan. cbv zeta.
  destruct (negb _); [apply keeps_ret|].
  apply keeps_bind; [apply keeps_sample|]. intros cv. repeat keeps_step.
Qed.

Lemma keeps_dsp_bid (base_price : Q) (r : AdRequest) (skan : bool) :
  keeps (DSP.bid base_price r skan).
Proof.
  unfold DSP.bid, CTRBasedBiddingStrategy.calculate_bid,
    CTRBasedBiddingStrategy.get_multiplier. cbv zeta.
  apply keeps_bind; [apply keeps_random|]. intros pctr.
  apply keeps_bind.
  { destruct (_ && _); [|apply keeps_random].
    apply keeps_bind; [apply keeps_estimate_pcvr|]. intros [[pcvr|] d];
      [apply keeps_ret|apply keeps_random]. }
  intros pcvr. repeat keeps_step.
Qed.

Lemma keeps_collect_bids (e : AdExchangeEngine.t) (r : AdRequest) (request_id : string)
    (floor_price : Q) (i num_dsps : nat) :
  keeps (AdExchangeEngine.collect_bids e r request_id floor_price i num_dsps).
Proof.
  revert i. induction num_dsps as [|n IH]; intros i; simpl; [apply keeps_ret|].
  apply keeps_bind.
  - destruct (AdExchangeEngine.dsp e); [|apply keeps_ret].
    apply keeps_bind; [apply keeps_dsp_bid|]. intros r'. apply keeps_ret.
  - intros mine. apply keeps_bind; [apply IH|]. intros others. apply keeps_ret.
Qed.

Lemma keeps_recent (touches : list Touch) : keeps (InternalOpportunityManager.recent touches).
Proof.
  induction touches as [|t ts IH]; simpl; [apply keeps_ret|].
  apply keeps_bind; [apply keeps_now|]. intros t0.
  apply keeps_bind; [apply IH|]. intros kept. apply keeps_ret.
Qed.

Lemma keeps_generate_request (request_id device_id app_id app_name platform : string)
    (ad_size : Z * Z) :
  keeps (SSP.generate_request request_id device_id app_id app_name platform ad_size).
Proof. unfold SSP.generate_request. cbv zeta. repeat keeps_step. Qed.

Lemma keeps_estimate_search (device_id : string) (r : AdRequest) :
  keeps (InternalOpportunityManager.estimate_search_value device_id r).
Proof.
  unfold InternalOpportunityManager.estimate_search_value,
    InternalOpportunityManager.get_user_touch_history. cbv zeta. repeat keeps_step.
Qed.

Lemma keeps_estimate_push (device_id : string) (r : AdRequest) :
  keeps (InternalOpportunityManager.estimate_push_value device_id r).
Proof.
  unfold InternalOpportunityManager.estimate_push_value,
    InternalOpportunityManager.get_user_touch_history. cbv zeta.
  apply keeps_bind; [repeat keeps_step|]. intros hist.
  apply keeps_bind; [apply keeps_recent|]. intros kept. repeat keeps_step.
Qed.

Lemma keeps_apply (f : FilterRule) (r : AdRequest) : keeps (apply f r).
Proof.
  destruct f; unfold apply; cbv zeta; repeat keeps_step;
    destruct (estimate_potential r); repeat keeps_step.
Qed.

Lemma keeps_apply_filters (fs : list FilterRule) (n : nat) (r : AdRequest) :
  keeps (ADX.apply_filters fs n r).
Proof.
  induction fs as [|f fs IH]; simpl; [repeat keeps_step|].
  apply keeps_bind; [apply keeps_apply|]. intros [[passed rc] vars].
  destruct passed; [apply IH|repeat keeps_step].
Qed.

Lemma keeps_process_request (adx : ADX.t) (r : AdRequest) : keeps (ADX.process_request adx r).
Proof.
  unfold ADX.process_request. apply keeps_bind; [apply keeps_log|]. intros _.
  apply keeps_apply_filters.
Qed.

Lemma keeps_rate_bid (adx : ADX.t) (req : option AdRequest) (bid : Bid) :
  keeps (ADX.rate_bid adx req bid).
Proof.
  unfold ADX.rate_bid. cbv zeta. apply keeps_bind; [|intros factor; apply keeps_ret].
  destruct (ADX.quality_scorer adx), (ADX.truthy req); try apply keeps_ret.
  destruct (num bid !! "q_factor"); [apply keeps_ret|].
  apply keeps_bind; [apply keeps_score|]. intros [factor fs]. apply keeps_ret.
Qed.

Lemma keeps_rate_bids (adx : ADX.t) (req : option AdRequest) (bids : list Bid) :
  keeps (ADX.rate_bids adx req bids).
Proof.
  induction bids as [|b bids IH]; simpl; [apply keeps_ret|].
  apply keeps_bind; [apply keeps_rate_bid|]. intros b'.
  apply keeps_bind; [apply IH|]. intros bids'. apply keeps_ret.
Qed.

Lemma keeps_settle (sorted_bids : list Bid) : keeps (ADX.settle sorted_bids).
Proof.
  destruct sorted_bids as [|b [|second rest]]; unfold ADX.settle; cbv zeta;
    repeat keeps_step.
Qed.

Lemma keeps_adx_run_auction (adx : ADX.t) (bids : list Bid) (req : option AdRequest) :
  keeps (ADX.run_auction adx bids req).
Proof.
  unfold ADX.run_auction. destruct bids as [|b bs]; [apply keeps_ret|].
  apply keeps_bind; [apply keeps_rate_bids|]. intros bids'. apply keeps_settle.
Qed.

Lemma keeps_decide (e : AdExchangeEngine.t) (c : Collected) :
  keeps (AdExchangeEngine.decide e c).
Proof.
  unfold AdExchangeEngine.decide.
  destruct (Qlt_bool _ _).
  { unfold AdExchangeEngine.latency_reject. cbv zeta. repeat keeps_step. }
  destruct (collected_bids c) as [|first rest] eqn:Hbids; [apply keeps_ret|].
  cbv zeta. apply keeps_bind; [apply keeps_process_request|]. intros [passed rc].
  destruct passed; simpl; [|apply keeps_ret].
  destruct (_ && _).
  - unfold AdExchangeEngine.serve_search. cbv zeta. repeat keeps_step.
  - unfold AdExchangeEngine.clear_and_serve.
    apply keeps_bind; [apply keeps_adx_run_auction|]. intros [a|]; repeat keeps_step.
Qed.

Lemma keeps_collect (e : AdExchangeEngine.t) (up : Upstream)
    (request_id device_id app_id app_name platform : string) (ad_size : Z * Z)
    (num_dsps : nat) :
  keeps (AdExchangeEngine.collect e up request_id device_id app_id app_name platform
           ad_size num_dsps).
Proof.
  unfold AdExchangeEngine.collect.
  apply keeps_bind; [apply keeps_generate_request|]. intros req. cbv zeta.
  apply keeps_bind; [apply keeps_collect_bids|]. intros bids.
  apply keeps_bind; [apply keeps_estimate_search|]. intros evs.
  apply keeps_bind; [apply keeps_estimate_push|]. intros evp.
  repeat keeps_step.
Qed.

Lemma keeps_returns {A} (c : Eff A) (w w' : World) (a : A) :
  keeps c → c w = Returns a w' → frame w w'.
Proof. intros H E. specialize (H w). by rewrite E in H. Qed.

(** The collection stage ends on the funnel record. *)
Lemma collect_logs_funnel (e : AdExchangeEngine.t) (up : Upstream)
    (request_id device_id app_id app_name platform : string) (ad_size : Z * Z)
    (num_dsps : nat) (w w0 : World) (c : Collected) :
  AdExchangeEngine.collect e up request_id device_id app_id app_name platform ad_size
    num_dsps w = Returns c w0 →
  ∃ before p, log_file w0 = log_file w ++ before ++ [p] ∧
              node p = "SEARCH_RECOMMENDATION" ∧ action p = "FUNNEL_PROCESSING" ∧
              decision p = "PASS".
Proof.
  unfold AdExchangeEngine.collect. intros H.
  apply bind_returns in H. destruct H as (req & w1 & H1 & H). cbv zeta in H.
  apply bind_returns in H. destruct H as (bids & w2 & H2 & H).
  apply bind_returns in H. destruct H as (evs & w3 & H3 & H).
  apply bind_returns in H. destruct H as (evp & w4 & H4 & H).
  apply (keeps_returns _ _ _ _ (keeps_generate_request _ _ _ _ _ _)) in H1.
  apply (keeps_returns _ _ _ _ (keeps_collect_bids _ _ _ _ _ _)) in H2.
  apply (keeps_returns _ _ _ _ (keeps_estimate_search _ _)) in H3.
  apply (keeps_returns _ _ _ _ (keeps_estimate_push _ _)) in H4.
  destruct (frame_trans _ _ _ (frame_trans _ _ _ (frame_trans _ _ _ H1 H2) H3) H4)
    as ((before & Hlog) & _).
  unfold bind, log_decision, ret in H. inversion H; subst; clear H. simpl.
  eexists before, _. rewrite Hlog. by rewrite <- app_assoc.
Qed.

(** X22. Whatever the pipeline does, return or raise, the log only
    grows, and neither the conversion distribution nor the touch histories
    are written.  When it returns, the log has gained the funnel record of
    the collection stage; after a NO_VALID_BIDS rejection that record is the
    last one, so the rejection itself is not logged. *)
Theorem pipeline_appends_to_log (e : AdExchangeEngine.t) (up : Upstream)
    (request_id device_id app_id app_name platform : string) (ad_size : Z * Z)
    (num_dsps : nat) (w : World) :
  match AdExchangeEngine.run_auction e up request_id device_id app_id app_name platform
          ad_size num_dsps w with
  | Raises _ w' => frame w w'
  | Returns r w' =>
      frame w w' ∧
      ∃ before p after,
        log_file w' = log_file w ++ before ++ p :: after ∧
        node p = "SEARCH_RECOMMENDATION" ∧ action p = "FUNNEL_PROCESSING" ∧
        (reason r = "NO_VALID_BIDS" → after = [])
  end.
Proof.
  assert (keeps (AdExchangeEngine.run_auction e up request_id device_id app_id app_name
                   platform ad_size num_dsps)) as Hframe.
  { unfold AdExchangeEngine.run_auction.
    apply keeps_bind; [apply keeps_collect|apply keeps_decide]. }
  specialize (Hframe w).
  destruct (AdExchangeEngine.run_auction _ _ _ _ _ _ _ _ _ w) as [r w'|err w'] eqn:Hrun;
    [|done].
  split; [done|]. apply run_auction_inv in Hrun. destruct Hrun as (c & w0 & Hc & Hd).
  destruct (collect_logs_funnel _ _ _ _ _ _ _ _ _ _ _ _ Hc)
    as (before & p & Hlog & Hnode & Hact & _).
  destruct (keeps_returns _ _ _ _ (keeps_decide e c) Hd) as ((after & Hafter) & _).
  exists before, p, after. split.
  { rewrite Hafter, Hlog. by rewrite <- !app_assoc. }
  split; [done|]. split; [done|]. intros Hreason.
  apply decide_cases in Hd.
  destruct Hd as [(_ & Hd) | [(_ & _ & _ & ->) | [(_ & ? & ? & f & _ & _ & ->) |
                  [(w1 & _ & _ & _ & Hd) | (w1 & Hadm & _ & Hd)]]]].
  - unfold AdExchangeEngine.latency_reject, bind, log_decision, ret in Hd. cbv zeta in Hd.
    inversion Hd; subst. done.
  - rewrite <- (app_nil_r (log_file w0)) in Hafter at 1. by apply app_inv_head in Hafter.
  - by destruct f.
  - inversion Hd; subst. done.
  - destruct Hadm as (_ & first & rest & rc & Hbids & _).
    eapply clear_and_serve_nonempty in Hd; [|by rewrite Hbids].
    destruct Hd as (_ & _ & Hr). congruence.
Qed.

(** * Properties of the traffic source, the funnel and the hub *)

(** An optional answer is settled by evaluating it. *)
Lemma some_cases {A} (o : option A) (P : A → Prop) :
  match o with Some a => P a | None => False end → ∃ a, o = Some a ∧ P a.
Proof. destruct o as [a|]; [|done]. intros H. by exists a. Qed.

(** ** The traffic source *)

(** X23. The tags [_generate_user_tags] builds follow the registration
    days, the hash of the device id modulo 365: the days lie in 0..364; the
    stage is new up to 7 days, growing up to 30, mature up to 90 and at risk
    of churn beyond; the lifetime value is the stage's base value (5, 25,
    50 or 10) times the channel's quality and lies in [3, 42.5]; the
    interests are not empty.  The pipeline and the hub read the same
    multiplier off such tags, and it is never the default of an unknown
    stage. *)
Theorem generated_tags_follow_registration_days (hash_int : Z)
    (channel : TrafficSource.TrafficChannel) :
  let tags := TrafficSource.generate_user_tags hash_int channel in
  let days := (hash_int mod 365)%Z in
  ∃ stage ltv,
    tag_registration_days tags = Some days ∧ (0 <= days <= 364)%Z ∧
    tag_lifecycle_stage tags = Some (TrafficSource.stage_value stage) ∧
    (stage = TrafficSource.NEW ↔ (days <= 7)%Z) ∧
    (stage = TrafficSource.GROWING ↔ (8 <= days <= 30)%Z) ∧
    (stage = TrafficSource.MATURE ↔ (31 <= days <= 90)%Z) ∧
    (stage = TrafficSource.CHURN_RISK ↔ (91 <= days)%Z) ∧
    tag_ltv tags = Some ltv ∧
    ltv = match stage with
          | TrafficSource.NEW => 5.0
          | TrafficSource.GROWING => 25.0
          | TrafficSource.MATURE => 50.0
          | TrafficSource.CHURN_RISK => 10.0
          end * TrafficSource.channel_quality channel ∧
    3 <= ltv ∧ ltv <= 42.5 ∧
    tag_interest_tags tags ≠ [] ∧
    stage_of_tags tags ≠ OtherStage ∧
    AdExchangeEngine.lifecycle_multiplier (stage_of_tags tags)
      = match stage with
        | TrafficSource.NEW => 0.5
        | TrafficSource.GROWING => 1.0
        | TrafficSource.MATURE => 1.5
        | TrafficSource.CHURN_RISK => 0.8
        end ∧
    AdExchangeEngine.lifecycle_multiplier (stage_of_tags tags)
      = DistributionHub.lifecycle_multiplier_of (TrafficSource.stage_value stage).
Proof.
  cbv zeta. unfold TrafficSource.generate_user_tags. cbv zeta.
  pose proof (Z.mod_pos_bound hash_int 365 ltac:(lia)) as Hd.
  set (days := (hash_int mod 365)%Z) in *.
  destruct (days <=? 7)%Z eqn:E1; [apply Z.leb_le in E1|apply Z.leb_gt in E1;
    destruct (days <=? 30)%Z eqn:E2; [apply Z.leb_le in E2|apply Z.leb_gt in E2;
      destruct (days <=? 90)%Z eqn:E3; [apply Z.leb_le in E3|apply Z.leb_gt in E3]]].
  - exists TrafficSource.NEW. eexists. simpl.
    split; [done|]. split; [lia|]. split; [done|].
    split; [done|]. split; [split; [done|lia]|]. split; [split; [done|lia]|].
    split; [split; [done|lia]|]. split; [reflexivity|]. split; [reflexivity|].
    split; [destruct channel; simpl; lra|]. split; [destruct channel; simpl; lra|].
    split; [by destruct channel|]. done.
  - exists TrafficSource.GROWING. eexists. simpl.
    split; [done|]. split; [lia|]. split; [done|].
    split; [split; [done|lia]|]. split; [split; [lia|done]|]. split; [split; [done|lia]|].
    split; [split; [done|lia]|]. split; [reflexivity|]. split; [reflexivity|].
    split; [destruct channel; simpl; lra|]. split; [destruct channel; simpl; lra|].
    split; [by destruct channel|]. done.
  - exists TrafficSource.MATURE. eexists. simpl.
    split; [done|]. split; [lia|]. split; [done|].
    split; [split; [done|lia]|]. split; [split; [done|lia]|]. split; [split; [lia|done]|].
    split; [split; [done|lia]|]. split; [reflexivity|]. split; [reflexivity|].
    split; [destruct channel; simpl; lra|]. split; [destruct channel; simpl; lra|].
    split; [by destruct channel|]. done.
  - exists TrafficSource.CHURN_RISK. eexists. simpl.
    split; [done|]. split; [lia|]. split; [done|].
    split; [split; [done|lia]|]. split; [split; [done|lia]|]. split; [split; [done|lia]|].
    split; [split; [lia|done]|]. split; [reflexivity|]. split; [reflexivity|].
    split; [destruct channel; simpl; lra|]. split; [destruct channel; simpl; lra|].
    split; [by destruct channel|]. done.
Qed.

(** ** The hub's push value *)

Lemma push_base_values (lifecycle_stage : string) :
  let base :=
    if bool_decide (lifecycle_stage = "新用户") then 2.0
    else if bool_decide (lifecycle_stage = "成长期") then 1.5
    else if bool_decide (lifecycle_stage = "成熟期") then 1.0
    else if bool_decide (lifecycle_stage = "流失风险") then 2.5
    else 1.5 in
  1 <= base ∧ base <= 2.5.
Proof. cbv zeta. repeat destruct (bool_decide _); lra. Qed.

Lemma activity_factor_cases (d : Q) :
  (d <= 182.5 → py_max 0.5 (1.0 - d / 365.0) == 1 - d / 365.0) ∧
  (182.5 <= d → py_max 0.5 (1.0 - d / 365.0) == 0.5).
Proof.
  assert (d / 365.0 == d * (1 # 365)) as Hdiv by (unfold Qdiv; by apply Qmult_comp).
  unfold py_max. destruct (Qle_bool _ 0.5) eqn:E.
  - apply Qle_bool_iff in E. rewrite Hdiv in E. split; intros H; [rewrite Hdiv; lra|lra].
  - apply Qle_bool_false in E. rewrite Hdiv in E. split; intros H; [lra|rewrite Hdiv in *; lra].
Qed.

(** X24. The hub's push value is a base value, between 1 and 2.5 and 2
    for tags without a stage, times an activity factor: 1 - days/365 up to
    182 registration days and 0.5 from 183 on.  For days that are not
    negative it lies between half the base and the base; negative days give
    more than the base.  For the tags of the traffic source it lies in
    [275/365, 2]. *)
Theorem hub_push_value_bounds (tags : UserTags) :
  let days := inject_Z (default 0%Z (tag_registration_days tags)) in
  let value := DistributionHub.calculate_push_value tags in
  ∃ base,
    1 <= base ∧ base <= 2.5 ∧
    (tag_lifecycle_stage tags = None → base = 2.0) ∧
    (days <= 182.5 → value == base * (1 - days / 365.0)) ∧
    (182.5 <= days → value == base * 0.5) ∧
    (0 <= days → base * 0.5 <= value ∧ value <= base) ∧
    (days < 0 → base < value) ∧
    (∀ hash_int channel,
       tags = TrafficSource.generate_user_tags hash_int channel →
       (275 # 365) <= value ∧ value <= 2).
Proof.
  cbv zeta. unfold DistributionHub.calculate_push_value. cbv zeta.
  set (stage := default "新用户"%string (tag_lifecycle_stage tags)).
  pose proof (push_base_values stage) as Hbase. cbv zeta in Hbase.
  set (base := if bool_decide (stage = "新用户"%string) then 2.0 else _) in *.
  set (d := inject_Z (default 0%Z (tag_registration_days tags))).
  destruct (activity_factor_cases d) as [Hlow Hhigh].
  assert (d / 365.0 == d * (1 # 365)) as Hdiv by (unfold Qdiv; by apply Qmult_comp).
  exists base. destruct Hbase as [Hb1 Hb2].
  split; [done|]. split; [done|].
  split.
  { intros Hnone. subst base stage. rewrite Hnone. reflexivity. }
  split; [intros H; by rewrite (Hlow H)|].
  split; [intros H; by rewrite (Hhigh H)|].
  split.
  { intros Hd. destruct (Qlt_le_dec d 182.5) as [Hc|Hc].
    - rewrite (Hlow ltac:(lra)), Hdiv.
      assert (0 <= base * (d * (1 # 365))) by (apply Qmult_le_0_compat; lra).
      assert (0 <= base * (0.5 - d * (1 # 365))) by (apply Qmult_le_0_compat; lra).
      split; lra.
    - rewrite (Hhigh Hc). split; lra. }
  split.
  { intros Hd. rewrite (Hlow ltac:(lra)), Hdiv.
    assert (0 < base * (- d * (1 # 365))) by (apply Qmult_lt_0_compat; lra). lra. }
  intros hash_int channel ->.
  subst base stage d. unfold TrafficSource.generate_user_tags in *. cbv zeta in *.
  pose proof (Z.mod_pos_bound hash_int 365 ltac:(lia)) as Hd.
  set (days := (hash_int mod 365)%Z) in *.
  assert (0 <= inject_Z days ∧ inject_Z days <= 364) as [Hq0 Hq1].
  { split; [change 0 with (inject_Z 0)|change 364 with (inject_Z 364)];
      rewrite <- Zle_Qle; lia. }
  destruct (days <=? 7)%Z eqn:E1; [apply Z.leb_le in E1|apply Z.leb_gt in E1;
    destruct (days <=? 30)%Z eqn:E2; [apply Z.leb_le in E2|apply Z.leb_gt in E2;
      destruct (days <=? 90)%Z eqn:E3; [apply Z.leb_le in E3|apply Z.leb_gt in E3]]];
    simpl in *.
  - assert (inject_Z days <= 7) by (change 7 with (inject_Z 7); rewrite <- Zle_Qle; lia).
    rewrite (Hlow ltac:(lra)), Hdiv. split; lra.
  - assert (inject_Z days <= 30) by (change 30 with (inject_Z 30); rewrite <- Zle_Qle; lia).
    rewrite (Hlow ltac:(lra)), Hdiv. split; lra.
  - assert (inject_Z days <= 90) by (change 90 with (inject_Z 90); rewrite <- Zle_Qle; lia).
    rewrite (Hlow ltac:(lra)), Hdiv. split; lra.
  - destruct (Qlt_le_dec (inject_Z days) 182.5) as [Hc|Hc].
    + assert (91 <= inject_Z days) by (change 91 with (inject_Z 91); rewrite <- Zle_Qle; lia).
      rewrite (Hlow ltac:(lra)), Hdiv. split; lra.
    + rewrite (Hhigh Hc). split; lra.
Qed.

(** ** The hub's router *)

(** The first of three entries that no later entry strictly exceeds. *)
Lemma max_by_value_three (n1 n2 n3 : string) (v1 v2 v3 : Q) :
  let selected := InternalOpportunityManager.max_by_value (n1, v1) [(n2, v2); (n3, v3)] in
  (selected = (n1, v1) ∧ v2 <= v1 ∧ v3 <= v1) ∨
  (selected = (n2, v2) ∧ v1 < v2 ∧ v3 <= v2) ∨
  (selected = (n3, v3) ∧ v1 < v3 ∧ v2 < v3).
Proof.
  cbv zeta. simpl. unfold Qlt_bool.
  destruct (Qle_bool v2 v1) eqn:E1; simpl;
    [apply Qle_bool_iff in E1|apply Qle_bool_false in E1].
  - destruct (Qle_bool v3 v1) eqn:E2; simpl;
      [apply Qle_bool_iff in E2|apply Qle_bool_false in E2].
    + by left.
    + right; right. split; [done|]. split; lra.
  - destruct (Qle_bool v3 v2) eqn:E2; simpl;
      [apply Qle_bool_iff in E2|apply Qle_bool_false in E2].
    + right; left. done.
    + right; right. split; [done|]. split; lra.
Qed.

(** X25. The hub's [calculate_total_value] answers the highest of the
    search, ad and push values and the path that carries it, the first such
    path in the order search, ads, push: ads only when the ad value strictly
    exceeds the search value.  Against the manager's router on the same
    three values: the totals agree, and the paths differ exactly when the ad
    and the search value are equal and the push value does not exceed them,
    where the hub answers search and the manager ads. *)
Theorem hub_router_prefers_search (recalled : list Content) (tags : UserTags)
    (ad_ecpm : Q) :
  let search_ltv := DistributionHub.calculate_search_ltv recalled tags in
  let ad_value := ad_ecpm / 1000.0 in
  let push_value := DistributionHub.calculate_push_value tags in
  let hub := DistributionHub.calculate_total_value recalled tags ad_ecpm in
  let manager :=
    InternalOpportunityManager.calculate_total_value ad_value search_ltv push_value in
  search_ltv <= hub.1 ∧ ad_value <= hub.1 ∧ push_value <= hub.1 ∧
  ((hub = (search_ltv, "search"%string) ∧ ad_value <= search_ltv ∧ push_value <= search_ltv) ∨
   (hub = (ad_value, "ads"%string) ∧ search_ltv < ad_value ∧ push_value <= ad_value) ∨
   (hub = (push_value, "push"%string) ∧ search_ltv < push_value ∧ ad_value < push_value)) ∧
  (ad_value == search_ltv → push_value <= ad_value →
   hub.2 = "search"%string ∧ manager.2 = "ads"%string) ∧
  (hub.2 ≠ manager.2 → ad_value == search_ltv ∧ push_value <= ad_value) ∧
  hub.1 == manager.1.
Proof.
  cbv zeta. unfold DistributionHub.calculate_total_value,
    InternalOpportunityManager.calculate_total_value. cbv zeta.
  set (s := DistributionHub.calculate_search_ltv recalled tags).
  set (a := ad_ecpm / 1000.0).
  set (p := DistributionHub.calculate_push_value tags).
  destruct (max_by_value_three "search" "ads" "push" s a p) as [H|[H|H]];
    destruct (max_by_value_three "ads" "search" "push" a s p) as [H'|[H'|H']];
    cbv zeta in H, H'; destruct H as (-> & H1 & H2); destruct H' as (-> & H3 & H4); simpl;
    (split; [lra|]); (split; [lra|]); (split; [lra|]);
    (split; [first [left; split; [reflexivity|split; lra]
                   |right; left; split; [reflexivity|split; lra]
                   |right; right; split; [reflexivity|split; lra]]|]);
    (split; [intros Ha Hp; first [done|lra]|]);
    (split; [intros Hne; first [done|split; lra]|]); lra.
Qed.

(** ** Sorting by a key *)

Lemma insert_by_perm (key : string) (x : Content) (l : list Content) :
  SearchRecommendationEngine.insert_by key x l ≡ₚ x :: l.
Proof.
  induction l as [|y l IH]; simpl; [done|].
  destruct (Qlt_bool _ _); [|done].
  rewrite IH. apply Permutation_swap.
Qed.

Lemma sort_by_perm (key : string) (l : list Content) :
  foldr (SearchRecommendationEngine.insert_by key) [] l ≡ₚ l.
Proof.
  induction l as [|x l IH]; simpl; [done|].
  by rewrite insert_by_perm, IH.
Qed.

Lemma insert_by_head (key : string) (x z : Content) (l : list Content) :
  HdRel (λ x y, SearchRecommendationEngine.key_of key y
                <= SearchRecommendationEngine.key_of key x) z l →
  SearchRecommendationEngine.key_of key x <= SearchRecommendationEngine.key_of key z →
  HdRel (λ x y, SearchRecommendationEngine.key_of key y
                <= SearchRecommendationEngine.key_of key x) z
        (SearchRecommendationEngine.insert_by key x l).
Proof.
  intros Hl Hx. destruct l as [|y l]; simpl; [by constructor|].
  destruct (Qlt_bool _ _); constructor; [by inversion Hl|done].
Qed.

Lemma insert_by_sorted (key : string) (x : Content) (l : list Content) :
  Sorted (λ x y, SearchRecommendationEngine.key_of key y
                 <= SearchRecommendationEngine.key_of key x) l →
  Sorted (λ x y, SearchRecommendationEngine.key_of key y
                 <= SearchRecommendationEngine.key_of key x)
         (SearchRecommendationEngine.insert_by key x l).
Proof.
  induction 1 as [|y l Hs IH Hhd]; simpl.
  - repeat constructor.
  - unfold Qlt_bool.
    destruct (Qle_bool (SearchRecommendationEngine.key_of key y)
                       (SearchRecommendationEngine.key_of key x)) eqn:E; simpl.
    + apply Qle_bool_iff in E. constructor; [by constructor|by constructor].
    + apply Qle_bool_false in E. constructor; [done|].
      apply insert_by_head; [done|lra].
Qed.

Lemma sort_by_sorted (key : string) (l : list Content) :
  Sorted (λ x y, SearchRecommendationEngine.key_of key y
                 <= SearchRecommendationEngine.key_of key x)
         (foldr (SearchRecommendationEngine.insert_by key) [] l).
Proof.
  induction l as [|x l IH]; simpl; [constructor|]. by apply insert_by_sorted.
Qed.

(** Items of one key keep their order. *)
Lemma insert_by_filter (key : string) (k : Q) (x : Content) (l : list Content) :
  filter (λ c, Qeq_bool (SearchRecommendationEngine.key_of key c) k = true)
         (SearchRecommendationEngine.insert_by key x l)
  = filter (λ c, Qeq_bool (SearchRecommendationEngine.key_of key c) k = true) (x :: l).
Proof.
  induction l as [|y l IH]; simpl; [done|].
  unfold Qlt_bool.
  destruct (Qle_bool (SearchRecommendationEngine.key_of key y)
                     (SearchRecommendationEngine.key_of key x)) eqn:E; simpl; [done|].
  apply Qle_bool_false in E.
  rewrite (filter_cons _ y), IH, !(filter_cons _ x), (filter_cons _ y).
  destruct (decide (Qeq_bool (SearchRecommendationEngine.key_of key x) k = true)) as [Hx|Hx];
    destruct (decide (Qeq_bool (SearchRecommendationEngine.key_of key y) k = true)) as [Hy|Hy];
    try done.
  apply Qeq_bool_iff in Hx, Hy. lra.
Qed.

Lemma sort_by_filter (key : string) (k : Q) (l : list Content) :
  filter (λ c, Qeq_bool (SearchRecommendationEngine.key_of key c) k = true)
         (foldr (SearchRecommendationEngine.insert_by key) [] l)
  = filter (λ c, Qeq_bool (SearchRecommendationEngine.key_of key c) k = true) l.
Proof.
  induction l as [|x l IH]; simpl; [done|].
  rewrite insert_by_filter, !filter_cons, IH. done.
Qed.

(** ** Fine ranking *)

Lemma rank_one_fields (tags : UserTags) (c : Content) :
  let c' := SearchRecommendationEngine.rank_one tags c in
  content_text c' = content_text c ∧ is_ad c' = is_ad c ∧
  content_num c' !! "estimated_ctr" = Some (SearchRecommendationEngine.estimate_ctr c tags) ∧
  content_num c' !! "estimated_like_rate"
    = Some (SearchRecommendationEngine.estimate_like_rate c) ∧
  content_num c' !! "estimated_finish_rate"
    = Some (SearchRecommendationEngine.estimate_finish_rate c) ∧
  content_num c' !! "estimated_comment_rate"
    = Some (SearchRecommendationEngine.estimate_comment_rate c) ∧
  content_num c' !! "ranking_score"
    = Some (0.4 * SearchRecommendationEngine.estimate_ctr c tags
            + 0.25 * SearchRecommendationEngine.estimate_like_rate c
            + 0.25 * SearchRecommendationEngine.estimate_finish_rate c
            + 0.1 * SearchRecommendationEngine.estimate_comment_rate c) ∧
  content_num c' !! "ltv_contribution" = content_num c !! "ltv_contribution".
Proof.
  cbv zeta. unfold SearchRecommendationEngine.rank_one. simpl.
  repeat split; by simplify_map_eq.
Qed.

Lemma rank_one_score_bounds (tags : UserTags) (c : Content) :
  rates_in_unit c →
  0 <= score_of (SearchRecommendationEngine.rank_one tags c) ∧
  score_of (SearchRecommendationEngine.rank_one tags c) <= 1.08.
Proof.
  intros Hr. unfold score_of, SearchRecommendationEngine.key_of.
  destruct (rank_one_fields tags c) as (_ & _ & _ & _ & _ & _ & -> & _). simpl.
  assert (∀ k d, k ∈ ["base_ctr"; "base_like_rate"; "base_finish_rate";
                      "base_comment_rate"]%string →
                 0 <= d → d <= 1 →
                 0 <= default d (content_num c !! k) ∧ default d (content_num c !! k) <= 1)
    as Hd.
  { intros k d Hk H0 H1. destruct (content_num c !! k) as [v|] eqn:E; simpl; [|done].
    by apply (Hr k v). }
  unfold SearchRecommendationEngine.estimate_ctr,
    SearchRecommendationEngine.estimate_like_rate,
    SearchRecommendationEngine.estimate_finish_rate,
    SearchRecommendationEngine.estimate_comment_rate. cbv zeta.
  destruct (Hd "base_ctr"%string 0.05) as [? ?]; [repeat constructor|lra|lra|].
  destruct (Hd "base_like_rate"%string 0.10) as [? ?]; [repeat constructor|lra|lra|].
  destruct (Hd "base_finish_rate"%string 0.50) as [? ?]; [repeat constructor|lra|lra|].
  destruct (Hd "base_comment_rate"%string 0.05) as [? ?]; [repeat constructor|lra|lra|].
  destruct (tag_interest_tags tags); split; lra.
Qed.

(** X26. [fine_rank] answers the ranked copies of the recalled items in
    non-increasing order of score, items of equal score in their recalled
    order.  Each copy carries its four estimates and the score
    0.4·ctr + 0.25·like + 0.25·finish + 0.1·comment over them; when the base
    rates of the items are probabilities the scores lie in [0, 1.08]. *)
Theorem fine_rank_sorts_by_score (recalled : list Content) (tags : UserTags) :
  let ranked := SearchRecommendationEngine.fine_rank recalled tags in
  ranked ≡ₚ SearchRecommendationEngine.rank_one tags <$> recalled ∧
  length ranked = length recalled ∧
  Sorted (λ x y, score_of y <= score_of x) ranked ∧
  (∀ k, filter (λ c, Qeq_bool (score_of c) k = true) ranked
        = filter (λ c, Qeq_bool (score_of c) k = true)
                 (SearchRecommendationEngine.rank_one tags <$> recalled)) ∧
  Forall (λ c, ∃ ctr like_rate finish_rate comment_rate,
            content_num c !! "estimated_ctr" = Some ctr ∧
            content_num c !! "estimated_like_rate" = Some like_rate ∧
            content_num c !! "estimated_finish_rate" = Some finish_rate ∧
            content_num c !! "estimated_comment_rate" = Some comment_rate ∧
            content_num c !! "ranking_score"
              = Some (0.4 * ctr + 0.25 * like_rate + 0.25 * finish_rate + 0.1 * comment_rate))
         ranked ∧
  (Forall rates_in_unit recalled →
   Forall (λ c, 0 <= score_of c ∧ score_of c <= 1.08) ranked).
Proof.
  cbv zeta. unfold SearchRecommendationEngine.fine_rank.
  pose proof (sort_by_perm "ranking_score"
                (SearchRecommendationEngine.rank_one tags <$> recalled)) as Hperm.
  split; [done|].
  split; [by rewrite Hperm, length_fmap|].
  split; [apply sort_by_sorted|].
  split; [intros k; apply sort_by_filter|].
  split.
  - rewrite Hperm. apply Forall_fmap, Forall_forall. intros c _. simpl.
    destruct (rank_one_fields tags c) as (_ & _ & H1 & H2 & H3 & H4 & H5 & _).
    by eexists _, _, _, _.
  - intros Hrates. rewrite Hperm. apply Forall_fmap.
    eapply Forall_impl; [exact Hrates|]. intros c Hc. simpl.
    by apply rank_one_score_bounds.
Qed.

(** ** Re-ranking *)

Lemma by_author_drop_length (a : string) (n : nat) (l : list Content) :
  (length (by_author a (drop n l)) ≤ length (by_author a l))%nat.
Proof.
  rewrite <- (take_drop n l) at 2. unfold by_author.
  rewrite filter_app, length_app. lia.
Qed.

Lemma spread_snoc (l : list Content) (x : Content) :
  spread l →
  (∀ b, content_text x !! "author_id" = Some b →
        (length (by_author b (drop (length l - 3) l)) ≤ 1)%nat) →
  spread (l ++ [x]).
Proof.
  intros Hl Hx a i.
  destruct (decide (length l < i)%nat) as [Hout|Hin].
  { rewrite drop_ge by (rewrite length_app; simpl; lia). simpl. lia. }
  rewrite drop_app_le by lia.
  destruct (decide (i + 4 ≤ length l)%nat) as [Hfar|Hnear].
  { rewrite take_app_le by (rewrite length_drop; lia). apply Hl. }
  rewrite take_ge by (rewrite length_app, length_drop; simpl; lia).
  unfold by_author. rewrite filter_app, length_app. fold (by_author a (drop i l)).
  destruct (decide (content_text x !! "author_id" = Some a)) as [Ha|Ha].
  - rewrite filter_cons_True by done. simpl.
    specialize (Hx a Ha).
    replace i with ((length l - 3) + (i - (length l - 3)))%nat by lia.
    rewrite <- drop_drop.
    pose proof (by_author_drop_length a (i - (length l - 3))
                  (drop (length l - 3) l)). lia.
  - rewrite filter_cons_False by done. simpl.
    specialize (Hl a i). rewrite take_ge in Hl by (rewrite length_drop; lia). lia.
Qed.

Lemma boost_fields (c c' : Content) :
  SearchRecommendationEngine.boost c = Some c' →
  content_text c' = content_text c ∧ is_ad c' = is_ad c ∧
  (∃ s, content_num c !! "ranking_score" = Some s ∧
        content_num c' = <["ranking_score" := s * 1.1]> (content_num c)).
Proof.
  unfold SearchRecommendationEngine.boost.
  destruct (content_num c !! "ranking_score") as [s|] eqn:E; simpl; [|done].
  intros [= <-]. simpl. split; [done|]. split; [done|]. by exists s.
Qed.

Lemma boost_author (c c' : Content) :
  SearchRecommendationEngine.boost c = Some c' → author_of c' = author_of c.
Proof. intros H. unfold author_of. by destruct (boost_fields c c' H) as (-> & _). Qed.

Lemma by_author_unseen (a : string) (l : list Content) :
  a ∉ author_of <$> l → by_author a l = [].
Proof.
  intros Hnot. unfold by_author.
  induction l as [|c l IH]; [done|].
  rewrite fmap_cons, not_elem_of_cons in Hnot. destruct Hnot as [Hc Hl].
  rewrite filter_cons_False; [by apply IH|].
  intros Heq. apply Hc. unfold author_of. by rewrite Heq.
Qed.

(** One turn of the loop when there are no ads to insert. *)
Lemma re_rank_step_no_ads (i : nat) (c : Content)
    (st st' : SearchRecommendationEngine.ReRank) :
  SearchRecommendationEngine.re_rank_step [] i c st = Some st' →
  ((st' = st) ∧ (author_of c ∈ SearchRecommendationEngine.seen_authors st) ∧
   (2 ≤ length (by_author (author_of c)
                  (drop (length (SearchRecommendationEngine.re_ranked st) - 3)
                        (SearchRecommendationEngine.re_ranked st))))%nat) ∨
  (∃ c', st' = SearchRecommendationEngine.mkReRank
                 (SearchRecommendationEngine.re_ranked st ++ [c'])
                 ({[author_of c]} ∪ SearchRecommendationEngine.seen_authors st)
                 (SearchRecommendationEngine.ads_inserted st) ∧
         ((author_of c ∈ SearchRecommendationEngine.seen_authors st ∧ c' = c ∧
           (length (by_author (author_of c)
                      (drop (length (SearchRecommendationEngine.re_ranked st) - 3)
                            (SearchRecommendationEngine.re_ranked st))) ≤ 1)%nat) ∨
          ((author_of c ∉ SearchRecommendationEngine.seen_authors st) ∧
           SearchRecommendationEngine.boost c = Some c'))).
Proof.
  unfold SearchRecommendationEngine.re_rank_step. cbv zeta.
  fold (author_of c). unfold SearchRecommendationEngine.recent_by.
  fold (by_author (author_of c)
          (drop (length (SearchRecommendationEngine.re_ranked st) - 3)
                (SearchRecommendationEngine.re_ranked st))).
  set (count := length (by_author (author_of c)
                          (drop (length (SearchRecommendationEngine.re_ranked st) - 3)
                                (SearchRecommendationEngine.re_ranked st)))).
  destruct (bool_decide (author_of c ∈ SearchRecommendationEngine.seen_authors st)) eqn:Hseen;
    [apply bool_decide_eq_true in Hseen|apply bool_decide_eq_false in Hseen].
  - destruct (2 <=? count)%nat eqn:Hcount;
      [apply Nat.leb_le in Hcount|apply Nat.leb_gt in Hcount]; cbn [andb mbind option_bind].
    + intros [= <-]. by left.
    + intros [= <-]. right. exists c. split; [done|]. left. split; [done|]. split; [done|lia].
  - cbn [andb].
    destruct (SearchRecommendationEngine.boost c) as [c'|] eqn:Hb; cbn [mbind option_bind];
      [|done].
    intros [= <-]. right. exists c'. split; [done|]. by right.
Qed.

Lemma re_rank_inv_step (done : list Content) (i : nat) (c : Content)
    (st st' : SearchRecommendationEngine.ReRank) :
  re_rank_inv done st →
  SearchRecommendationEngine.re_rank_step [] i c st = Some st' →
  re_rank_inv (done ++ [c]) st'.
Proof.
  intros (Hspread & Hseen & Hdone & Hsub & Hraise) Hstep.
  apply re_rank_step_no_ads in Hstep.
  destruct Hstep as [(-> & Ha & _) | (c' & -> & Hcase)].
  - split; [done|]. split; [done|]. split.
    { intros a. rewrite fmap_app, elem_of_app. intros [H|H]; [by apply Hdone|].
      apply list_elem_of_singleton in H. by subst a. }
    split; [rewrite fmap_app; by apply sublist_inserts_r|].
    intros j d Hj. destruct (Hraise j d Hj) as [H1 H2]. split.
    + intros H. apply elem_of_app. left. by apply H1.
    + intros H. destruct (H2 H) as (c0 & Hc0 & Hb). exists c0. split; [|done].
      apply elem_of_app. by left.
  - assert (author_of c' = author_of c ∧ content_text c' = content_text c) as [Hauth Htext].
    { destruct Hcase as [(_ & -> & _) | (_ & Hb)]; [done|].
      split; [by apply boost_author|]. by destruct (boost_fields c c' Hb) as (-> & _). }
    unfold re_rank_inv. cbv zeta. simpl. split.
    { apply spread_snoc; [done|]. intros b Hb.
      assert (b = author_of c) as ->.
      { unfold author_of. rewrite <- Htext, Hb. done. }
      destruct Hcase as [(_ & _ & Hcount) | (Hunseen & _)]; [done|].
      rewrite (by_author_unseen (author_of c)); [simpl; lia|].
      intros Hin. apply Hunseen, Hseen.
      apply list_elem_of_fmap in Hin. destruct Hin as (d & Hd & Hin).
      apply list_elem_of_fmap. exists d. split; [done|].
      eapply elem_of_sublist; [exact Hin|apply sublist_drop]. }
    split.
    { intros a. rewrite fmap_app, elem_of_app, elem_of_union, elem_of_singleton, Hseen.
      simpl. rewrite list_elem_of_singleton, Hauth. tauto. }
    split.
    { intros a. rewrite fmap_app, elem_of_app, elem_of_union, elem_of_singleton.
      intros [H|H]; [right; by apply Hdone|left].
      apply list_elem_of_singleton in H. done. }
    split.
    { rewrite !fmap_app. apply sublist_app; [done|]. simpl. by rewrite Htext. }
    intros j d Hj. apply lookup_snoc_Some in Hj.
    destruct Hj as [(Hlt & Hj) | (-> & <-)].
    + rewrite take_app_le by lia.
      destruct (Hraise j d Hj) as [H1 H2]. split.
      * intros H. apply elem_of_app. left. by apply H1.
      * intros H. destruct (H2 H) as (c0 & Hc0 & Hb). exists c0. split; [|done].
        apply elem_of_app. by left.
    + rewrite take_app_length. rewrite Hauth. split.
      * intros Hin. apply Hseen in Hin.
        destruct Hcase as [(_ & -> & _) | (Hunseen & _)]; [|done].
        apply elem_of_app. right. by apply list_elem_of_singleton.
      * intros Hnot. destruct Hcase as [(Hin & _) | (_ & Hb)].
        { exfalso. apply Hnot. by apply Hseen. }
        exists c. split; [|done]. apply elem_of_app. right. by apply list_elem_of_singleton.
Qed.

Lemma re_rank_inv_loop (rest done : list Content) (i : nat)
    (st st' : SearchRecommendationEngine.ReRank) :
  re_rank_inv done st →
  SearchRecommendationEngine.re_rank_loop [] i rest st = Some st' →
  re_rank_inv (done ++ rest) st'.
Proof.
  revert done i st. induction rest as [|c rest IH]; intros done i st Hinv Hloop.
  - simpl in Hloop. injection Hloop as <-. by rewrite app_nil_r.
  - simpl in Hloop.
    destruct (SearchRecommendationEngine.re_rank_step [] i c st) as [st1|] eqn:Hstep;
      simpl in Hloop; [|done].
    rewrite (cons_middle c done rest), app_assoc.
    eapply IH; [|exact Hloop]. by eapply re_rank_inv_step.
Qed.

Lemma re_rank_inv_init : re_rank_inv [] (SearchRecommendationEngine.mkReRank [] ∅ 0).
Proof.
  unfold re_rank_inv. cbv zeta. simpl.
  split; [intros a i; rewrite drop_nil; simpl; lia|].
  split; [intros a; split; [by intros ?%elem_of_empty|by intros ?%elem_of_nil]|].
  split; [by intros a ?%elem_of_nil|]. split; [done|]. by intros i c' ?.
Qed.

Lemma re_rank_no_ads_inv (ranked out : list Content) (ads : option (list Content)) :
  default [] ads = [] →
  SearchRecommendationEngine.re_rank ranked ads = Some out →
  ∃ st, SearchRecommendationEngine.re_ranked st = out ∧ re_rank_inv ranked st.
Proof.
  unfold SearchRecommendationEngine.re_rank. intros -> H.
  destruct (SearchRecommendationEngine.re_rank_loop [] 0 ranked _) as [st|] eqn:Hloop;
    simpl in H; [|done].
  injection H as <-. exists st. split; [done|].
  apply (re_rank_inv_loop ranked [] 0 _ st re_rank_inv_init Hloop).
Qed.

(** X27. Without ads to insert, the list [re_rank] answers is spread: no
    four consecutive items hold more than two items naming the same author,
    so no three consecutive items name the same author. *)
Theorem re_rank_spreads_authors (ranked out : list Content) (ads : option (list Content)) :
  default [] ads = [] →
  SearchRecommendationEngine.re_rank ranked ads = Some out →
  spread out ∧
  (∀ i c1 c2 c3 a,
     out !! i = Some c1 → out !! (S i) = Some c2 → out !! (S (S i)) = Some c3 →
     content_text c1 !! "author_id" = Some a →
     content_text c2 !! "author_id" = Some a →
     content_text c3 !! "author_id" = Some a → False).
Proof.
  intros Hads Hrun.
  destruct (re_rank_no_ads_inv ranked out ads Hads Hrun) as (st & <- & Hspread & _).
  split; [done|].
  intros i c1 c2 c3 a H1 H2 H3 Ha1 Ha2 Ha3.
  specialize (Hspread a i).
  assert (∃ tl, drop i (SearchRecommendationEngine.re_ranked st) = c1 :: c2 :: c3 :: tl)
    as (tl & Hdrop).
  { eexists. erewrite (drop_S _ c1 i H1), (drop_S _ c2 (S i) H2), (drop_S _ c3 (S (S i)) H3).
    reflexivity. }
  rewrite Hdrop in Hspread. unfold by_author in Hspread. simpl in Hspread.
  rewrite !filter_cons_True in Hspread by done. simpl in Hspread. lia.
Qed.

Lemma re_rank_spreads_authors_witness :
  ∃ out,
    SearchRecommendationEngine.re_rank
      (SearchRecommendationEngine.fine_rank sample_pool sample_tags) None = Some out ∧
    spread out ∧ length out = 3%nat.
Proof.
  destruct (some_cases
              (SearchRecommendationEngine.re_rank
                 (SearchRecommendationEngine.fine_rank sample_pool sample_tags) None)
              (λ out, length out = 3%nat)) as (out & Hrun & Hlen).
  { vm_compute. reflexivity. }
  exists out. split; [exact Hrun|]. split; [|exact Hlen].
  exact (proj1 (re_rank_spreads_authors
                  (SearchRecommendationEngine.fine_rank sample_pool sample_tags) out None
                  eq_refl Hrun)).
Defined.

Lemma re_rank_step_grows (ads : list Content) (i : nat) (c : Content)
    (st st' : SearchRecommendationEngine.ReRank) :
  SearchRecommendationEngine.re_rank_step ads i c st = Some st' →
  SearchRecommendationEngine.re_ranked st
    `prefix_of` SearchRecommendationEngine.re_ranked st'.
Proof.
  unfold SearchRecommendationEngine.re_rank_step. cbv zeta.
  destruct (_ && (2 <=? _)%nat); [by intros [= <-]|].
  destruct (if bool_decide _ then Some c else SearchRecommendationEngine.boost c) as [c'|];
    cbn [mbind option_bind]; [|done].
  destruct (_ && _ && _).
  - destruct (ads !! _); intros [= <-]; simpl.
    + rewrite <- app_assoc. by apply prefix_app_r.
    + by apply prefix_app_r.
  - intros [= <-]. simpl. by apply prefix_app_r.
Qed.

Lemma re_rank_loop_grows (ads rest : list Content) (i : nat)
    (st st' : SearchRecommendationEngine.ReRank) :
  SearchRecommendationEngine.re_rank_loop ads i rest st = Some st' →
  SearchRecommendationEngine.re_ranked st
    `prefix_of` SearchRecommendationEngine.re_ranked st'.
Proof.
  revert i st. induction rest as [|c rest IH]; intros i st Hloop; simpl in Hloop.
  - by injection Hloop as <-.
  - destruct (SearchRecommendationEngine.re_rank_step ads i c st) as [st1|] eqn:Hstep;
      cbn [mbind option_bind] in Hloop; [|done].
    etrans; [by eapply re_rank_step_grows|by eapply IH].
Qed.

(** With a score on every item, re-ranking does not fail. *)
Lemma re_rank_loop_total (ads rest : list Content) (i : nat)
    (st : SearchRecommendationEngine.ReRank) :
  Forall (λ c, is_Some (content_num c !! "ranking_score")) rest →
  is_Some (SearchRecommendationEngine.re_rank_loop ads i rest st).
Proof.
  intros Hall. revert i st. induction Hall as [|c rest [s Hs] _ IH]; intros i st; simpl.
  - by eexists.
  - assert (is_Some (SearchRecommendationEngine.re_rank_step ads i c st)) as [st1 ->];
      [|apply IH].
    unfold SearchRecommendationEngine.re_rank_step, SearchRecommendationEngine.boost.
    cbv zeta. rewrite Hs.
    destruct (_ && (2 <=? _)%nat); [by eexists|].
    destruct (bool_decide _); cbn [mbind option_bind];
      (destruct (_ && _ && _); [destruct (ads !! _)|]; by eexists).
Qed.

(** X28. Without ads to insert: [re_rank] answers when every item has a
    score, and raises [KeyError] when the first item has none.  What it
    answers lists items of the input in their order; every author of the
    input is still there; an item whose author is not among the items before
    it is the input item with its score raised by the factor 1.1, any other
    item is the input item unchanged; and the first item of the input comes
    first, raised. *)
Theorem re_rank_raises_first_of_author (ranked : list Content)
    (ads : option (list Content)) :
  default [] ads = [] →
  (Forall (λ c, is_Some (content_num c !! "ranking_score")) ranked →
   is_Some (SearchRecommendationEngine.re_rank ranked ads)) ∧
  (∀ c rest, ranked = c :: rest → content_num c !! "ranking_score" = None →
             SearchRecommendationEngine.re_rank ranked ads = None) ∧
  (∀ out,
     SearchRecommendationEngine.re_rank ranked ads = Some out →
     content_text <$> out `sublist_of` content_text <$> ranked ∧
     (length out ≤ length ranked)%nat ∧
     (∀ c, c ∈ ranked → author_of c ∈ author_of <$> out) ∧
     (∀ i c', out !! i = Some c' →
        (author_of c' ∈ author_of <$> take i out → c' ∈ ranked) ∧
        (author_of c' ∉ author_of <$> take i out →
         ∃ c s, c ∈ ranked ∧ content_num c !! "ranking_score" = Some s ∧
                content_text c' = content_text c ∧
                content_num c' = <["ranking_score" := s * 1.1]> (content_num c))) ∧
     (∀ c rest, ranked = c :: rest →
                ∃ c', SearchRecommendationEngine.boost c = Some c' ∧ head out = Some c')).
Proof.
  intros Hads. split; [|split].
  - intros Hall. unfold SearchRecommendationEngine.re_rank.
    destruct (re_rank_loop_total (default [] ads) ranked 0
                (SearchRecommendationEngine.mkReRank [] ∅ 0) Hall) as [st ->].
    by eexists.
  - intros c rest -> Hnone. unfold SearchRecommendationEngine.re_rank. rewrite Hads. simpl.
    unfold SearchRecommendationEngine.re_rank_step, SearchRecommendationEngine.boost.
    cbv zeta. simpl. rewrite Hnone. reflexivity.
  - intros out Hrun.
    destruct (re_rank_no_ads_inv ranked out ads Hads Hrun)
      as (st & <- & _ & Hseen & Hdone & Hsub & Hraise).
    cbv zeta in *. split; [done|]. split.
    { apply sublist_length in Hsub. by rewrite !length_fmap in Hsub. }
    split.
    { intros c Hc. apply Hseen, Hdone. apply list_elem_of_fmap. by exists c. }
    split.
    { intros i c' Hi. destruct (Hraise i c' Hi) as [H1 H2]. split; [done|].
      intros Hnot. destruct (H2 Hnot) as (c & Hc & Hb).
      destruct (boost_fields c c' Hb) as (Htext & _ & s & Hs & Hnum).
      by exists c, s. }
    intros c rest ->.
    unfold SearchRecommendationEngine.re_rank in Hrun. rewrite Hads in Hrun.
    simpl in Hrun.
    destruct (SearchRecommendationEngine.re_rank_step [] 0 c _) as [st1|] eqn:Hstep;
      cbn [mbind option_bind] in Hrun; [|done].
    destruct (SearchRecommendationEngine.re_rank_loop [] 1 rest st1) as [st2|] eqn:Hloop;
      simpl in Hrun; [|done].
    injection Hrun as Hout.
    apply re_rank_step_no_ads in Hstep. simpl in Hstep.
    destruct Hstep as [(_ & Hin & _) | (c' & -> & [(Hin & _) | (_ & Hb)])];
      [by apply elem_of_empty in Hin|by apply elem_of_empty in Hin|].
    exists c'. split; [done|].
    apply re_rank_loop_grows in Hloop. simpl in Hloop.
    destruct Hloop as (k & Hk). rewrite <- Hout, Hk. done.
Qed.

Lemma re_rank_raises_first_of_author_witness :
  SearchRecommendationEngine.re_rank sample_pool None = None.
Proof.
  exact (proj1 (proj2 (re_rank_raises_first_of_author sample_pool None eq_refl))
           (sample_content "content_0" "author_0" 0.05 1) _ eq_refl eq_refl).
Defined.

(** ** Recall *)

Lemma unique_content_spec (l : list Content) (seen : gset string) (out : list Content) :
  SearchRecommendationEngine.unique_content seen l = Some out →
  out `sublist_of` l ∧
  Forall (λ c, ∃ id, content_id_of c = Some id ∧ id ∉ seen) out ∧
  NoDup (content_id_of <$> out) ∧
  Forall (λ c, ∃ id, content_id_of c = Some id ∧
                     (id ∈ seen ∨ Some id ∈ content_id_of <$> out)) l.
Proof.
  revert seen out. induction l as [|c rest IH]; intros seen out H; simpl in H.
  - injection H as <-. repeat split; constructor.
  - fold (content_id_of c) in H.
    destruct (content_id_of c) as [id|] eqn:Hid; cbn [mbind option_bind] in H; [|done].
    destruct (bool_decide (id ∈ seen)) eqn:Hseen;
      [apply bool_decide_eq_true in Hseen|apply bool_decide_eq_false in Hseen].
    + destruct (IH seen out H) as (Hsub & Hout & Hnodup & Hall).
      split; [by apply sublist_cons|]. split; [done|]. split; [done|].
      constructor; [|done]. exists id. split; [done|by left].
    + destruct (SearchRecommendationEngine.unique_content ({[id]} ∪ seen) rest)
        as [rest'|] eqn:Hrest; cbn [mbind option_bind] in H; [|done].
      injection H as <-.
      destruct (IH _ _ Hrest) as (Hsub & Hout & Hnodup & Hall).
      split; [by apply sublist_skip|]. split.
      { constructor; [by exists id|].
        eapply Forall_impl; [exact Hout|]. intros d (id' & Hd & Hnot).
        exists id'. split; [done|]. intros Hin. apply Hnot, elem_of_union. by right. }
      split.
      { rewrite fmap_cons. constructor; [|done]. rewrite Hid.
        intros Hin. apply list_elem_of_fmap in Hin. destruct Hin as (d & Hd & Hin).
        rewrite Forall_forall in Hout. destruct (Hout d Hin) as (id' & Hd' & Hnot).
        rewrite Hd' in Hd. injection Hd as ->.
        apply Hnot, elem_of_union. left. by apply elem_of_singleton. }
      constructor.
      { exists id. split; [done|]. right. rewrite fmap_cons, Hid. by left. }
      eapply Forall_impl; [exact Hall|]. intros d (id' & Hd & Hcase).
      exists id'. split; [done|]. rewrite fmap_cons.
      destruct Hcase as [Hin|Hin]; [|right; by right].
      apply elem_of_union in Hin. destruct Hin as [Hin|Hin]; [|by left].
      apply elem_of_singleton in Hin. subst id'. right. rewrite Hid. by left.
Qed.

Lemma sorted_desc_spec (key : string) (l s : list Content) :
  SearchRecommendationEngine.sorted_desc key l = Some s →
  s ≡ₚ l ∧
  StronglySorted (λ x y, SearchRecommendationEngine.key_of key y
                         <= SearchRecommendationEngine.key_of key x) s.
Proof.
  unfold SearchRecommendationEngine.sorted_desc.
  destruct (forallb _ l); [|done]. intros [= <-].
  split; [apply sort_by_perm|].
  apply Sorted_StronglySorted; [|apply sort_by_sorted].
  intros x y z Hxy Hyz. lra.
Qed.

Lemma StronglySorted_take_drop {A} (R : A → A → Prop) (n : nat) (l : list A) :
  StronglySorted R l → ∀ x y, x ∈ take n l → y ∈ drop n l → R x y.
Proof.
  intros Hs. revert n. induction Hs as [|z l Hs IH Hz]; intros n x y Hx Hy.
  - rewrite take_nil in Hx. by apply elem_of_nil in Hx.
  - destruct n as [|n]; simpl in *; [by apply elem_of_nil in Hx|].
    apply elem_of_cons in Hx. destruct Hx as [->|Hx].
    + rewrite Forall_forall in Hz. apply Hz.
      eapply elem_of_sublist; [exact Hy|apply sublist_drop].
    + by eapply IH.
Qed.

(** X29. What [recall] answers is taken, in order, from the interest,
    collaborative, popular and cold-start items; it holds no id twice and at
    most [recall_size] items, and every item's id when the four recalls
    together hold no more than [recall_size] items.  The popular items are at
    most a quarter of [recall_size] items of the pool, none with a lower
    base click rate than a pool item left out.  For a user who is not new
    the cold-start items are the last quarter-size items of the pool, and
    the whole pool when that size is 0 or exceeds the pool. *)
Theorem recall_is_deduplicated (pool interest collaborative : list Content)
    (tags : UserTags) (recall_size : nat) (out : list Content) :
  SearchRecommendationEngine.recall pool interest collaborative tags recall_size
    = Some out →
  ∃ popular cold_start rest,
    SearchRecommendationEngine.popular_recall pool (recall_size / 4) = Some popular ∧
    SearchRecommendationEngine.cold_start_recall pool tags (recall_size / 4)
      = Some cold_start ∧
    out `sublist_of` interest ++ collaborative ++ popular ++ cold_start ∧
    (length out ≤ recall_size)%nat ∧
    NoDup (content_id_of <$> out) ∧
    Forall (λ c, is_Some (content_id_of c)) out ∧
    ((length (interest ++ collaborative ++ popular ++ cold_start) ≤ recall_size)%nat →
     ∀ c, c ∈ interest ++ collaborative ++ popular ++ cold_start →
          content_id_of c ∈ content_id_of <$> out) ∧
    (length popular ≤ recall_size / 4)%nat ∧
    popular ++ rest ≡ₚ pool ∧
    (∀ c d, c ∈ popular → d ∈ rest →
            SearchRecommendationEngine.key_of "base_ctr" d
            <= SearchRecommendationEngine.key_of "base_ctr" c) ∧
    Forall (λ c, c ∈ pool) cold_start ∧
    (tag_lifecycle_stage tags ≠ Some "新用户"%string →
     cold_start = (if (1 <=? recall_size / 4)%nat && (recall_size / 4 <=? length pool)%nat
                   then drop (length pool - recall_size / 4) pool else pool)).
Proof.
  unfold SearchRecommendationEngine.recall. intros H.
  set (size := (recall_size / 4)%nat) in *.
  assert (size ≤ recall_size)%nat as Hsize by (apply Nat.Div0.div_le_upper_bound; lia).
  clearbody size.
  destruct (SearchRecommendationEngine.popular_recall pool size)
    as [popular|] eqn:Hpop; cbn [mbind option_bind] in H; [|done].
  destruct (SearchRecommendationEngine.cold_start_recall pool tags size)
    as [cold|] eqn:Hcold; cbn [mbind option_bind] in H; [|done].
  destruct (SearchRecommendationEngine.unique_content ∅ _) as [unique|] eqn:Huniq;
    cbn [mbind option_bind] in H; [|done].
  injection H as <-.
  unfold SearchRecommendationEngine.popular_recall in Hpop.
  destruct (SearchRecommendationEngine.sorted_desc "base_ctr" pool) as [sorted|] eqn:Hsort;
    cbn [mbind option_bind] in Hpop; [|done].
  injection Hpop as <-.
  destruct (sorted_desc_spec _ _ _ Hsort) as (Hperm & Hsorted).
  destruct (unique_content_spec _ _ _ Huniq) as (Hsub & Hids & Hnodup & Hall).
  exists (take size sorted), cold, (drop size sorted).
  split; [done|]. split; [done|].
  split; [etrans; [apply sublist_take|done]|].
  split; [rewrite length_take; lia|].
  split.
  { eapply sublist_NoDup; [exact Hnodup|]. apply fmap_sublist, sublist_take. }
  split.
  { apply Forall_forall. intros c Hc. rewrite Forall_forall in Hids.
    destruct (Hids c) as (id & Hid & _);
      [eapply elem_of_sublist; [exact Hc|apply sublist_take]|].
    rewrite Hid. by eexists. }
  split.
  { intros Hlen c Hc. apply sublist_length in Hsub as Hle.
    rewrite take_ge by lia.
    rewrite Forall_forall in Hall. destruct (Hall c Hc) as (id & Hid & [Hin|Hin]);
      [by apply elem_of_empty in Hin|]. by rewrite Hid. }
  split; [rewrite length_take; lia|].
  split; [by rewrite take_drop|].
  split; [intros c d Hc Hd; by eapply (StronglySorted_take_drop _ _ _ Hsorted)|].
  unfold SearchRecommendationEngine.cold_start_recall in Hcold. cbv zeta in Hcold.
  split.
  - destruct (bool_decide (default ""%string (tag_lifecycle_stage tags) = _)).
    + destruct (SearchRecommendationEngine.sorted_desc "ltv_contribution" pool)
        as [s|] eqn:Hs; cbn [mbind option_bind] in Hcold; [|done].
      injection Hcold as <-. destruct (sorted_desc_spec _ _ _ Hs) as (Hp & _).
      apply Forall_forall. intros c Hc. rewrite <- Hp.
      eapply elem_of_sublist; [exact Hc|apply sublist_take].
    + injection Hcold as <-. apply Forall_forall. intros c Hc.
      destruct (_ <=? _)%nat; [|done]. destruct (_ =? _)%nat; [done|].
      eapply elem_of_sublist; [exact Hc|apply sublist_drop].
  - intros Hstage.
    rewrite bool_decide_eq_false_2 in Hcold.
    2:{ destruct (tag_lifecycle_stage tags) as [s|]; simpl; [congruence|done]. }
    injection Hcold as <-.
    destruct (size <=? length pool)%nat eqn:E1; [|by rewrite andb_false_r].
    rewrite andb_true_r. by destruct size.
Qed.

Lemma recall_is_deduplicated_witness :
  ∃ out,
    SearchRecommendationEngine.recall sample_pool [] [] sample_tags 8 = Some out ∧
    NoDup (content_id_of <$> out) ∧ (length out ≤ 8)%nat.
Proof.
  destruct (some_cases
              (SearchRecommendationEngine.recall sample_pool [] [] sample_tags 8)
              (λ _, True)) as (out & Hrun & _).
  { vm_compute. exact I. }
  destruct (recall_is_deduplicated sample_pool [] [] sample_tags 8 out Hrun)
    as (popular & cold & rest & _ & _ & _ & Hlen & Hnodup & _).
  exists out. split; [exact Hrun|]. split; [exact Hnodup|exact Hlen].
Defined.

(** ** From the funnel to the pipeline *)

Lemma sumQ_bounds (hi : Q) (l : list Q) :
  Forall (λ x, 0 <= x ∧ x <= hi) l →
  0 <= sumQ l ∧ sumQ l <= hi * inject_Z (Z.of_nat (length l)).
Proof.
  induction 1 as [|x l [Hx0 Hx1] _ [IH0 IH1]].
  - unfold sumQ. simpl. split; [lra|]. change (inject_Z (Z.of_nat 0)) with 0. lra.
  - rewrite sumQ_cons. split; [lra|].
    change (length (x :: l)) with (S (length l)).
    rewrite Nat2Z.inj_succ. unfold Z.succ. rewrite inject_Z_plus.
    change (inject_Z 1) with 1. lra.
Qed.

Lemma fine_rank_scored (recalled : list Content) (tags : UserTags) :
  Forall (λ c, is_Some (content_num c !! "ranking_score"))
         (SearchRecommendationEngine.fine_rank recalled tags).
Proof.
  unfold SearchRecommendationEngine.fine_rank. rewrite sort_by_perm.
  apply Forall_fmap, Forall_forall. intros c _. simpl.
  destruct (rank_one_fields tags c) as (_ & _ & _ & _ & _ & _ & H & _). by eexists.
Qed.

(** The lifetime value of an item survives ranking and re-ranking. *)
Lemma re_ranked_ltv (P : Q → Prop) (recalled out : list Content) (tags : UserTags) :
  Forall (λ c, P (SearchRecommendationEngine.calculate_content_ltv c)) recalled →
  SearchRecommendationEngine.re_rank (SearchRecommendationEngine.fine_rank recalled tags) None
    = Some out →
  Forall (λ c, P (SearchRecommendationEngine.calculate_content_ltv c)) out.
Proof.
  intros Hall Hrun.
  assert (Forall (λ c, P (SearchRecommendationEngine.calculate_content_ltv c))
                 (SearchRecommendationEngine.fine_rank recalled tags)) as Hranked.
  { unfold SearchRecommendationEngine.fine_rank. rewrite sort_by_perm.
    apply Forall_fmap. eapply Forall_impl; [exact Hall|]. intros c Hc. simpl.
    unfold SearchRecommendationEngine.calculate_content_ltv in *.
    by destruct (rank_one_fields tags c) as (_ & _ & _ & _ & _ & _ & _ & ->). }
  destruct (re_rank_no_ads_inv _ out None eq_refl Hrun) as (st & <- & _ & _ & _ & _ & Hraise).
  cbv zeta in Hraise. rewrite Forall_forall in Hranked.
  apply Forall_lookup. intros i c' Hi. destruct (Hraise i c' Hi) as [H1 H2].
  destruct (decide (author_of c' ∈ author_of <$>
                      take i (SearchRecommendationEngine.re_ranked st))) as [Hin|Hnot].
  - by apply Hranked, H1.
  - destruct (H2 Hnot) as (c & Hc & Hb).
    destruct (boost_fields c c' Hb) as (_ & _ & s & _ & Hnum).
    unfold SearchRecommendationEngine.calculate_content_ltv. rewrite Hnum.
    rewrite lookup_insert_ne by done. by apply Hranked.
Qed.

(** The search path asks for a strictly positive organic value. *)
Lemma search_path_positive_organic (e : AdExchangeEngine.t) (up : Upstream)
    (request_id device_id app_id app_name platform : string) (ad_size : Z * Z)
    (num_dsps : nat) (w w' : World) (r : Result) :
  AdExchangeEngine.run_auction e up request_id device_id app_id app_name platform
    ad_size num_dsps w = Returns r w' →
  selected_path r = Some "search"%string →
  0 < organic_ltv up * AdExchangeEngine.lifecycle_multiplier (lifecycle_stage up).
Proof.
  intros Hrun Hpath. apply run_auction_inv in Hrun. destruct Hrun as (c & w0 & Hc & Hd).
  destruct (collect_inv _ _ _ _ _ _ _ _ _ _ _ _ Hc) as (_ & Horg & _).
  apply decide_cases in Hd.
  destruct Hd as [(_ & Hd) | [(_ & _ & -> & _) | [(_ & ? & ? & ? & _ & _ & ->) |
                  [(w1 & _ & Hpos & Hcap & _) | (w1 & _ & _ & Hd)]]]]; try done.
  - unfold AdExchangeEngine.latency_reject, bind, log_decision, ret in Hd. cbv zeta in Hd.
    inversion Hd; subst. done.
  - rewrite Horg in Hcap. lra.
  - apply clear_and_serve_returns in Hd. destruct Hd as [(Hp & _) | (Hp & _)]; congruence.
Qed.

(** X30. The funnel never fails on what [recall] answered: ranking puts
    a score on every item, so re-ranking does not raise.  The pipeline's
    upstream values are the stage and the lifetime value read off the tags
    and, as organic value, the summed lifetime value of the first five
    re-ranked items; the re-ranked list is spread and no longer than the
    recalled one; for items whose lifetime value lies in [0, 5] the organic
    value lies in [0, 25]; and with nothing recalled the organic value is 0
    and the pipeline never takes the search path. *)
Theorem funnel_feeds_pipeline (tags : UserTags) (recalled : list Content) :
  ∃ up re_ranked,
    upstream_of tags recalled = Some up ∧
    SearchRecommendationEngine.re_rank
      (SearchRecommendationEngine.fine_rank recalled tags) None = Some re_ranked ∧
    lifecycle_stage up = stage_of_tags tags ∧
    user_ltv up = default 0 (tag_ltv tags) ∧
    organic_ltv up
      = sumQ (SearchRecommendationEngine.calculate_content_ltv <$> take 5 re_ranked) ∧
    (length re_ranked ≤ length recalled)%nat ∧
    spread re_ranked ∧
    (Forall (λ c, 0 <= SearchRecommendationEngine.calculate_content_ltv c ∧
                  SearchRecommendationEngine.calculate_content_ltv c <= 5) recalled →
     0 <= organic_ltv up ∧ organic_ltv up <= 25) ∧
    (recalled = [] →
     organic_ltv up = 0 ∧
     ∀ e request_id device_id app_id app_name platform ad_size num_dsps w w' r,
       AdExchangeEngine.run_auction e up request_id device_id app_id app_name platform
         ad_size num_dsps w = Returns r w' →
       selected_path r ≠ Some "search"%string).
Proof.
  unfold upstream_of. cbv zeta.
  destruct (re_rank_loop_total [] (SearchRecommendationEngine.fine_rank recalled tags) 0
              (SearchRecommendationEngine.mkReRank [] ∅ 0) (fine_rank_scored recalled tags))
    as [st Hloop].
  assert (SearchRecommendationEngine.re_rank
            (SearchRecommendationEngine.fine_rank recalled tags) None
          = Some (SearchRecommendationEngine.re_ranked st)) as Hrun.
  { unfold SearchRecommendationEngine.re_rank. simpl. by rewrite Hloop. }
  rewrite Hrun. cbn [mbind option_bind].
  eexists _, _. split; [reflexivity|]. split; [reflexivity|]. simpl.
  split; [done|]. split; [done|]. split; [done|].
  destruct (re_rank_no_ads_inv _ _ None eq_refl Hrun) as (st' & Hst & Hspread & _ & _ & Hsub & _).
  cbv zeta in Hsub. rewrite Hst in Hsub, Hspread.
  split.
  { apply sublist_length in Hsub. rewrite !length_fmap in Hsub.
    unfold SearchRecommendationEngine.fine_rank in Hsub.
    by rewrite sort_by_perm, length_fmap in Hsub. }
  split; [done|]. split.
  - intros Hall.
    pose proof (re_ranked_ltv (λ v, 0 <= v ∧ v <= 5) recalled _ tags Hall Hrun) as Hout.
    destruct (sumQ_bounds 5 (SearchRecommendationEngine.calculate_content_ltv <$>
                               take 5 (SearchRecommendationEngine.re_ranked st)))
      as [H0 H1].
    { apply Forall_fmap, Forall_forall. intros c Hc. rewrite Forall_forall in Hout. apply Hout.
      eapply elem_of_sublist; [exact Hc|apply sublist_take]. }
    split; [done|].
    rewrite length_fmap, length_take in H1.
    assert (inject_Z (Z.of_nat (5 `min` length (SearchRecommendationEngine.re_ranked st)))
            <= 5) as Hfive.
    { change 5 with (inject_Z 5). rewrite <- Zle_Qle. lia. }
    lra.
  - intros ->. simpl in Hloop. injection Hloop as <-. simpl.
    split; [reflexivity|].
    intros e request_id device_id app_id app_name platform ad_size num_dsps w w' r Hr Hpath.
    pose proof (search_path_positive_organic _ _ _ _ _ _ _ _ _ _ _ _ Hr Hpath) as Hpos.
    simpl in Hpos. unfold sumQ in Hpos. simpl in Hpos. lra.
Qed.
